(** * Asset registry: slugs, the record store, the redirect guard and the auth flow

    A shallow embedding of the two variants of the application
    ([src/anuncio] and [src/asset_manager]) together with the properties
    their specification states about them.

    Python values are modelled as follows.
    - A [str] is the list of its Unicode code points ([pystr]).
    - An [int] counter is a [nat]; timestamps and monetary values are [Z].
    - [None] is [None]; an exception is a constructor of a result type.
    - The relational store is the list of its committed rows; uniqueness
      constraints are checked by the commit, which answers [IntegrityError].
    - Other writers are a script of rows committed between two statements
      of the modelled request. *)

From Stdlib Require Import List NArith ZArith Arith Lia Bool.
From Stdlib Require Import Strings.String Strings.Ascii.
From Stdlib Require Import Numbers.DecimalString Numbers.DecimalNat Numbers.DecimalFacts.
From Stdlib Require Import Sorting.Permutation Sorting.Sorted.
Import ListNotations.

Set Implicit Arguments.

(* ================================================================== *)
(** * Python strings *)

Module PyStr.

Definition codepoint := N.
Definition pystr := list codepoint.

(** A literal: one code point per character of an ASCII Rocq string. *)
Fixpoint py (s : string) : pystr :=
  match s with
  | EmptyString => []
  | String c r => N_of_ascii c :: py r
  end.

Fixpoint eqb (s t : pystr) : bool :=
  match s, t with
  | [], [] => true
  | c :: s', d :: t' => N.eqb c d && eqb s' t'
  | _, _ => false
  end.

(** [str(n)] for a non-negative [int]. *)
Definition str_of_nat (n : nat) : pystr :=
  py (NilEmpty.string_of_uint (Nat.to_uint n)).

Definition hyphen : codepoint := 45%N.
Definition underscore : codepoint := 95%N.

Definition is_ascii (c : codepoint) : bool := (c <? 128)%N.
Definition in_range (lo hi c : codepoint) : bool := ((lo <=? c) && (c <=? hi))%N.
Arguments in_range (lo hi c)%_N_scope.
Definition ascii_upper (c : codepoint) : bool := in_range 65 90 c.
Definition ascii_lower (c : codepoint) : bool := in_range 97 122 c.
Definition ascii_digit (c : codepoint) : bool := in_range 48 57 c.
Definition ascii_alpha (c : codepoint) : bool := ascii_upper c || ascii_lower c.

(** [s.lstrip(chars)], [s.rstrip(chars)] and [s.strip(chars)], the set
    [chars] given by its membership test. *)
Fixpoint lstrip (p : codepoint -> bool) (s : pystr) : pystr :=
  match s with
  | [] => []
  | c :: r => if p c then lstrip p r else s
  end.

Fixpoint rstrip (p : codepoint -> bool) (s : pystr) : pystr :=
  match s with
  | [] => []
  | c :: r =>
      match rstrip p r with
      | [] => if p c then [] else [c]
      | r' => c :: r'
      end
  end.

Definition strip (p : codepoint -> bool) (s : pystr) : pystr :=
  rstrip p (lstrip p s).

(** The tables of the Unicode database the interpreter consults for code
    points outside ASCII.  They belong to the Python runtime, not to the
    repository, and are a parameter of the model.  [lower_ext] receives the
    text before the code point, the code point and the text after it
    ([str.lower] is context sensitive on the final sigma). *)
Record tables := {
  lower_ext : pystr -> codepoint -> pystr -> pystr;
  alnum_ext : codepoint -> bool;
  space_ext : codepoint -> bool
}.

(** Tables that know nothing outside ASCII; every function below agrees
    on ASCII text whatever the tables are. *)
Definition ascii_only : tables :=
  {| lower_ext := fun _ c _ => [c];
     alnum_ext := fun _ => false;
     space_ext := fun _ => false |}.

Section WithTables.
Variable U : tables.

Definition lower_cp (before : pystr) (c : codepoint) (after : pystr) : pystr :=
  if ascii_upper c then [(c + 32)%N]
  else if is_ascii c then [c]
  else lower_ext U before c after.

Fixpoint lower_from (before s : pystr) : pystr :=
  match s with
  | [] => []
  | c :: r => lower_cp before c r ++ lower_from (before ++ [c]) r
  end.

(** [s.lower()] *)
Definition lower (s : pystr) : pystr := lower_from [] s.

(** The class [\w] of [re] on [str] patterns: alphanumeric or underscore. *)
Definition is_word (c : codepoint) : bool :=
  if is_ascii c
  then ascii_alpha c || ascii_digit c || N.eqb c underscore
  else alnum_ext U c.

(** The class [\s] of [re] on [str] patterns. *)
Definition is_space (c : codepoint) : bool :=
  if is_ascii c
  then in_range 9 13 c || in_range 28 32 c
  else space_ext U c.
End WithTables.

End PyStr.
Import PyStr.

(* ================================================================== *)
(** * The slug normaliser of [anuncio/models.py] *)

Module Slug.

Section WithTables.
Variable U : tables.

(** [re.sub(r'[^\w\s-]', '', text)] *)
Definition kept (c : codepoint) : bool :=
  is_word U c || is_space U c || N.eqb c hyphen.
Definition drop_unwanted (text : pystr) : pystr := filter kept text.

(** [re.sub(r'[-\s]+', '-', text)]: every maximal run of hyphens and
    whitespace becomes one hyphen.  [in_run] tells that the previous
    code point belonged to the run already replaced. *)
Definition separator (c : codepoint) : bool :=
  N.eqb c hyphen || is_space U c.

Fixpoint collapse (in_run : bool) (text : pystr) : pystr :=
  match text with
  | [] => []
  | c :: r =>
      if separator c
      then (if in_run then collapse true r else hyphen :: collapse true r)
      else c :: collapse false r
  end.

Definition is_hyphen (c : codepoint) : bool := N.eqb c hyphen.

Definition _simple_slugify (text : pystr) : pystr :=
  let text := lower U text in
  let text := drop_unwanted text in
  let text := collapse false text in
  strip is_hyphen text.
End WithTables.

(** The alphabet the specification promises: [a-z0-9-]. *)
Definition slug_char (c : codepoint) : bool :=
  ascii_lower c || ascii_digit c || N.eqb c hyphen.

Definition starts_with_hyphen (s : pystr) : bool :=
  match s with c :: _ => N.eqb c hyphen | [] => false end.
Definition ends_with_hyphen (s : pystr) : bool :=
  starts_with_hyphen (rev s).

(** What the specification promises of a base slug. *)
Definition url_safe (s : pystr) : bool :=
  forallb slug_char s && negb (starts_with_hyphen s) && negb (ends_with_hyphen s).

(** ASCII other than the underscore. *)
Definition plain_ascii (c : codepoint) : bool :=
  is_ascii c && negb (N.eqb c underscore).

(** What [lower] leaves of ASCII text without underscores. *)
Definition lowered (c : codepoint) : Prop :=
  is_ascii c = true /\ ascii_upper c = false /\ c <> underscore.

End Slug.

(* ================================================================== *)
(** * Exceptions *)

Module Exn.

Inductive exn :=
| IntegrityError
| StaleDataError
| ValueError (msg : pystr).

(** A call returns a value or raises. *)
Inductive result (A : Type) :=
| Return (a : A)
| Raise (e : exn).
Arguments Return {A} a.
Arguments Raise {A} e.

Definition bind {A B : Type} (r : result A) (k : A -> result B) : result B :=
  match r with
  | Return a => k a
  | Raise e => Raise e
  end.

End Exn.
Import Exn.

Notation "x <- e ;; k" := (bind e (fun x => k))
  (at level 61, e at next level, right associativity).

(* ================================================================== *)
(** * The record store

    What the applications use of the relational mapping library: a table
    is the list of its committed rows, in insertion order; a commit either
    stores the row or answers [IntegrityError] when a NOT NULL or UNIQUE
    constraint rejects it; a rollback forgets the pending change.

    The constraints of the model are those the slug logic works against:
    NOT NULL of the slug and the UNIQUE columns.  The other columns that
    the classes declare NOT NULL are fields that always hold a value here.
    What an engine refuses beyond that is not part of [insert] and
    [update]: under PostgreSQL, the engine of the second variant, a text
    that is longer than its column or holds NUL, and a foreign key without
    its row.  [Columns] below states these checks, and the theorems that
    promise a commit of the second variant assume that the row passes them.
    SQLite, the engine of the first variant, enforces neither lengths nor,
    as it is configured, foreign keys. *)

Module Store.

(** What a mapped class declares: its primary key, what an INSERT fills in
    (the generated key and the column defaults, given the time of the
    statement), its NOT NULL columns and its UNIQUE columns. *)
Class Model (T : Type) := {
  pk : T -> option nat;
  on_insert : nat -> Z -> T -> T;
  not_null : T -> bool;
  unique_clash : T -> T -> bool
}.

Section Table.
Context {T : Type} `{Model T}.

(** What happens between two statements of the modelled request: time
    passes and other writers commit rows of their own. *)
Record step := { elapsed : Z; commits : list T }.

Record world := {
  rows : list T;
  next_id : nat;
  clock : Z;
  others : list step
}.

Definition same_pk (i : nat) (r : T) : bool :=
  match pk r with Some j => Nat.eqb j i | None => false end.

Definition insert (w : world) (r : T) : result (world * T) :=
  let r' := on_insert (next_id w) (clock w) r in
  if not_null r' && forallb (fun x => negb (unique_clash x r')) (rows w)
  then Return ({| rows := rows w ++ [r'];
                  next_id := S (next_id w);
                  clock := clock w;
                  others := others w |}, r')
  else Raise IntegrityError.

Definition update (w : world) (i : nat) (r : T) : result (world * T) :=
  if existsb (same_pk i) (rows w)
  then
    if not_null r
       && forallb (fun x => same_pk i x || negb (unique_clash x r)) (rows w)
    then Return ({| rows := map (fun x => if same_pk i x then r else x) (rows w);
                    next_id := next_id w;
                    clock := clock w;
                    others := others w |}, r)
    else Raise IntegrityError
  else Raise StaleDataError.

(** [db.session.add(obj); db.session.commit()]: an object without a
    primary key is new and is inserted, the others are updated.  On
    success the object is refreshed from the stored row. *)
Definition add_commit (w : world) (obj : T) : result (world * T) :=
  match pk obj with
  | None => insert w obj
  | Some i => update w i obj
  end.

(** [db.session.rollback()] as the object sees it: a new object is
    expunged and keeps its attributes, a stored one is expired and read
    again from its row. *)
Definition rollback (w : world) (obj : T) : T :=
  match pk obj with
  | None => obj
  | Some i =>
      match find (same_pk i) (rows w) with
      | Some r => r
      | None => obj
      end
  end.

(** Another writer's commit: stored when the constraints allow it. *)
Definition foreign_commit (w : world) (r : T) : world :=
  match insert w r with
  | Return (w', _) => w'
  | Raise _ => w
  end.

(** The point between two statements where the rest of the system runs. *)
Definition yield (w : world) : world :=
  match others w with
  | [] => w
  | st :: rest =>
      fold_left foreign_commit (commits st)
        {| rows := rows w;
           next_id := next_id w;
           clock := (clock w + elapsed st)%Z;
           others := rest |}
  end.

(** How many rows the table can hold once every other writer is done. *)
Definition capacity (w : world) : nat :=
  List.length (rows w)
  + list_sum (map (fun st => List.length (commits st)) (others w)).

(** [select(T).where(p)] read by [scalar] or [.first()]. *)
Definition select_first (p : T -> bool) (w : world) : option T :=
  find p (rows w).

(** No other writer is left: the sequential case. *)
Definition quiet (w : world) : Prop := others w = [].
End Table.
Arguments world T : clear implicits.
Arguments step T : clear implicits.

(** [ORDER BY key DESC] on a nullable column.  Where the rows without a
    value go depends on the engine.  SQL leaves the order among rows of
    equal key open; the listing below keeps them in insertion order, which
    an engine need not do, and nothing is stated about it. *)
Inductive nulls := nulls_first | nulls_last.

Section OrderBy.
Variable T : Type.
Variable key : T -> option Z.
Variable engine : nulls.

(** [x] has to come before [y]. *)
Definition before (x y : T) : bool :=
  match key x, key y with
  | Some a, Some b => (b <? a)%Z
  | None, Some _ => match engine with nulls_first => true | nulls_last => false end
  | Some _, None => match engine with nulls_first => false | nulls_last => true end
  | None, None => false
  end.

Fixpoint insert_desc (x : T) (l : list T) : list T :=
  match l with
  | [] => [x]
  | y :: r => if before y x then y :: insert_desc x r else x :: l
  end.

Definition order_by_desc (l : list T) : list T :=
  fold_right insert_desc [] l.

(** [x] may stand before [y]. *)
Definition may_precede (x y : T) : Prop := before y x = false.
End OrderBy.

(** A listing in which no row stands before a row with a later time. *)
Definition newest_first {T : Type} (time : T -> option Z) (l : list T) : Prop :=
  StronglySorted
    (fun x y => forall a b, time x = Some a -> time y = Some b -> (b <= a)%Z) l.

Definition opt_str_eqb (a b : option pystr) : bool :=
  match a, b with
  | Some x, Some y => PyStr.eqb x y
  | _, _ => false
  end.

(** The truth value of an optional [str]: [None] and [''] are false. *)
Definition truthy (a : option pystr) : bool :=
  match a with
  | Some (_ :: _) => true
  | _ => false
  end.

End Store.
Import Store.

(** [f"{base_slug}-{counter}"] *)
Definition suffixed (base_slug : pystr) (counter : nat) : pystr :=
  base_slug ++ py "-" ++ str_of_nat counter.

(** The slug tried at turn [k] of either variant: the base slug first, then
    the base slug with the counter. *)
Definition candidate (base_slug : pystr) (k : nat) : pystr :=
  match k with
  | O => base_slug
  | S _ => suffixed base_slug k
  end.

(** No two stored rows hold the same value in their column [col]. *)
Definition unique {T : Type} (col : T -> option pystr) (w : world T) : Prop :=
  NoDup (map col (rows w)).

(** Every stored row has a primary key of its own, below the next one. *)
Definition keyed {T : Type} `{Model T} (w : world T) : Prop :=
  NoDup (map pk (rows w))
  /\ forall r, In r (rows w) -> exists i, pk r = Some i /\ i < next_id w.

(** Some stored row holds [s] in its column [col]. *)
Definition taken {T : Type} (col : T -> option pystr) (w : world T) (s : pystr) : Prop :=
  exists r, In r (rows w) /\ col r = Some s.

(* ================================================================== *)
(** * URL parsing

    The functions of the interpreter's [urllib.parse] that the redirect
    guard calls ([urlparse] and [urljoin]), with the helpers they use, on
    [str] arguments, as the late 3.11 releases of CPython have them.  A
    parse failure is a [ValueError]. *)

Module Url.

(** Two checks of the library reach into other parts of the runtime:
    the validation of a bracketed host (an IP literal) and the NFKC
    normalisation of a netloc that is not ASCII. *)
Record runtime := {
(** [_check_bracketed_host]: the message of the [ValueError] it raises *)
bracketed_host_error : pystr -> option pystr;
(** [unicodedata.normalize('NFKC', s)] *)
nfkc : pystr -> pystr
}.

(** A runtime that accepts no bracketed host and normalises nothing; the
    functions below do not consult it on ASCII text without brackets. *)
Definition plain_runtime : runtime :=
  {| bracketed_host_error := fun _ => Some (py "invalid bracketed host");
     nfkc := fun s => s |}.

Definition colon : codepoint := 58%N.
Definition slash : codepoint := 47%N.
Definition question : codepoint := 63%N.
Definition hash : codepoint := 35%N.
Definition semicolon : codepoint := 59%N.
Definition at_sign : codepoint := 64%N.
Definition lbracket : codepoint := 91%N.
Definition rbracket : codepoint := 93%N.

Definition mem (c : codepoint) (s : pystr) : bool := existsb (N.eqb c) s.

(** [s.partition(c)] without the separator: the text before the first [c]
    and, when there is one, the text after it. *)
Fixpoint cut (c : codepoint) (s : pystr) : pystr * option pystr :=
  match s with
  | [] => ([], None)
  | d :: r =>
      if N.eqb d c then ([], Some r)
      else let '(a, b) := cut c r in (d :: a, b)
  end.

(** [s.split(c)] *)
Fixpoint split (c : codepoint) (s : pystr) : list pystr :=
  match s with
  | [] => [[]]
  | d :: r =>
      if N.eqb d c then [] :: split c r
      else match split c r with
           | seg :: segs => (d :: seg) :: segs
           | [] => [[d]]
           end
  end.

(** [c.join(parts)] *)
Fixpoint join (c : codepoint) (parts : list pystr) : pystr :=
  match parts with
  | [] => []
  | [p] => p
  | p :: rest => p ++ c :: join c rest
  end.

Definition nonempty (s : pystr) : bool :=
  match s with [] => false | _ => true end.

Definition strs_mem (s : pystr) (l : list pystr) : bool := existsb (PyStr.eqb s) l.

Definition uses_relative : list pystr :=
  [] :: map py ["ftp"; "http"; "gopher"; "nntp"; "imap"; "wais"; "file"; "https";
          "shttp"; "mms"; "prospero"; "rtsp"; "rtspu"; "sftp"; "svn"; "svn+ssh";
          "ws"; "wss"]%string.

Definition uses_netloc : list pystr :=
  [] :: map py ["ftp"; "http"; "gopher"; "nntp"; "telnet"; "imap"; "wais"; "file";
          "mms"; "https"; "shttp"; "snews"; "prospero"; "rtsp"; "rtspu"; "rsync";
          "svn"; "svn+ssh"; "sftp"; "nfs"; "git"; "git+ssh"; "ws"; "wss"]%string.

Definition uses_params : list pystr :=
  [] :: map py ["ftp"; "hdl"; "prospero"; "http"; "imap"; "https"; "shttp"; "rtsp";
          "rtspu"; "sip"; "sips"; "mms"; "sftp"; "tel"]%string.

(** Letters, digits and [+-.] *)
Definition scheme_char (c : codepoint) : bool :=
  ascii_alpha c || ascii_digit c || N.eqb c 43 || N.eqb c 45 || N.eqb c 46.

Definition ascii_lowered (s : pystr) : pystr :=
  map (fun c => if ascii_upper c then (c + 32)%N else c) s.

(** C0 controls and the space, stripped from the left of a URL. *)
Definition c0_or_space (c : codepoint) : bool := (c <=? 32)%N.
(** Tab, carriage return and line feed, removed everywhere. *)
Definition unsafe_byte (c : codepoint) : bool :=
  N.eqb c 9 || N.eqb c 13 || N.eqb c 10.

(** [_splitnetloc(url, 2)] on a [url] that starts with two slashes, given
    without them: the netloc runs to the first of [/?#]. *)
Fixpoint _splitnetloc (rest : pystr) : pystr * pystr :=
  match rest with
  | [] => ([], [])
  | c :: r =>
      if N.eqb c slash || N.eqb c question || N.eqb c hash then ([], rest)
      else let '(n, u) := _splitnetloc r in (c :: n, u)
  end.

Definition invalid_ipv6 : exn := ValueError (py "Invalid IPv6 URL").
Definition invalid_netloc (netloc : pystr) : exn :=
  ValueError (py "netloc '" ++ netloc
              ++ py "' contains invalid characters under NFKC normalization").

Record SplitResult := {
  s_scheme : pystr; s_netloc : pystr; s_path : pystr;
  s_query : pystr; s_fragment : pystr
}.

Record ParseResult := {
  scheme : pystr; netloc : pystr; path : pystr;
  params : pystr; query : pystr; fragment : pystr
}.

Section WithRuntime.
Variable R : runtime.

Definition _checknetloc (netloc : pystr) : result unit :=
  if negb (nonempty netloc) || forallb is_ascii netloc then Return tt
  else
    let n := filter (fun c => negb (N.eqb c at_sign || N.eqb c colon
                                   || N.eqb c hash || N.eqb c question)) netloc in
    let netloc2 := nfkc R n in
    if PyStr.eqb n netloc2 then Return tt
    else if existsb (fun c => mem c netloc2) [slash; question; hash; at_sign; colon]
         then Raise (invalid_netloc netloc)
         else Return tt.

Definition check_brackets (netloc : pystr) : result unit :=
  let l := mem lbracket netloc in
  let r := mem rbracket netloc in
  if (l && negb r) || (r && negb l) then Raise invalid_ipv6
  else if l && r then
    let after := match snd (cut lbracket netloc) with Some a => a | None => [] end in
    let bracketed_host := fst (cut rbracket after) in
    match bracketed_host_error R bracketed_host with
    | None => Return tt
    | Some msg => Raise (ValueError msg)
    end
  else Return tt.

Definition urlsplit (url scheme : pystr) : result SplitResult :=
  let url := lstrip c0_or_space url in
  let scheme := strip c0_or_space scheme in
  let url := filter (fun c => negb (unsafe_byte c)) url in
  let scheme := filter (fun c => negb (unsafe_byte c)) scheme in
  let '(scheme, url) :=
    match cut colon url with
    | (c :: before, Some after) =>
        if ascii_alpha c && forallb scheme_char (c :: before)
        then (ascii_lowered (c :: before), after)
        else (scheme, url)
    | _ => (scheme, url)
    end in
  r <- match url with
       | a :: b :: rest =>
           if N.eqb a slash && N.eqb b slash
           then let '(netloc, url) := _splitnetloc rest in
                _ <- check_brackets netloc ;; Return (netloc, url)
           else Return ([], url)
       | _ => Return ([], url)
       end ;;
  let '(netloc, url) := r in
  let '(url, fragment) :=
    match cut hash url with
    | (a, Some b) => (a, b)
    | (a, None) => (a, [])
    end in
  let '(url, query) :=
    match cut question url with
    | (a, Some b) => (a, b)
    | (a, None) => (a, [])
    end in
  _ <- _checknetloc netloc ;;
  Return {| s_scheme := scheme; s_netloc := netloc; s_path := url;
            s_query := query; s_fragment := fragment |}.

(** [_splitparams(url)], called on a [url] that holds a semicolon: the
    parameters start at the first semicolon of the last path segment. *)
Definition _splitparams (url : pystr) : pystr * pystr :=
  match rev (split slash url) with
  | last :: front =>
      match cut semicolon last with
      | (a, Some b) => (join slash (rev (a :: front)), b)
      | (_, None) => (url, [])
      end
  | [] => (url, [])
  end.

Definition urlparse (url scheme : pystr) : result ParseResult :=
  sp <- urlsplit url scheme ;;
  let '(url, params) :=
    if strs_mem (s_scheme sp) uses_params && mem semicolon (s_path sp)
    then _splitparams (s_path sp)
    else (s_path sp, []) in
  Return {| scheme := s_scheme sp; netloc := s_netloc sp; path := url;
            params := params; query := s_query sp; fragment := s_fragment sp |}.

Definition starts_with_slash (s : pystr) : bool :=
  match s with c :: _ => N.eqb c slash | [] => false end.
Definition starts_with_two_slashes (s : pystr) : bool :=
  match s with a :: b :: _ => N.eqb a slash && N.eqb b slash | _ => false end.

Definition urlunsplit (scheme netloc url query fragment : pystr) : pystr :=
  let url :=
    if nonempty netloc
       || (nonempty scheme && strs_mem scheme uses_netloc
           && negb (starts_with_two_slashes url))
    then
      let url := if nonempty url && negb (starts_with_slash url)
                 then slash :: url else url in
      slash :: slash :: netloc ++ url
    else url in
  let url := if nonempty scheme then scheme ++ colon :: url else url in
  let url := if nonempty query then url ++ question :: query else url in
  if nonempty fragment then url ++ hash :: fragment else url.

Definition urlunparse (p : ParseResult) : pystr :=
  let url := if nonempty (params p) then path p ++ semicolon :: params p
             else path p in
  urlunsplit (scheme p) (netloc p) url (query p) (fragment p).

(** [segments[1:-1] = filter(None, segments[1:-1])] *)
Definition drop_empty_middle (segments : list pystr) : list pystr :=
  match segments with
  | [] => []
  | first :: rest =>
      match rev rest with
      | [] => [first]
      | last :: middle => first :: filter nonempty (rev middle) ++ [last]
      end
  end.

Definition dot : pystr := py ".".
Definition dotdot : pystr := py "..".

(** The loop over the segments; [resolved_path] grows at its end. *)
Fixpoint resolve (resolved_path segments : list pystr) : list pystr :=
  match segments with
  | [] => resolved_path
  | seg :: rest =>
      if PyStr.eqb seg dotdot then resolve (removelast resolved_path) rest
      else if PyStr.eqb seg dot then resolve resolved_path rest
      else resolve (resolved_path ++ [seg]) rest
  end.

Definition urljoin (base url : pystr) : result pystr :=
  if negb (nonempty base) then Return url
  else if negb (nonempty url) then Return base
  else
    b <- urlparse base [] ;;
    u <- urlparse url (scheme b) ;;
    if negb (PyStr.eqb (scheme u) (scheme b))
       || negb (strs_mem (scheme u) uses_relative)
    then Return url
    else if strs_mem (scheme u) uses_netloc && nonempty (netloc u)
    then Return (urlunparse u)
    else
      let netloc' := if strs_mem (scheme u) uses_netloc then netloc b
                     else netloc u in
      if negb (nonempty (path u)) && negb (nonempty (params u))
      then
        Return (urlunparse
                  {| scheme := scheme u; netloc := netloc'; path := path b;
                     params := params b;
                     query := if nonempty (query u) then query u else query b;
                     fragment := fragment u |})
      else
        let base_parts := split slash (path b) in
        let base_parts :=
          if nonempty (last base_parts []) then removelast base_parts
          else base_parts in
        let segments :=
          if starts_with_slash (path u) then split slash (path u)
          else drop_empty_middle (base_parts ++ split slash (path u)) in
        let resolved_path := resolve [] segments in
        let resolved_path :=
          if strs_mem (last segments []) [dot; dotdot]
          then resolved_path ++ [[]] else resolved_path in
        let joined := join slash resolved_path in
        Return (urlunparse
                  {| scheme := scheme u; netloc := netloc';
                     path := if nonempty joined then joined else [slash];
                     params := params u; query := query u;
                     fragment := fragment u |}).
End WithRuntime.

End Url.

(* ================================================================== *)
(** * The libraries around the applications

    What the request handlers use of the web framework, the form library
    and the password hashing library.  The parts decided outside the
    repository are the fields of [externals]. *)

Module Web.

Record externals := {
  unicode : tables;
  url_runtime : Url.runtime;
(** the verdict of the email validation library: the message of its error *)
email_error : pystr -> option pystr;
(** [werkzeug.security] *)
generate_password_hash : pystr -> pystr;
check_password_hash : pystr -> pystr -> bool;
(** [slugify] of the slug library the second variant imports *)
slugify : pystr -> pystr;
(** [str(e)] of an exception raised by the store *)
str_of_exn : exn -> pystr
}.

Inductive http_method := GET | POST.

(** What a handler reads of the request: [request.method],
    [current_user.is_authenticated], [request.host_url],
    [request.args.get('next')], the verdict on the CSRF token (the
    message of its error) and the posted fields. *)
Record request := {
  method : http_method;
  is_authenticated : bool;
  host_url : pystr;
  next : option pystr;
  csrf_error : option pystr;
  posted : list (string * pystr);
  remember_me : bool
}.

(** [form.<name>.data]; a field that was not posted is empty. *)
Fixpoint field (name : string) (fields : list (string * pystr)) : pystr :=
  match fields with
  | [] => []
  | (n, v) :: rest => if String.eqb n name then v else field name rest
  end.

(** [url_for(...)] and literal targets. *)
Inductive target :=
| to_index
| to_login
| to_signup
| to_asset_view (slug : pystr)
| to_url (url : pystr).

(** What the client receives.  A rendered page is determined by its
    template, the posted fields it shows again and the errors of the
    form. *)
Inductive body :=
| Redirect (t : target)
| Render (template : string) (fields : list (string * pystr))
         (errors : list (string * pystr)).

(** A reply: the messages flashed (message, category), the user the
    session was bound to by [login_user] with its [remember] flag, and
    the body. *)
Record reply := {
  flashes : list (pystr * pystr);
  login_user : option (option nat * bool);
  sent : body
}.

Definition plain (b : body) : reply :=
  {| flashes := []; login_user := None; sent := b |}.
Definition flash (msg category : pystr) (b : body) : reply :=
  {| flashes := [(msg, category)]; login_user := None; sent := b |}.


(** Validators of the form library.  [Stop] is [StopValidation]: it ends
    the chain of its field; [Fail] is [ValidationError]: the chain goes on. *)
Inductive verdict := Pass | Fail (msg : pystr) | Stop (msg : pystr).
Definition validator := pystr -> verdict.

Fixpoint run_chain (vs : list validator) (data : pystr) : list pystr :=
  match vs with
  | [] => []
  | v :: rest =>
      match v data with
      | Pass => run_chain rest data
      | Fail m => m :: run_chain rest data
      | Stop m => [m]
      end
  end.

Definition validate_field (name : string) (vs : list validator)
           (fields : list (string * pystr)) : list (string * pystr) :=
  map (fun m => (name, m)) (run_chain vs (field name fields)).

Section Validators.
Variable E : externals.

Definition DataRequired (message : pystr) : validator :=
  fun data =>
    match strip (is_space (unicode E)) data with
    | [] => Stop message
    | _ => Pass
    end.

Definition field_required : pystr := py "This field is required.".

(** [Length(min, max)]; [max = None] is no upper bound. *)
Definition Length (min : nat) (max : option nat) (message : pystr) : validator :=
  fun data =>
    let n := List.length data in
    if Nat.leb min n && match max with Some m => Nat.leb n m | None => true end
    then Pass else Fail message.

(** [Email()] *)
Definition Email : validator :=
  fun data =>
    match email_error E data with
    | None => Pass
    | Some _ => Fail (py "Invalid email address.")
    end.

(** [EqualTo(other)] *)
Definition EqualTo (other : string) (fields : list (string * pystr)) : validator :=
  fun data =>
    if PyStr.eqb data (field other fields) then Pass
    else Fail (py "Field must be equal to " ++ py other ++ py ".").

Definition csrf_errors (req : request) : list (string * pystr) :=
  match csrf_error req with
  | None => []
  | Some m => [("csrf_token"%string, m)]
  end.

Definition is_submitted (req : request) : bool :=
  match method req with POST => true | GET => false end.
End Validators.

End Web.
Import Web.

(* ================================================================== *)
(** * The first variant: [src/anuncio] *)

Module Anuncio.

(** ** [models.py] *)

Module User.
Record t := {
  id : option nat;
  name : pystr;
  email : pystr;
  password_hash : pystr
}.

#[global] Instance model : Model t := {|
  pk := id;
  on_insert := fun i _ u =>
    {| id := Some i; name := name u; email := email u;
       password_hash := password_hash u |};
  not_null := fun _ => true;
  unique_clash := fun x u => PyStr.eqb (email x) (email u)
|}.

(** [User(name=..., email=...)] *)
Definition new (name email : pystr) : t :=
  {| id := None; name := name; email := email; password_hash := [] |}.

Section WithExternals.
Variable E : externals.

Definition set_password (self : t) (password : pystr) : t :=
  {| id := id self; name := name self; email := email self;
     password_hash := generate_password_hash E password |}.

Definition check_password (self : t) (password : pystr) : bool :=
  check_password_hash E (password_hash self) password.
End WithExternals.

Definition save (w : world t) (self : t) : result (world t * t) :=
  add_commit w self.

Definition get_by_email (w : world t) (e : pystr) : option t :=
  select_first (fun u => PyStr.eqb (email u) e) w.

Definition get_by_id (w : world t) (i : nat) : option t :=
  select_first (same_pk i) w.
End User.

Module Asset.
Record t := {
  id : option nat;
  user_id : nat;
  name : pystr;
  description : pystr;
  value : Z;
  slug : option pystr;
  timestamp : option Z
}.

Definition with_slug (self : t) (s : pystr) : t :=
  {| id := id self; user_id := user_id self; name := name self;
     description := description self; value := value self;
     slug := Some s; timestamp := timestamp self |}.

(** [slug] is unique and not null; [timestamp] defaults to the time of
    the insert. *)
#[global] Instance model : Model t := {|
  pk := id;
  on_insert := fun i now a =>
    {| id := Some i; user_id := user_id a; name := name a;
       description := description a; value := value a; slug := slug a;
       timestamp := match timestamp a with
                    | Some ts => Some ts
                    | None => Some now
                    end |};
  not_null := fun a => match slug a with Some _ => true | None => false end;
  unique_clash := fun x a => opt_str_eqb (slug x) (slug a)
|}.

(** [Asset(user_id=..., name=..., description=..., value=...)] *)
Definition new (user_id : nat) (name description : pystr) (value : Z) : t :=
  {| id := None; user_id := user_id; name := name; description := description;
     value := value; slug := None; timestamp := None |}.

Definition has_slug (s : pystr) (a : t) : bool := opt_str_eqb (slug a) (Some s).

Definition get_by_slug (w : world t) (s : pystr) : option t :=
  select_first (has_slug s) w.

(** [ORDER BY timestamp DESC]; the engine of this variant puts the rows
    without a timestamp last. *)
Definition get_all (w : world t) : list t :=
  order_by_desc timestamp nulls_last (rows w).

Section WithExternals.
Variable E : externals.

(** The [while] loop of [_generate_unique_slug]: one query per turn,
    the rest of the system running before each. *)
Fixpoint probe (fuel : nat) (w : world t) (base_slug slug : pystr)
         (counter : nat) : option (world t * pystr) :=
  match fuel with
  | O => None
  | S fuel' =>
      let w := yield w in
      match get_by_slug w slug with
      | Some _ => probe fuel' w base_slug (suffixed base_slug counter) (S counter)
      | None => Some (w, slug)
      end
  end.

Definition _generate_unique_slug (fuel : nat) (w : world t) (name : pystr)
  : option (world t * pystr) :=
  let base_slug := Slug._simple_slugify (unicode E) name in
  probe fuel w base_slug base_slug 1.

Definition save_with (fuel : nat) (w : world t) (self : t)
  : option (world t * t * result unit) :=
  match (if truthy (slug self) then Some (w, self)
         else match _generate_unique_slug fuel w (name self) with
              | Some (w, s) => Some (w, with_slug self s)
              | None => None
              end) with
  | None => None
  | Some (w, self) =>
      let w := yield w in
      match add_commit w self with
      | Return (w, stored) => Some (w, stored, Return tt)
      | Raise IntegrityError =>
          let self := rollback w self in
          match _generate_unique_slug fuel w (name self) with
          | None => None
          | Some (w, s) =>
              let self := with_slug self s in
              let w := yield w in
              match add_commit w self with
              | Return (w, stored) => Some (w, stored, Return tt)
              | Raise e => Some (w, self, Raise e)
              end
          end
      | Raise e => Some (w, self, Raise e)
      end
  end.

(** [Asset.save]: the loops are given as many turns as the table can
    ever hold rows, plus one. *)
Definition save (w : world t) (self : t) : option (world t * t * result unit) :=
  save_with (S (capacity w)) w self.
End WithExternals.
End Asset.

(** ** [forms.py] *)

Module Forms.
Section WithExternals.
Variable E : externals.

(** [LoginForm] *)
Definition login_errors (req : request) : list (string * pystr) :=
  csrf_errors req
  ++ validate_field "email" [DataRequired E field_required; Email E] (posted req)
  ++ validate_field "password" [DataRequired E field_required] (posted req).

(** [SignupForm.validate_email] *)
Definition validate_email (users : world User.t) : validator :=
  fun data =>
    match User.get_by_email users data with
    | Some _ => Fail (py "This email is already registered.")
    | None => Pass
    end.

(** [SignupForm] *)
Definition signup_errors (users : world User.t) (req : request)
  : list (string * pystr) :=
  csrf_errors req
  ++ validate_field "name" [DataRequired E field_required] (posted req)
  ++ validate_field "email"
       [DataRequired E field_required; Email E; validate_email users] (posted req)
  ++ validate_field "password" [DataRequired E field_required] (posted req)
  ++ validate_field "password2"
       [DataRequired E field_required; EqualTo "password" (posted req)]
       (posted req).

(** [form.validate_on_submit()] and the errors the form then carries. *)
Definition validate_on_submit (req : request) (errors : list (string * pystr)) : bool :=
  is_submitted req && match errors with [] => true | _ => false end.
Definition shown_errors (req : request) (errors : list (string * pystr))
  : list (string * pystr) :=
  if is_submitted req then errors else [].
End WithExternals.
End Forms.

(** ** [run.py] *)

Module Run.
Definition http : pystr := py "http".
Definition https : pystr := py "https".
Definition danger : pystr := py "danger".
Definition success : pystr := py "success".
Definition credenciales_invalidas : pystr :=
  py "Credenciales inv" ++ [225%N] ++ py "lidas".
Definition email_ya_registrado : pystr :=
  py "Este email ya est" ++ [225%N] ++ py " registrado.".
Definition registro_exitoso : pystr :=
  py "Registro exitoso. Bienvenido al sistema.".

Section WithExternals.
Variable E : externals.

Definition is_safe_url (host_url target : pystr) : result bool :=
  ref_url <- Url.urlparse (url_runtime E) host_url [] ;;
  joined <- Url.urljoin (url_runtime E) host_url target ;;
  target_url <- Url.urlparse (url_runtime E) joined [] ;;
  Return (Url.strs_mem (Url.scheme target_url) [http; https]
          && PyStr.eqb (Url.netloc ref_url) (Url.netloc target_url)).

Definition index (assets : world Asset.t) : list Asset.t :=
  Asset.get_all assets.

Definition login (users : world User.t) (req : request) : result reply :=
  if is_authenticated req then Return (plain (Redirect to_index))
  else
    let errors := Forms.login_errors E req in
    if Forms.validate_on_submit req errors then
      let user := User.get_by_email users (field "email" (posted req)) in
      match user with
      | Some u =>
          if User.check_password E u (field "password" (posted req)) then
            let bound body :=
              {| flashes := [];
                 login_user := Some (User.id u, remember_me req);
                 sent := body |} in
            match next req with
            | Some (c :: n) =>
                safe <- is_safe_url (host_url req) (c :: n) ;;
                if safe then Return (bound (Redirect (to_url (c :: n))))
                else Return (bound (Redirect to_index))
            | _ => Return (bound (Redirect to_index))
            end
          else Return (flash credenciales_invalidas danger (Redirect to_login))
      | None => Return (flash credenciales_invalidas danger (Redirect to_login))
      end
    else
      Return (plain (Render "login_form.html" (posted req)
                       (Forms.shown_errors req errors))).

Definition signup (users : world User.t) (req : request)
  : result (world User.t * reply) :=
  if is_authenticated req then Return (users, plain (Redirect to_index))
  else
    let errors := Forms.signup_errors E users req in
    if Forms.validate_on_submit req errors then
      match User.get_by_email users (field "email" (posted req)) with
      | Some _ =>
          Return (users, flash email_ya_registrado danger (Redirect to_signup))
      | None =>
          let new_user := User.new (field "name" (posted req))
                                   (field "email" (posted req)) in
          let new_user := User.set_password E new_user
                            (field "password" (posted req)) in
          saved <- User.save users new_user ;;
          let '(users, new_user) := saved in
          Return (users,
                  {| flashes := [(registro_exitoso, success)];
                     login_user := Some (User.id new_user, false);
                     sent := Redirect to_index |})
      end
    else
      Return (users, plain (Render "signup_form.html" (posted req)
                              (Forms.shown_errors req errors))).
End WithExternals.
End Run.

End Anuncio.

(* ================================================================== *)
(** * The second variant: [src/asset_manager] *)

Module AssetManager.

(** ** [models.py] *)

Module User.
Record t := {
  id : option nat;
  username : pystr;
  email : pystr;
  password_hash : pystr
}.

#[global] Instance model : Model t := {|
  pk := id;
  on_insert := fun i _ u =>
    {| id := Some i; username := username u; email := email u;
       password_hash := password_hash u |};
  not_null := fun _ => true;
  unique_clash := fun x u => PyStr.eqb (email x) (email u)
|}.

(** [User(username=..., email=...)] *)
Definition new (username email : pystr) : t :=
  {| id := None; username := username; email := email; password_hash := [] |}.

Section WithExternals.
Variable E : externals.

Definition set_password (self : t) (password : pystr) : t :=
  {| id := id self; username := username self; email := email self;
     password_hash := generate_password_hash E password |}.

Definition check_password (self : t) (password : pystr) : bool :=
  check_password_hash E (password_hash self) password.
End WithExternals.

Definition save (w : world t) (self : t) : result (world t * t) :=
  add_commit w self.

Definition get_by_id (w : world t) (i : nat) : option t :=
  select_first (same_pk i) w.

Definition get_by_email (w : world t) (e : pystr) : option t :=
  select_first (fun u => PyStr.eqb (email u) e) w.
End User.

Module Asset.
Record t := {
  id : option nat;
  user_id : nat;
  name : pystr;
  serial_number : pystr;
  description : pystr;
  slug : option pystr;
  created_at : option Z
}.

Definition with_slug (self : t) (s : pystr) : t :=
  {| id := id self; user_id := user_id self; name := name self;
     serial_number := serial_number self; description := description self;
     slug := Some s; created_at := created_at self |}.

(** [slug] and [serial_number] are unique, [slug] is not null;
    [created_at] defaults to the time of the insert. *)
#[global] Instance model : Model t := {|
  pk := id;
  on_insert := fun i now a =>
    {| id := Some i; user_id := user_id a; name := name a;
       serial_number := serial_number a; description := description a;
       slug := slug a;
       created_at := match created_at a with
                     | Some ts => Some ts
                     | None => Some now
                     end |};
  not_null := fun a => match slug a with Some _ => true | None => false end;
  unique_clash := fun x a =>
    opt_str_eqb (slug x) (slug a)
    || PyStr.eqb (serial_number x) (serial_number a)
|}.

(** [Asset(name=..., serial_number=..., description=..., user_id=...)] *)
Definition new (name serial_number description : pystr) (user_id : nat) : t :=
  {| id := None; user_id := user_id; name := name;
     serial_number := serial_number; description := description;
     slug := None; created_at := None |}.

Definition has_slug (s : pystr) (a : t) : bool := opt_str_eqb (slug a) (Some s).
Definition has_serial (s : pystr) (a : t) : bool := PyStr.eqb (serial_number a) s.

Definition get_by_slug (w : world t) (s : pystr) : option t :=
  select_first (has_slug s) w.

(** [ORDER BY created_at DESC]; the engine of this variant puts the rows
    without a value first. *)
Definition get_all (w : world t) : list t :=
  order_by_desc created_at nulls_first (rows w).

Definition serial_exists : pystr :=
  py "Serial number already exists. Please use a unique serial number.".

(** [f"{base_slug}-{counter}" if counter > 0 else base_slug] *)
Definition current_slug (base_slug : pystr) (counter : nat) : pystr :=
  if Nat.ltb 0 counter then suffixed base_slug counter else base_slug.

(** The [while True] loop of [save], one commit per turn, the rest of
    the system running before each statement. *)
Fixpoint save_loop (fuel : nat) (w : world t) (self : t) (base_slug : pystr)
         (counter : nat) : option (world t * t * result bool) :=
  match fuel with
  | O => None
  | S fuel' =>
      let self := with_slug self (current_slug base_slug counter) in
      let w := yield w in
      match add_commit w self with
      | Return (w, stored) => Some (w, stored, Return true)
      | Raise IntegrityError =>
          let self := rollback w self in
          let w := yield w in
          match select_first (has_slug (current_slug base_slug counter)) w with
          | Some _ => save_loop fuel' w self base_slug (S counter)
          | None =>
              let w := yield w in
              match select_first (has_serial (serial_number self)) w with
              | Some _ => Some (w, self, Raise (ValueError serial_exists))
              | None => Some (w, self, Raise IntegrityError)
              end
          end
      | Raise e => Some (w, self, Raise e)
      end
  end.

Section WithExternals.
Variable E : externals.

Definition save (w : world t) (self : t) : option (world t * t * result bool) :=
  let base_slug := slugify E (name self) in
  save_loop (S (capacity w)) w self base_slug 0.
End WithExternals.

(** The serial number as a column. *)
Definition serial_col (a : t) : option pystr := Some (serial_number a).

(** The table around a stored asset [self] of primary key [i]: the keys,
    the slugs and the serial numbers are those of a table with its
    indexes, and [self] is one of its rows. *)
Record stored_in (self : t) (i : nat) (w : world t) : Prop := {
  inv_keyed : keyed w;
  inv_slugs : unique slug w;
  inv_serials : unique serial_col w;
  inv_stored : In self (rows w);
  inv_pk : id self = Some i
}.
End Asset.

(** ** [forms.py] *)

Module Forms.
Section WithExternals.
Variable E : externals.

(** [validate_email_format] *)
Definition validate_email_format : validator :=
  fun data =>
    match email_error E data with
    | None => Pass
    | Some msg => Fail msg
    end.

(** [SignupForm] *)
Definition signup_errors (req : request) : list (string * pystr) :=
  csrf_errors req
  ++ validate_field "username"
       [DataRequired E (py "Username is required.");
        Length 3 (Some 80) (py "Username must be between 3 and 80 characters.")]
       (posted req)
  ++ validate_field "email"
       [DataRequired E (py "Email is required."); validate_email_format]
       (posted req)
  ++ validate_field "password"
       [DataRequired E (py "Password is required.");
        Length 6 None (py "Password must be at least 6 characters long.")]
       (posted req).

(** [LoginForm] *)
Definition login_errors (req : request) : list (string * pystr) :=
  csrf_errors req
  ++ validate_field "email" [DataRequired E (py "Email is required.")] (posted req)
  ++ validate_field "password" [DataRequired E (py "Password is required.")]
       (posted req).

Definition validate_on_submit (req : request) (errors : list (string * pystr)) : bool :=
  is_submitted req && match errors with [] => true | _ => false end.
Definition shown_errors (req : request) (errors : list (string * pystr))
  : list (string * pystr) :=
  if is_submitted req then errors else [].
End WithExternals.
End Forms.

(** ** [run.py] *)

Module Run.
Definition http : pystr := py "http".
Definition https : pystr := py "https".
Definition error : pystr := py "error".
Definition success : pystr := py "success".
Definition email_exists : pystr := py "Email address already exists. Please log in.".
Definition account_created : pystr := py "Account created successfully! Welcome.".
Definition invalid_credentials : pystr := py "Invalid email or password.".

Section WithExternals.
Variable E : externals.

Definition is_safe_url (host_url target : pystr) : result bool :=
  ref_url <- Url.urlparse (url_runtime E) host_url [] ;;
  joined <- Url.urljoin (url_runtime E) host_url target ;;
  target_url <- Url.urlparse (url_runtime E) joined [] ;;
  Return (Url.strs_mem (Url.scheme target_url) [http; https]
          && PyStr.eqb (Url.netloc ref_url) (Url.netloc target_url)).

Definition index (assets : world Asset.t) : list Asset.t :=
  Asset.get_all assets.

Definition signup (users : world User.t) (req : request)
  : result (world User.t * reply) :=
  if is_authenticated req then Return (users, plain (Redirect to_index))
  else
    let errors := Forms.signup_errors E req in
    let page flashed :=
      {| flashes := flashed; login_user := None;
         sent := Render "signup_form.html" (posted req)
                   (Forms.shown_errors req errors) |} in
    if Forms.validate_on_submit req errors then
      match User.get_by_email users (field "email" (posted req)) with
      | Some _ => Return (users, flash email_exists error (Redirect to_signup))
      | None =>
          let new_user := User.new (field "username" (posted req))
                                   (field "email" (posted req)) in
          let new_user := User.set_password E new_user
                            (field "password" (posted req)) in
          match User.save users new_user with
          | Return (users, new_user) =>
              Return (users,
                      {| flashes := [(account_created, success)];
                         login_user := Some (User.id new_user, false);
                         sent := Redirect to_index |})
          | Raise e =>
              Return (users,
                      page [(py "An error occurred during registration: "
                             ++ str_of_exn E e, error)])
          end
      end
    else Return (users, page []).

Definition login (users : world User.t) (req : request) : result reply :=
  if is_authenticated req then Return (plain (Redirect to_index))
  else
    let errors := Forms.login_errors E req in
    let page flashed :=
      {| flashes := flashed; login_user := None;
         sent := Render "login_form.html" (posted req)
                   (Forms.shown_errors req errors) |} in
    if Forms.validate_on_submit req errors then
      let user := User.get_by_email users (field "email" (posted req)) in
      match user with
      | Some u =>
          if User.check_password E u (field "password" (posted req)) then
            let bound body :=
              {| flashes := [(py "Welcome back, " ++ User.username u ++ py "!",
                              success)];
                 login_user := Some (User.id u, remember_me req);
                 sent := body |} in
            match next req with
            | Some (c :: n) =>
                safe <- is_safe_url (host_url req) (c :: n) ;;
                if safe then Return (bound (Redirect (to_url (c :: n))))
                else Return (bound (Redirect to_index))
            | _ => Return (bound (Redirect to_index))
            end
          else Return (page [(invalid_credentials, error)])
      | None => Return (page [(invalid_credentials, error)])
      end
    else Return (page []).
End WithExternals.
End Run.

End AssetManager.

(* ================================================================== *)
(** * Worked examples: the data *)

Module Sample.

(** Stand-ins for the libraries.  The Unicode tables and the URL runtime
    are the ASCII ones; the email check accepts everything; a password hash
    is the password behind a prefix; [slugify] is the normaliser of the
    first variant, which agrees with the slug library on names made of
    ASCII letters, digits and spaces. *)
Definition libraries : externals :=
  {| unicode := ascii_only;
     url_runtime := Url.plain_runtime;
     email_error := fun _ => None;
     generate_password_hash := fun p => py "plain$" ++ p;
     check_password_hash := fun h p => PyStr.eqb h (py "plain$" ++ p);
     slugify := Slug._simple_slugify ascii_only;
     str_of_exn := fun _ => py "error" |}.

Definition empty {T : Type} : world T :=
  {| rows := []; next_id := 1; clock := 1000%Z; others := [] |}.

(** ** First variant *)

Definition laptop : Anuncio.Asset.t :=
  Anuncio.Asset.new 1 (py "Laptop") (py "On the desk") 120000.

(** A row another writer commits: same display name, slug already chosen. *)
Definition rival (slug : string) : Anuncio.Asset.t :=
  Anuncio.Asset.with_slug (Anuncio.Asset.new 2 (py "Laptop") (py "Theirs") 5) (py slug).

(** Another writer takes [laptop] between the first probe and the first
    commit, and [laptop-1] between the second probe and the second commit. *)
Definition two_collisions : world Anuncio.Asset.t :=
  {| rows := []; next_id := 1; clock := 1000%Z;
     others := [ {| elapsed := 0; commits := [] |};
                 {| elapsed := 1; commits := [rival "laptop"] |};
                 {| elapsed := 0; commits := [] |};
                 {| elapsed := 0; commits := [] |};
                 {| elapsed := 1; commits := [rival "laptop-1"] |} ] |}.

(** An asset whose display name has no word character. *)
Definition punctuation : Anuncio.Asset.t :=
  Anuncio.Asset.new 1 (py "!!!") (py "Unnamed") 0.

(** ** Second variant *)

Definition desk (serial : string) : AssetManager.Asset.t :=
  AssetManager.Asset.new (py "office desk") (py serial) (py "Second floor") 1.

Definition renamed (a : AssetManager.Asset.t) (name : string) : AssetManager.Asset.t :=
  {| AssetManager.Asset.id := AssetManager.Asset.id a;
     AssetManager.Asset.user_id := AssetManager.Asset.user_id a;
     AssetManager.Asset.name := py name;
     AssetManager.Asset.serial_number := AssetManager.Asset.serial_number a;
     AssetManager.Asset.description := AssetManager.Asset.description a;
     AssetManager.Asset.slug := AssetManager.Asset.slug a;
     AssetManager.Asset.created_at := AssetManager.Asset.created_at a |}.

(** What [save] stored, or the new asset itself when it stored nothing. *)
Definition stored_by {T R : Type} (r : option (world T * T * R)) (otherwise : T) : T :=
  match r with Some (_, a, _) => a | None => otherwise end.
Definition world_after {T R : Type} (r : option (world T * T * R)) (otherwise : world T)
  : world T :=
  match r with Some (w, _, _) => w | None => otherwise end.

(** Two desks saved one after the other on an empty table, and the first
    one given another display name afterwards. *)
Definition first_desk_saved :=
  AssetManager.Asset.save libraries empty (desk "SN-1").
Definition first_desk : AssetManager.Asset.t :=
  stored_by first_desk_saved (desk "SN-1").
Definition second_desk_saved :=
  AssetManager.Asset.save libraries (world_after first_desk_saved empty) (desk "SN-2").
Definition second_desk : AssetManager.Asset.t :=
  stored_by second_desk_saved (desk "SN-2").
Definition two_desks : world AssetManager.Asset.t :=
  world_after second_desk_saved empty.
Definition desk_renamed_saved :=
  AssetManager.Asset.save libraries (world_after first_desk_saved empty)
    (renamed first_desk "meeting table").

(** The laptop and the asset without word characters, saved and saved
    again. *)
Definition laptop_saved := Anuncio.Asset.save libraries empty laptop.
Definition punctuation_saved := Anuncio.Asset.save libraries empty punctuation.
Definition punctuation_saved_again :=
  Anuncio.Asset.save libraries (world_after punctuation_saved empty)
    (stored_by punctuation_saved punctuation).

(** ** Users and requests *)

Definition example_com : pystr := py "http://example.com/".

Definition alice : Anuncio.User.t :=
  {| Anuncio.User.id := Some 1;
     Anuncio.User.name := py "Alice";
     Anuncio.User.email := py "alice@example.com";
     Anuncio.User.password_hash := py "plain$correct horse" |}.

Definition alice' : AssetManager.User.t :=
  {| AssetManager.User.id := Some 1;
     AssetManager.User.username := py "alice";
     AssetManager.User.email := py "alice@example.com";
     AssetManager.User.password_hash := py "plain$correct horse" |}.

Definition only {T : Type} (u : T) : world T :=
  {| rows := [u]; next_id := 2; clock := 1000%Z; others := [] |}.

(** A form posted by a visitor who is not logged in. *)
Definition post (fields : list (string * string)) (next : option string) : request :=
  {| method := POST;
     is_authenticated := false;
     host_url := example_com;
     next := option_map py next;
     csrf_error := None;
     posted := map (fun f => (fst f, py (snd f))) fields;
     remember_me := false |}.

Definition signup_as_alice : request :=
  post [("name", "Alice again"); ("username", "alice2");
        ("email", "alice@example.com");
        ("password", "battery staple"); ("password2", "battery staple")]%string None.

Definition login_with (password : string) (next : option string) : request :=
  post [("email", "alice@example.com"); ("password", password)]%string next.

End Sample.

(* ================================================================== *)
(** * The asset pages and the creation of an asset

    The views of [run.py] that show one asset and, in the second variant,
    create one, with [public_url] of [models.py]. *)

Module Races.

(** Another writer takes [laptop] once, between the probe and the commit
    of the asset that is being saved. *)
Definition one_collision : world Anuncio.Asset.t :=
  {| rows := []; next_id := 1; clock := 1000%Z;
     others := [ {| elapsed := 0; commits := [] |};
                 {| elapsed := 1; commits := [Sample.rival "laptop"] |} ] |}.


(** A table that holds two desks, [office-desk] and [office-desk-1], while
    another writer commits a desk under [office-desk-2] just before the
    third commit of the asset that is being saved. *)
Definition rival_desk : AssetManager.Asset.t :=
  AssetManager.Asset.with_slug
    (AssetManager.Asset.new (py "office desk") (py "SN-9") (py "Theirs") 2)
    (py "office-desk-2").
Definition crowded : world AssetManager.Asset.t :=
  {| rows := rows Sample.two_desks;
     next_id := next_id Sample.two_desks;
     clock := clock Sample.two_desks;
     others := [ {| elapsed := 0; commits := [] |};
                 {| elapsed := 0; commits := [] |};
                 {| elapsed := 0; commits := [] |};
                 {| elapsed := 0; commits := [] |};
                 {| elapsed := 1; commits := [rival_desk] |} ] |}.
Definition third_desk_saved :=
  AssetManager.Asset.save Sample.libraries crowded (Sample.desk "SN-3").

End Races.

Module SlugShape.

(** Two hyphens in a row somewhere in the text. *)
Fixpoint double_hyphen (s : pystr) : bool :=
  match s with
  | a :: ((b :: _) as rest) => (N.eqb a hyphen && N.eqb b hyphen) || double_hyphen rest
  | _ => false
  end.

(** ASCII and not an uppercase letter. *)
Definition ascii_not_upper (c : codepoint) : bool :=
  is_ascii c && negb (ascii_upper c).

(** [lower] on ASCII text, code point by code point. *)
Definition ascii_lower_cp (c : codepoint) : codepoint :=
  if ascii_upper c then (c + 32)%N else c.

End SlugShape.

Module Pages.

(** A rendered page: the status of the response, the template, and the
    title and the asset handed to the template. *)
Record page (A : Type) := {
  status : nat;
  template : string;
  title : option pystr;
  shown : option A
}.

End Pages.
Import Pages.

Module AnuncioViews.

(** The view function behind the route [/asset/<slug>/].  The route calls
    it for a slug that is not empty and holds no slash ([Columns.routed]);
    for any other text no rule matches and the application answers 404
    without calling it. *)
Definition asset_view (assets : world Anuncio.Asset.t) (slug : pystr)
  : page Anuncio.Asset.t :=
  match Anuncio.Asset.get_by_slug assets slug with
  | None =>
      {| status := 404; template := "404.html";
         title := Some (py "Not Found"); shown := None |}
  | Some asset =>
      {| status := 200; template := "asset_view.html";
         title := Some (Anuncio.Asset.name asset); shown := Some asset |}
  end.

(** [url_for('asset_view', slug=self.slug)]; without a slug the URL cannot
    be built. *)
Definition public_url (self : Anuncio.Asset.t) : option target :=
  option_map to_asset_view (Anuncio.Asset.slug self).

End AnuncioViews.

Module AssetManagerViews.

(** [page_not_found], the handler of [abort(404)] *)
Definition page_not_found : page AssetManager.Asset.t :=
  {| status := 404; template := "404.html"; title := None; shown := None |}.

(** The view function behind the route [/asset/<slug>/], called for a slug
    that is not empty and holds no slash ([Columns.routed]). *)
Definition asset_view (assets : world AssetManager.Asset.t) (slug : pystr)
  : page AssetManager.Asset.t :=
  match AssetManager.Asset.get_by_slug assets slug with
  | None => page_not_found
  | Some asset =>
      {| status := 200; template := "asset_view.html";
         title := None; shown := Some asset |}
  end.

Definition public_url (self : AssetManager.Asset.t) : option target :=
  option_map to_asset_view (AssetManager.Asset.slug self).

Definition asset_created : pystr := py "Asset created successfully!".
Definition maybe_duplicate : pystr :=
  py "Error: The asset name (for slug) or serial number might be a duplicate.".

Section WithExternals.
Variable E : externals.
(** [str(e)] of the error [url_for] raises when it cannot build the URL *)
Variable build_error : pystr.

(** [AssetForm] of [forms.py] *)
Definition asset_form_errors (req : request) : list (string * pystr) :=
  csrf_errors req
  ++ validate_field "name"
       [DataRequired E (py "Name is required.");
        Length 5 (Some 100) (py "Name must be 5-100 characters.")]
       (posted req)
  ++ validate_field "serial_number"
       [DataRequired E (py "Serial number is required.");
        Length 0 (Some 50) (py "Serial number cannot exceed 50 characters.")]
       (posted req)
  ++ validate_field "description"
       [DataRequired E (py "Description is required.");
        Length 10 None (py "Description must be at least 10 characters.")]
       (posted req).

(** [create_asset], the view behind [login_required], for the logged-in
    user [current_user_id]. *)
Definition create_asset (assets : world AssetManager.Asset.t) (req : request)
           (current_user_id : nat) : option (world AssetManager.Asset.t * reply) :=
  let errors := asset_form_errors req in
  let form_again w flashed :=
    Some (w, {| flashes := flashed; login_user := None;
                sent := Render "admin/asset_form.html" (posted req)
                          (AssetManager.Forms.shown_errors req errors) |}) in
  if AssetManager.Forms.validate_on_submit req errors then
    let new_asset :=
      AssetManager.Asset.new (field "name" (posted req))
                             (field "serial_number" (posted req))
                             (field "description" (posted req))
                             current_user_id in
    match AssetManager.Asset.save E assets new_asset with
    | None => None
    | Some (w, saved, Return _) =>
        match AssetManager.Asset.slug saved with
        | Some slug =>
            Some (w, {| flashes := [(asset_created, AssetManager.Run.success)];
                        login_user := None;
                        sent := Redirect (to_asset_view slug) |})
        | None =>
            form_again w
              [(asset_created, AssetManager.Run.success);
               (py "An unexpected error occurred: " ++ build_error,
                AssetManager.Run.error)]
        end
    | Some (w, _, Raise IntegrityError) =>
        form_again w [(maybe_duplicate, AssetManager.Run.error)]
    | Some (w, _, Raise (ValueError msg)) =>
        form_again w [(py "Error: " ++ msg, AssetManager.Run.error)]
    | Some (w, _, Raise e) =>
        form_again w [(py "An unexpected error occurred: " ++ str_of_exn E e,
                       AssetManager.Run.error)]
    end
  else form_again assets [].

(** [form.validate_on_submit()] for the asset form, and the page that shows
    the form again. *)
Definition valid (req : request) : bool :=
  AssetManager.Forms.validate_on_submit req (asset_form_errors req).
Definition form_page (req : request) : body :=
  Render "admin/asset_form.html" (posted req)
    (AssetManager.Forms.shown_errors req (asset_form_errors req)).
End WithExternals.

End AssetManagerViews.

Module Requests.

(** The asset form of the second variant, posted by a logged-in user. *)
Definition asset_form (name serial description : string) : request :=
  {| method := POST;
     is_authenticated := true;
     host_url := Sample.example_com;
     next := None;
     csrf_error := None;
     posted := [("name"%string, py name); ("serial_number"%string, py serial);
                ("description"%string, py description)];
     remember_me := false |}.


(** A visitor who is not registered yet signs up, then logs in. *)
Definition signup_as_bob : request :=
  Sample.post [("name", "Bob"); ("username", "bob"); ("email", "bob@example.com");
               ("password", "hunter22"); ("password2", "hunter22")]%string None.
Definition login_as_bob : request :=
  Sample.post [("email", "bob@example.com"); ("password", "hunter22")]%string None.

(** The email of a user as a column. *)
Definition anuncio_email (u : Anuncio.User.t) : option pystr :=
  Some (Anuncio.User.email u).
Definition am_email (u : AssetManager.User.t) : option pystr :=
  Some (AssetManager.User.email u).


End Requests.

(* ================================================================== *)
(** * The columns of the second variant

    What PostgreSQL checks of a row beyond the constraints of the store
    model, read off the column declarations of [asset_manager/models.py],
    and what the rule [/asset/<slug>/] of both [run.py] takes for a slug. *)

Module Columns.

(** A code point of a text the engine stores: not NUL, and one that UTF-8
    encodes. *)
Definition text_char (c : codepoint) : bool :=
  negb (N.eqb c 0) && negb (in_range 55296 57343 c) && (c <=? 1114111)%N.

(** [db.Text] *)
Definition Text (s : pystr) : bool := forallb text_char s.

(** [db.String(n)] *)
Definition varchar (n : nat) (s : pystr) : bool :=
  Nat.leb (List.length s) n && Text s.

(** [Asset.name], [Asset.serial_number] and [Asset.description] *)
Definition asset_fits (a : AssetManager.Asset.t) : bool :=
  varchar 120 (AssetManager.Asset.name a)
  && varchar 120 (AssetManager.Asset.serial_number a)
  && Text (AssetManager.Asset.description a).

(** [Asset.slug], for the candidates of a base slug up to a counter. *)
Definition slugs_fit (base_slug : pystr) (upto : nat) : bool :=
  forallb (fun k => varchar 150 (candidate base_slug k)) (seq 0 (S upto)).

(** [db.ForeignKey('user.id')]: the owner is a stored user. *)
Definition owner_stored (users : world AssetManager.User.t) (user_id : nat) : bool :=
  match AssetManager.User.get_by_id users user_id with
  | Some _ => true
  | None => false
  end.

(** [User.username], [User.email] and [User.password_hash] *)
Definition user_fits (u : AssetManager.User.t) : bool :=
  varchar 80 (AssetManager.User.username u)
  && varchar 120 (AssetManager.User.email u)
  && varchar 256 (AssetManager.User.password_hash u).

(** The rule [/asset/<slug>/]: its converter takes a text that is not empty
    and holds no slash. *)
Definition routed (slug : pystr) : bool :=
  Url.nonempty slug && negb (Url.mem Url.slash slug).

End Columns.

(* ================================================================== *)
(** * Facts about Python strings *)

Lemma pystr_eqb_spec (s t : pystr) : reflect (s = t) (PyStr.eqb s t).
Proof.
  revert t; induction s as [|c s IH]; intros [|d t]; simpl;
    try (constructor; congruence).
  destruct (N.eqb_spec c d) as [->|Hne]; simpl.
  - destruct (IH t) as [->|Hne]; constructor; congruence.
  - constructor; congruence.
Qed.

Lemma pystr_eqb_eq (s t : pystr) : PyStr.eqb s t = true <-> s = t.
Proof. destruct (pystr_eqb_spec s t); split; congruence. Qed.

Lemma pystr_eqb_refl (s : pystr) : PyStr.eqb s s = true.
Proof. now apply pystr_eqb_eq. Qed.

Lemma pystr_eqb_neq (s t : pystr) : PyStr.eqb s t = false <-> s <> t.
Proof. destruct (pystr_eqb_spec s t); split; congruence. Qed.

Lemma opt_str_eqb_eq (a : option pystr) (s : pystr) :
  opt_str_eqb a (Some s) = true <-> a = Some s.
Proof.
  destruct a as [x|]; simpl; [rewrite pystr_eqb_eq|]; split; congruence.
Qed.

Lemma N_of_ascii_inj (a b : ascii) : N_of_ascii a = N_of_ascii b -> a = b.
Proof.
  intros Heq. rewrite <- (ascii_N_embedding a), <- (ascii_N_embedding b).
  now rewrite Heq.
Qed.

Lemma py_inj (s t : string) : py s = py t -> s = t.
Proof.
  revert t; induction s as [|a s IH]; intros [|b t]; simpl; try congruence.
  intros Heq; injection Heq as Hc Hr.
  f_equal; [now apply N_of_ascii_inj | now apply IH].
Qed.

Lemma str_of_nat_inj (n m : nat) : str_of_nat n = str_of_nat m -> n = m.
Proof.
  unfold str_of_nat; intros Heq.
  apply py_inj in Heq.
  apply Unsigned.to_uint_inj.
  assert (Hs : Some (Nat.to_uint n) = Some (Nat.to_uint m)).
  { rewrite <- !NilEmpty.usu. now rewrite Heq. }
  congruence.
Qed.

Lemma suffixed_inj (base : pystr) (n m : nat) :
  suffixed base n = suffixed base m -> n = m.
Proof.
  unfold suffixed; intros Heq.
  apply app_inv_head in Heq. apply app_inv_head in Heq.
  now apply str_of_nat_inj.
Qed.

Lemma suffixed_neq_base (base : pystr) (n : nat) : suffixed base n <> base.
Proof.
  unfold suffixed; intros Heq.
  apply (f_equal (@List.length _)) in Heq.
  rewrite !length_app in Heq. simpl in Heq. lia.
Qed.

(** The first suffix either variant forms. *)
Lemma suffixed_one (base : pystr) : suffixed base 1 = base ++ py "-1".
Proof. reflexivity. Qed.


(* ================================================================== *)
(** * The slug normaliser *)

Section StripFacts.
Variable p : codepoint -> bool.

Lemma lstrip_head (s : pystr) :
  match lstrip p s with c :: _ => p c = false | [] => True end.
Proof.
  induction s as [|c s IH]; simpl; [exact I|].
  destruct (p c) eqn:Hc; [exact IH | exact Hc].
Qed.

Lemma rstrip_last (s : pystr) :
  match rev (rstrip p s) with c :: _ => p c = false | [] => True end.
Proof.
  induction s as [|c s IH]; simpl; [exact I|].
  destruct (rstrip p s) as [|d r'] eqn:Hr.
  - destruct (p c) eqn:Hc; simpl; [exact I | exact Hc].
  - change (rev (c :: d :: r')) with (rev (d :: r') ++ [c]).
    destruct (rev (d :: r')) as [|e t] eqn:Hrev; [|exact IH].
    apply (f_equal (@List.length _)) in Hrev.
    rewrite length_rev in Hrev. discriminate.
Qed.

Lemma rstrip_head (s : pystr) (c : codepoint) (r : pystr) :
  rstrip p s = c :: r -> exists r', s = c :: r'.
Proof.
  destruct s as [|d s']; simpl; [discriminate|].
  destruct (rstrip p s') as [|e t].
  - destruct (p d); [discriminate|]. intros [= -> _]. now eexists.
  - intros [= -> _]. now eexists.
Qed.

Lemma lstrip_Forall (P : codepoint -> Prop) (s : pystr) :
  Forall P s -> Forall P (lstrip p s).
Proof.
  induction 1 as [|c s Hc Hs IH]; simpl; [constructor|].
  destruct (p c); [exact IH | now constructor].
Qed.

Lemma rstrip_Forall (P : codepoint -> Prop) (s : pystr) :
  Forall P s -> Forall P (rstrip p s).
Proof.
  induction 1 as [|c s Hc Hs IH]; simpl; [constructor|].
  destruct (rstrip p s) as [|d r'].
  - destruct (p c); now repeat constructor.
  - now constructor.
Qed.

Lemma strip_Forall (P : codepoint -> Prop) (s : pystr) :
  Forall P s -> Forall P (strip p s).
Proof. intros; now apply rstrip_Forall, lstrip_Forall. Qed.

(** A stripped text neither starts nor ends with a stripped character. *)
Lemma strip_edges (s : pystr) :
  match strip p s with c :: _ => p c = false | [] => True end
  /\ match rev (strip p s) with c :: _ => p c = false | [] => True end.
Proof.
  unfold strip; split; [|apply rstrip_last].
  destruct (rstrip p (lstrip p s)) as [|c r] eqn:Hr; [exact I|].
  apply rstrip_head in Hr as [r' Hr].
  pose proof (lstrip_head s) as Hh. now rewrite Hr in Hh.
Qed.
End StripFacts.

(** Comparisons of code points, decided case by case. *)
Ltac ranges :=
  unfold Slug.slug_char, Slug.plain_ascii, Slug.kept, Slug.separator, Slug.is_hyphen,
    is_word, is_space, ascii_alpha, ascii_upper, ascii_lower, ascii_digit,
    in_range, is_ascii, hyphen, underscore in *;
  repeat match goal with
         | H : context [N.leb ?a ?b] |- _ => destruct (N.leb_spec a b)
         | H : context [N.ltb ?a ?b] |- _ => destruct (N.ltb_spec a b)
         | H : context [N.eqb ?a ?b] |- _ => destruct (N.eqb_spec a b)
         | |- context [N.leb ?a ?b] => destruct (N.leb_spec a b)
         | |- context [N.ltb ?a ?b] => destruct (N.ltb_spec a b)
         | |- context [N.eqb ?a ?b] => destruct (N.eqb_spec a b)
         end;
  simpl in *; try congruence; try lia.

Section SlugFacts.
Variable U : tables.

Lemma lower_cp_plain (before after : pystr) (c : codepoint) :
  Slug.plain_ascii c = true -> Forall Slug.lowered (lower_cp U before c after).
Proof.
  intros Hc. unfold lower_cp.
  destruct (ascii_upper c) eqn:Hu.
  - repeat constructor; ranges.
  - assert (Ha : is_ascii c = true) by ranges.
    rewrite Ha. repeat constructor; trivial; ranges.
Qed.

Lemma lower_from_plain (s before : pystr) :
  forallb Slug.plain_ascii s = true -> Forall Slug.lowered (lower_from U before s).
Proof.
  revert before; induction s as [|c s IH]; intros before; simpl; [constructor|].
  intros Hs. apply andb_prop in Hs as [Hc Hs].
  apply Forall_app; split; [now apply lower_cp_plain | now apply IH].
Qed.

Lemma drop_unwanted_kept (text : pystr) :
  Forall (fun c => Slug.kept U c = true) (Slug.drop_unwanted U text).
Proof.
  apply Forall_forall. intros c Hc.
  now apply filter_In in Hc.
Qed.

Lemma drop_unwanted_Forall (P : codepoint -> Prop) (text : pystr) :
  Forall P text -> Forall P (Slug.drop_unwanted U text).
Proof.
  rewrite !Forall_forall. intros HP c Hc.
  apply filter_In in Hc. now apply HP.
Qed.

(** After the runs are collapsed only hyphens and word characters remain. *)
Lemma collapse_word_or_hyphen (text : pystr) (in_run : bool) :
  Forall (fun c => Slug.kept U c = true) text ->
  Forall (fun c => Slug.is_hyphen c || is_word U c = true) (Slug.collapse U in_run text).
Proof.
  intros Hk; revert in_run; induction Hk as [|c text Hc Hk IH]; intros in_run;
    simpl; [constructor|].
  destruct (Slug.separator U c) eqn:Hsep.
  - destruct in_run; [apply IH | constructor; [reflexivity | apply IH]].
  - constructor; [|apply IH].
    unfold Slug.kept, Slug.separator, Slug.is_hyphen in *.
    destruct (N.eqb c hyphen), (is_word U c), (is_space U c);
      simpl in *; congruence.
Qed.

Lemma collapse_slug_char (text : pystr) (in_run : bool) :
  Forall (fun c => Slug.kept U c = true) text ->
  Forall Slug.lowered text ->
  Forall (fun c => Slug.slug_char c = true) (Slug.collapse U in_run text).
Proof.
  intros Hk; revert in_run; induction Hk as [|c text Hc Hk IH]; intros in_run Hl;
    simpl; [constructor|].
  inversion Hl as [|? ? [Ha [Hu Hn]] Hl']; subst.
  destruct (Slug.separator U c) eqn:Hsep.
  - destruct in_run; [now apply IH | constructor; [reflexivity | now apply IH]].
  - constructor; [|now apply IH].
    clear IH Hk Hl Hl'. ranges.
Qed.
End SlugFacts.

(** X21.  What the normaliser does give.  For every display name the base
    slug neither starts nor ends with a hyphen and holds only hyphens and
    the characters of the class [\w] (letters and digits of any script, and
    the underscore).  When the display name is ASCII without underscores, the
    base slug is lowercase, holds only [a-z0-9-] and has no leading or
    trailing hyphen. *)
Theorem simple_slugify_alphabet (U : tables) (name : pystr) :
  Slug.starts_with_hyphen (Slug._simple_slugify U name) = false
  /\ Slug.ends_with_hyphen (Slug._simple_slugify U name) = false
  /\ forallb (fun c => Slug.is_hyphen c || is_word U c) (Slug._simple_slugify U name) = true
  /\ (forallb Slug.plain_ascii name = true ->
      Slug.url_safe (Slug._simple_slugify U name) = true).
Proof.
  unfold Slug._simple_slugify.
  set (text := Slug.collapse U false (Slug.drop_unwanted U (lower U name))).
  destruct (strip_edges Slug.is_hyphen text) as [Hhead Hlast].
  assert (Hs : Slug.starts_with_hyphen (strip Slug.is_hyphen text) = false).
  { unfold Slug.starts_with_hyphen.
    destruct (strip Slug.is_hyphen text); [reflexivity | exact Hhead]. }
  assert (He : Slug.ends_with_hyphen (strip Slug.is_hyphen text) = false).
  { unfold Slug.ends_with_hyphen, Slug.starts_with_hyphen.
    destruct (rev (strip Slug.is_hyphen text)); [reflexivity | exact Hlast]. }
  repeat split; trivial.
  - apply forallb_forall. apply Forall_forall.
    apply strip_Forall, collapse_word_or_hyphen, drop_unwanted_kept.
  - intros Hplain. unfold Slug.url_safe. rewrite Hs, He, !andb_true_r.
    apply forallb_forall. apply Forall_forall.
    apply strip_Forall, collapse_slug_char.
    + apply drop_unwanted_kept.
    + apply drop_unwanted_Forall. now apply lower_from_plain.
Qed.

Lemma simple_slugify_alphabet_witness :
  Slug.url_safe
    (Slug._simple_slugify ascii_only (py "  Hello,  World -- 42! ")) = true.
Proof.
  apply (proj2 (proj2 (proj2
           (simple_slugify_alphabet ascii_only (py "  Hello,  World -- 42! "))))).
  reflexivity.
Defined.

(** C1 at its failing input: the display name [a_b].  The docstring of
    [_simple_slugify] promises lowercase letters and hyphens only, but the
    pattern [[^\w\s-]] keeps the underscore: the base slug is [a_b],
    whatever the Unicode tables, and the underscore is outside [a-z0-9-]. *)
Lemma simple_slugify_keeps_underscore :
  (forall U : tables, Slug._simple_slugify U (py "a_b") = py "a_b")
  /\ Slug.url_safe (py "a_b") = false.
Proof. split; [intros U|]; reflexivity. Qed.

(** A letter outside ASCII stays as well, as soon as the tables know it as a
    lowercase letter. *)
Lemma simple_slugify_keeps_letters (U : tables) (c : codepoint) :
  is_ascii c = false ->
  alnum_ext U c = true ->
  space_ext U c = false ->
  lower_ext U [] c [] = [c] ->
  Slug._simple_slugify U [c] = [c] /\ Slug.url_safe [c] = false.
Proof.
  intros Ha Hw Hsp Hl.
  assert (Hu : ascii_upper c = false) by ranges.
  assert (Hh : N.eqb c hyphen = false) by ranges.
  assert (Hword : is_word U c = true) by (unfold is_word; now rewrite Ha).
  assert (Hspace : is_space U c = false) by (unfold is_space; now rewrite Ha).
  split.
  - unfold Slug._simple_slugify, lower; simpl.
    unfold lower_cp. rewrite Hu, Ha, Hl. simpl.
    unfold Slug.kept. rewrite Hword. simpl.
    unfold Slug.separator. rewrite Hh, Hspace. simpl.
    unfold strip, Slug.is_hyphen; simpl. rewrite Hh; simpl. now rewrite Hh.
  - assert (Hc : Slug.slug_char c = false) by (clear - Ha; ranges).
    unfold Slug.url_safe; simpl. now rewrite Hc.
Qed.

(* ================================================================== *)
(** * The record store: what the other writers can and cannot do *)

Section StoreFacts.
Context {T : Type} `{Model T}.

Lemma insert_inv (w w' : world T) (r r' : T) :
  insert w r = Return (w', r') ->
  r' = on_insert (next_id w) (clock w) r
  /\ rows w' = rows w ++ [r']
  /\ next_id w' = S (next_id w)
  /\ others w' = others w
  /\ not_null r' = true
  /\ forallb (fun x => negb (unique_clash x r')) (rows w) = true.
Proof.
  unfold insert.
  destruct (not_null _ && forallb _ _) eqn:Hok; [|discriminate].
  intros [= <- <-]. apply andb_prop in Hok as [Hn Hu]. simpl. tauto.
Qed.

Lemma insert_raises (w : world T) (r : T) (e : exn) :
  insert w r = Raise e -> e = IntegrityError.
Proof.
  unfold insert. destruct (not_null _ && forallb _ _); congruence.
Qed.

Lemma foreign_commit_others (w : world T) (r : T) :
  others (foreign_commit w r) = others w.
Proof.
  unfold foreign_commit.
  destruct (insert w r) as [[w' r']|e] eqn:Hi; [|reflexivity].
  now apply insert_inv in Hi.
Qed.

Lemma foreign_commit_incl (w : world T) (r : T) :
  incl (rows w) (rows (foreign_commit w r)).
Proof.
  unfold foreign_commit.
  destruct (insert w r) as [[w' r']|e] eqn:Hi; [|apply incl_refl].
  apply insert_inv in Hi as (_ & -> & _). apply incl_appl, incl_refl.
Qed.

Lemma foreign_commit_length (w : world T) (r : T) :
  List.length (rows (foreign_commit w r)) <= S (List.length (rows w)).
Proof.
  unfold foreign_commit.
  destruct (insert w r) as [[w' r']|e] eqn:Hi; [|lia].
  apply insert_inv in Hi as (_ & -> & _). rewrite length_app; simpl; lia.
Qed.

Lemma foreign_commits_incl (l : list T) (w : world T) :
  incl (rows w) (rows (fold_left foreign_commit l w)).
Proof.
  revert w; induction l as [|r l IH]; intros w; simpl; [apply incl_refl|].
  eapply incl_tran; [apply foreign_commit_incl | apply IH].
Qed.

Lemma foreign_commits_others (l : list T) (w : world T) :
  others (fold_left foreign_commit l w) = others w.
Proof.
  revert w; induction l as [|r l IH]; intros w; simpl; [reflexivity|].
  now rewrite IH, foreign_commit_others.
Qed.

Lemma foreign_commits_length (l : list T) (w : world T) :
  List.length (rows (fold_left foreign_commit l w))
  <= List.length (rows w) + List.length l.
Proof.
  revert w; induction l as [|r l IH]; intros w; simpl; [lia|].
  specialize (IH (foreign_commit w r)).
  pose proof (foreign_commit_length w r). lia.
Qed.

(** Rows are never lost while the rest of the system runs. *)
Lemma yield_incl (w : world T) : incl (rows w) (rows (yield w)).
Proof.
  unfold yield. destruct (others w) as [|st rest]; [apply incl_refl|].
  apply (foreign_commits_incl (commits st)
           {| rows := rows w; next_id := next_id w;
              clock := (clock w + elapsed st)%Z; others := rest |}).
Qed.

(** The other writers only use up what was counted for them. *)
Lemma yield_capacity (w : world T) : capacity (yield w) <= capacity w.
Proof.
  unfold yield, capacity. destruct (others w) as [|st rest] eqn:Ho.
  { rewrite Ho; simpl; lia. }
  rewrite foreign_commits_others. simpl.
  pose proof (foreign_commits_length (commits st)
                {| rows := rows w; next_id := next_id w;
                   clock := (clock w + elapsed st)%Z; others := rest |}) as Hl.
  simpl in Hl. lia.
Qed.

Lemma yield_quiet (w : world T) : quiet w -> yield w = w.
Proof. unfold quiet, yield. now intros ->. Qed.

Lemma rows_le_capacity (w : world T) : List.length (rows w) <= capacity w.
Proof. unfold capacity; lia. Qed.

Lemma select_first_none (p : T -> bool) (w : world T) :
  select_first p w = None <-> forall r, In r (rows w) -> p r = false.
Proof.
  unfold select_first; split.
  - intros Hn r Hr. now apply (find_none _ _ Hn).
  - intros Hall. destruct (find p (rows w)) as [r|] eqn:Hf; [|reflexivity].
    apply find_some in Hf as [Hin Hp]. rewrite (Hall r Hin) in Hp. discriminate.
Qed.

Lemma select_first_some (p : T -> bool) (w : world T) (r : T) :
  select_first p w = Some r -> In r (rows w) /\ p r = true.
Proof. apply find_some. Qed.

Lemma select_first_found (p : T -> bool) (w : world T) (r : T) :
  In r (rows w) -> p r = true -> exists r', select_first p w = Some r'.
Proof.
  intros Hin Hp. unfold select_first.
  destruct (find p (rows w)) as [r'|] eqn:Hf; [now eexists|].
  rewrite (find_none _ _ Hf r Hin) in Hp. discriminate.
Qed.
End StoreFacts.

(* ================================================================== *)
(** * The candidates of a base slug *)

Lemma candidate_inj (base : pystr) (j k : nat) :
  candidate base j = candidate base k -> j = k.
Proof.
  destruct j as [|j], k as [|k]; simpl; intros Heq; trivial.
  - symmetry in Heq. now apply suffixed_neq_base in Heq.
  - now apply suffixed_neq_base in Heq.
  - now apply suffixed_inj in Heq.
Qed.


Lemma current_slug_candidate (base : pystr) (k : nat) :
  AssetManager.Asset.current_slug base k = candidate base k.
Proof. now destruct k. Qed.

Section Pigeonhole.
Context {T : Type} `{Model T}.
Variable col : T -> option pystr.

Lemma taken_incl (w w' : world T) (s : pystr) :
  incl (rows w) (rows w') -> taken col w s -> taken col w' s.
Proof. intros Hi (r & Hr & Hs). exists r; split; [now apply Hi | exact Hs]. Qed.

Lemma taken_yield (w : world T) (s : pystr) :
  taken col w s -> taken col (yield w) s.
Proof. apply taken_incl, yield_incl. Qed.

(** Distinct candidates need distinct rows: a table cannot hold more
    candidates than it has rows. *)
Lemma candidates_bounded (w : world T) (base : pystr) (k : nat) :
  (forall j, j < k -> taken col w (candidate base j)) ->
  k <= List.length (rows w).
Proof.
  intros Ht.
  set (L := map (fun j => Some (candidate base j)) (seq 0 k)).
  assert (Hnd : NoDup L).
  { apply Finite.Injective_map_NoDup; [|apply seq_NoDup].
    intros i j [= Heq]. now apply candidate_inj in Heq. }
  assert (Hincl : incl L (map col (rows w))).
  { intros x Hx. apply in_map_iff in Hx as (j & <- & Hj).
    apply in_seq in Hj. destruct (Ht j) as (r & Hr & Hs); [lia|].
    rewrite <- Hs. now apply in_map. }
  pose proof (NoDup_incl_length Hnd Hincl) as Hlen.
  unfold L in Hlen. now rewrite !length_map, length_seq in Hlen.
Qed.
End Pigeonhole.

(* ================================================================== *)
(** * First variant: the probe loop and [save] *)

Section AnuncioSlugs.
Import Anuncio.

Lemma anuncio_has_slug_eq (s : pystr) (a : Asset.t) :
  Asset.has_slug s a = true <-> Asset.slug a = Some s.
Proof. apply opt_str_eqb_eq. Qed.

Lemma anuncio_get_by_slug_some (w : world Asset.t) (s : pystr) (a : Asset.t) :
  Asset.get_by_slug w s = Some a -> taken Asset.slug w s.
Proof.
  intros Hg. apply select_first_some in Hg as [Hin Hs].
  exists a; split; [exact Hin | now apply anuncio_has_slug_eq].
Qed.

Lemma anuncio_get_by_slug_none (w : world Asset.t) (s : pystr) :
  Asset.get_by_slug w s = None <-> ~ taken Asset.slug w s.
Proof.
  unfold Asset.get_by_slug. rewrite select_first_none. split.
  - intros Hall (a & Hin & Hs). apply anuncio_has_slug_eq in Hs.
    rewrite (Hall a Hin) in Hs. discriminate.
  - intros Hnt a Hin. destruct (Asset.has_slug s a) eqn:Hs; [|reflexivity].
    exfalso. apply Hnt. exists a; split; [exact Hin | now apply anuncio_has_slug_eq].
Qed.

(** The probe loop, started at candidate [k] with the candidates before it
    taken, ends within the fuel that the capacity of the table allows, on
    the first candidate that is free when it is probed. *)
Lemma anuncio_probe_finds (fuel : nat) :
  forall (w : world Asset.t) (base : pystr) (k : nat),
    (forall j, j < k -> taken Asset.slug w (candidate base j)) ->
    capacity w < fuel + k ->
    exists w' k',
      Asset.probe fuel w base (candidate base k) (S k) = Some (w', candidate base k')
      /\ k <= k'
      /\ (forall j, j < k' -> taken Asset.slug w' (candidate base j))
      /\ ~ taken Asset.slug w' (candidate base k')
      /\ incl (rows w) (rows w')
      /\ capacity w' <= capacity w
      /\ (quiet w -> w' = w).
Proof.
  induction fuel as [|fuel IH]; intros w base k Hbefore Hfuel.
  - pose proof (@candidates_bounded _ Asset.slug w base k Hbefore).
    pose proof (rows_le_capacity w). lia.
  - simpl.
    destruct (Asset.get_by_slug (yield w) (candidate base k)) as [a|] eqn:Hg.
    + destruct (IH (yield w) base (S k)) as (w' & k' & Hp & Hk & Hb & Hfree & Hi & Hc & Hq).
      * intros j Hj. destruct (Nat.eq_dec j k) as [->|Hne].
        -- eapply anuncio_get_by_slug_some; eassumption.
        -- apply taken_yield, Hbefore. lia.
      * pose proof (yield_capacity w). lia.
      * exists w', k'. repeat split; trivial; try lia.
        -- eapply incl_tran; [apply yield_incl | exact Hi].
        -- pose proof (yield_capacity w). lia.
        -- intros Hquiet. rewrite (yield_quiet Hquiet) in Hq. now apply Hq.
    + exists (yield w), k. repeat split; trivial.
      * intros j Hj. now apply taken_yield, Hbefore.
      * now apply anuncio_get_by_slug_none.
      * apply yield_incl.
      * apply yield_capacity.
      * apply yield_quiet.
Qed.

(** [_generate_unique_slug] always answers, with the first candidate of the
    name that is free when it is probed. *)
Lemma anuncio_generate_unique_slug (E : externals) (w : world Asset.t)
      (name : pystr) (fuel : nat) :
  capacity w < fuel ->
  exists w' k,
    Asset._generate_unique_slug E fuel w name
    = Some (w', candidate (Slug._simple_slugify (unicode E) name) k)
    /\ (forall j, j < k ->
          taken Asset.slug w' (candidate (Slug._simple_slugify (unicode E) name) j))
    /\ ~ taken Asset.slug w' (candidate (Slug._simple_slugify (unicode E) name) k)
    /\ incl (rows w) (rows w')
    /\ capacity w' <= capacity w
    /\ (quiet w -> w' = w).
Proof.
  intros Hfuel. unfold Asset._generate_unique_slug.
  destruct (@anuncio_probe_finds fuel w (Slug._simple_slugify (unicode E) name) 0)
    as (w' & k & Hp & _ & Hrest); [intros j Hj; lia | lia |].
  exists w', k. split; [exact Hp | exact Hrest].
Qed.
End AnuncioSlugs.

Section AnuncioSave.
Import Anuncio.

Lemma anuncio_insert_free (w : world Asset.t) (self : Asset.t) (s : pystr) :
  Asset.slug self = Some s ->
  ~ taken Asset.slug w s ->
  exists w' stored,
    insert w self = Return (w', stored)
    /\ Asset.slug stored = Some s
    /\ Asset.name stored = Asset.name self
    /\ rows w' = rows w ++ [stored]
    /\ others w' = others w.
Proof.
  intros Hs Hfree. unfold insert.
  set (r' := on_insert (next_id w) (clock w) self).
  assert (Hslug : Asset.slug r' = Some s) by exact Hs.
  assert (Hnn : not_null r' = true) by (simpl; now rewrite Hs).
  assert (Hu : forallb (fun x => negb (unique_clash x r')) (rows w) = true).
  { apply forallb_forall. intros x Hx. simpl. rewrite Hs.
    destruct (opt_str_eqb (Asset.slug x) (Some s)) eqn:Hc; [|reflexivity].
    exfalso. apply Hfree. exists x; split; [exact Hx | now apply opt_str_eqb_eq]. }
  rewrite Hnn, Hu. simpl. eexists _, r'. repeat split; trivial.
Qed.

End AnuncioSave.


(* ================================================================== *)
(** * Second variant: the commit loop of [save] *)

Section AssetManagerSave.
Import AssetManager.

Lemma am_has_slug_eq (s : pystr) (a : Asset.t) :
  Asset.has_slug s a = true <-> Asset.slug a = Some s.
Proof. apply opt_str_eqb_eq. Qed.

Lemma am_select_slug_some (w : world Asset.t) (s : pystr) (a : Asset.t) :
  select_first (Asset.has_slug s) w = Some a -> taken Asset.slug w s.
Proof.
  intros Hg. apply select_first_some in Hg as [Hin Hs].
  exists a; split; [exact Hin | now apply am_has_slug_eq].
Qed.

Lemma am_select_slug_none (w : world Asset.t) (s : pystr) :
  select_first (Asset.has_slug s) w = None <-> ~ taken Asset.slug w s.
Proof.
  rewrite select_first_none. split.
  - intros Hall (a & Hin & Hs). apply am_has_slug_eq in Hs.
    rewrite (Hall a Hin) in Hs. discriminate.
  - intros Hnt a Hin. destruct (Asset.has_slug s a) eqn:Hs; [|reflexivity].
    exfalso. apply Hnt. exists a; split; [exact Hin | now apply am_has_slug_eq].
Qed.

(** A commit that went through found the slug free. *)
Lemma am_insert_free (w w' : world Asset.t) (self stored : Asset.t) (s : pystr) :
  Asset.slug self = Some s ->
  insert w self = Return (w', stored) ->
  ~ taken Asset.slug w s
  /\ Asset.slug stored = Some s
  /\ Asset.name stored = Asset.name self
  /\ Asset.serial_number stored = Asset.serial_number self
  /\ rows w' = rows w ++ [stored]
  /\ others w' = others w.
Proof.
  intros Hs Hi. apply insert_inv in Hi as (-> & Hrows & _ & Ho & _ & Hu).
  repeat split; trivial.
  intros (x & Hx & Hxs). rewrite forallb_forall in Hu. specialize (Hu x Hx).
  simpl in Hu. rewrite Hs, Hxs in Hu. simpl in Hu.
  now rewrite pystr_eqb_refl in Hu.
Qed.

(** With no other writer, a new asset that [save] stored sits under the
    first free candidate of its base slug. *)
Lemma am_save_loop_quiet_inv (fuel : nat) :
  forall (w w' : world Asset.t) (self stored : Asset.t) (base : pystr) (k : nat),
    quiet w ->
    Asset.id self = None ->
    (forall j, j < k -> taken Asset.slug w (candidate base j)) ->
    Asset.save_loop fuel w self base k = Some (w', stored, Return true) ->
    exists k',
      k <= k'
      /\ Asset.slug stored = Some (candidate base k')
      /\ (forall j, j < k' -> taken Asset.slug w (candidate base j))
      /\ ~ taken Asset.slug w (candidate base k')
      /\ rows w' = rows w ++ [stored]
      /\ quiet w'
      /\ Asset.serial_number stored = Asset.serial_number self
      /\ Asset.name stored = Asset.name self.
Proof.
  induction fuel as [|fuel IH]; intros w w' self stored base k Hq Hid Hbefore;
    simpl; [discriminate|].
  rewrite (yield_quiet Hq), current_slug_candidate.
  unfold add_commit.
  change (pk (Asset.with_slug self (candidate base k))) with (Asset.id self).
  rewrite Hid.
  destruct (insert w (Asset.with_slug self (candidate base k)))
    as [[w1 st]|e] eqn:Hins.
  - intros [= <- <-].
    apply (@am_insert_free w w1 (Asset.with_slug self (candidate base k)) st
             (candidate base k) eq_refl) in Hins
      as (Hfree & Hslug & Hname & Hserial & Hrows & Ho).
    exists k. repeat split; trivial.
    unfold quiet in *. now rewrite Ho.
  - apply insert_raises in Hins as ->.
    unfold rollback.
    change (pk (Asset.with_slug self (candidate base k))) with (Asset.id self).
    rewrite Hid, !(yield_quiet Hq).
    destruct (select_first (Asset.has_slug (candidate base k)) w) as [a|] eqn:Hsel.
    + intros Hloop. apply IH in Hloop as (k' & Hk & Hrest); trivial.
      * exists k'. split; [lia | exact Hrest].
      * intros j Hj. destruct (Nat.eq_dec j k) as [->|Hne].
        -- eapply am_select_slug_some; eassumption.
        -- apply Hbefore. lia.
    + destruct (select_first (Asset.has_serial _) w); discriminate.
Qed.

Lemma am_insert_taken (w : world Asset.t) (self : Asset.t) (s : pystr) :
  Asset.slug self = Some s ->
  taken Asset.slug w s ->
  insert w self = Raise IntegrityError.
Proof.
  intros Hs (x & Hx & Hxs). unfold insert.
  set (r' := on_insert (next_id w) (clock w) self).
  replace (forallb (fun x => negb (unique_clash x r')) (rows w)) with false;
    [now rewrite andb_false_r|].
  symmetry. apply not_true_is_false. intros Hall.
  rewrite forallb_forall in Hall. specialize (Hall x Hx).
  simpl in Hall. rewrite Hs, Hxs in Hall. simpl in Hall.
  now rewrite pystr_eqb_refl in Hall.
Qed.

Lemma am_insert_ok (w : world Asset.t) (self : Asset.t) (s : pystr) :
  Asset.slug self = Some s ->
  ~ taken Asset.slug w s ->
  (forall x, In x (rows w) -> Asset.has_serial (Asset.serial_number self) x = false) ->
  exists w' stored, insert w self = Return (w', stored).
Proof.
  intros Hs Hfree Hserial. unfold insert.
  set (r' := on_insert (next_id w) (clock w) self).
  assert (Hnn : not_null r' = true) by (simpl; now rewrite Hs).
  assert (Hu : forallb (fun x => negb (unique_clash x r')) (rows w) = true).
  { apply forallb_forall. intros x Hx. simpl. rewrite Hs.
    specialize (Hserial x Hx). unfold Asset.has_serial in Hserial. rewrite Hserial.
    destruct (opt_str_eqb (Asset.slug x) (Some s)) eqn:Hc; [|reflexivity].
    exfalso. apply Hfree. exists x; split; [exact Hx | now apply opt_str_eqb_eq]. }
  rewrite Hnn, Hu. simpl. now eexists _, _.
Qed.

(** With no other writer and a serial number nobody holds, the loop stores
    the new asset within the fuel that the size of the table allows. *)
Lemma am_save_loop_quiet (fuel : nat) :
  forall (w : world Asset.t) (self : Asset.t) (base : pystr) (k : nat),
    quiet w ->
    Asset.id self = None ->
    (forall x, In x (rows w) -> Asset.has_serial (Asset.serial_number self) x = false) ->
    (forall j, j < k -> taken Asset.slug w (candidate base j)) ->
    capacity w < fuel + k ->
    exists w' stored,
      Asset.save_loop fuel w self base k = Some (w', stored, Return true).
Proof.
  induction fuel as [|fuel IH]; intros w self base k Hq Hid Hserial Hbefore Hfuel.
  - pose proof (@candidates_bounded _ Asset.slug w base k Hbefore).
    pose proof (rows_le_capacity w). lia.
  - simpl. rewrite !(yield_quiet Hq), current_slug_candidate.
    unfold add_commit, rollback.
    change (pk (Asset.with_slug self (candidate base k))) with (Asset.id self).
    rewrite Hid.
    destruct (select_first (Asset.has_slug (candidate base k)) w) as [a|] eqn:Hsel.
    + rewrite (@am_insert_taken w (Asset.with_slug self (candidate base k))
                 (candidate base k) eq_refl (am_select_slug_some _ _ Hsel)).
      apply IH; trivial; [|lia].
      intros j Hj. destruct (Nat.eq_dec j k) as [->|Hne].
      * eapply am_select_slug_some; eassumption.
      * apply Hbefore. lia.
    + apply am_select_slug_none in Hsel.
      destruct (@am_insert_ok w (Asset.with_slug self (candidate base k))
                  (candidate base k) eq_refl Hsel Hserial) as (w' & stored & ->).
      now exists w', stored.
Qed.
End AssetManagerSave.



(* ================================================================== *)
(** * The counter of the suffix *)




(* ================================================================== *)
(** * A second collision in the first variant *)

(** C2 at its failing input: another writer takes [laptop] after the probe
    and [laptop-1] after the probe of the retry.  The first variant retries
    once; the second [IntegrityError] leaves [save], and the asset is not
    stored. *)
Theorem anuncio_save_gives_up_after_one_retry :
  exists w' self',
    Anuncio.Asset.save Sample.libraries Sample.two_collisions Sample.laptop
    = Some (w', self', Raise IntegrityError)
    /\ Anuncio.Asset.id self' = None
    /\ map Anuncio.Asset.slug (rows w') = [Some (py "laptop"); Some (py "laptop-1")]
    /\ map Anuncio.Asset.user_id (rows w') = [2; 2].
Proof. eexists _, _. split; [vm_compute; reflexivity | repeat split]. Qed.

(* ================================================================== *)
(** * The unique index on the slug *)

Lemma NoDup_map_eq {A B : Type} (f : A -> B) (l : list A) (x y : A) :
  NoDup (map f l) -> In x l -> In y l -> f x = f y -> x = y.
Proof.
  induction l as [|a l IH]; simpl; [easy|].
  intros Hnd Hx Hy Heq. apply NoDup_cons_iff in Hnd as [Hnotin Hnd].
  destruct Hx as [->|Hx], Hy as [->|Hy]; trivial.
  - exfalso. apply Hnotin. rewrite Heq. now apply in_map.
  - exfalso. apply Hnotin. rewrite <- Heq. now apply in_map.
  - now apply IH.
Qed.

Section UniqueColumn.
Context {T : Type} `{Model T}.
Variable col : T -> option pystr.
Hypothesis clash_col :
  forall x r, not_null r = true -> unique_clash x r = false -> col x <> col r.

Lemma insert_unique (w w' : world T) (r r' : T) :
  unique col w -> insert w r = Return (w', r') -> unique col w'.
Proof.
  unfold unique. intros Hu Hi.
  apply insert_inv in Hi as (Hr' & -> & _ & _ & Hnn & Hall).
  rewrite map_app. apply NoDup_app; trivial.
  - simpl. constructor; [easy | constructor].
  - intros c Hc [<-|[]]. apply in_map_iff in Hc as (x & Hx & Hin).
    rewrite forallb_forall in Hall. specialize (Hall x Hin).
    apply negb_true_iff in Hall. now apply (clash_col Hnn Hall).
Qed.

Lemma foreign_commit_unique (w : world T) (r : T) :
  unique col w -> unique col (foreign_commit w r).
Proof.
  intros Hu. unfold foreign_commit.
  destruct (insert w r) as [[w' r']|e] eqn:Hi; [|exact Hu].
  eapply insert_unique; eassumption.
Qed.

Lemma foreign_commits_unique (l : list T) (w : world T) :
  unique col w -> unique col (fold_left foreign_commit l w).
Proof.
  revert w; induction l as [|r l IH]; intros w Hu; simpl; [exact Hu|].
  now apply IH, foreign_commit_unique.
Qed.

(** Whatever the other writers commit, the index stays unique. *)
Lemma yield_unique (w : world T) : unique col w -> unique col (yield w).
Proof.
  intros Hu. unfold yield. destruct (others w) as [|st rest]; [exact Hu|].
  now apply foreign_commits_unique.
Qed.
End UniqueColumn.

Lemma anuncio_clash_slug (x r : Anuncio.Asset.t) :
  not_null r = true -> unique_clash x r = false ->
  Anuncio.Asset.slug x <> Anuncio.Asset.slug r.
Proof.
  simpl. destruct (Anuncio.Asset.slug r) as [s|]; [|discriminate].
  intros _ Hc Heq. rewrite Heq in Hc. simpl in Hc.
  now rewrite pystr_eqb_refl in Hc.
Qed.

Lemma am_clash_slug (x r : AssetManager.Asset.t) :
  not_null r = true -> unique_clash x r = false ->
  AssetManager.Asset.slug x <> AssetManager.Asset.slug r.
Proof.
  simpl. destruct (AssetManager.Asset.slug r) as [s|]; [|discriminate].
  intros _ Hc Heq. apply orb_false_elim in Hc as [Hc _].
  rewrite Heq in Hc. simpl in Hc. now rewrite pystr_eqb_refl in Hc.
Qed.

Lemma am_add_commit_slug (w w' : world AssetManager.Asset.t)
      (self stored : AssetManager.Asset.t) :
  add_commit w self = Return (w', stored) ->
  AssetManager.Asset.slug stored = AssetManager.Asset.slug self.
Proof.
  unfold add_commit. destruct (pk self) as [i|].
  - unfold update. destruct (existsb _ _); [|discriminate].
    destruct (_ && _); [|discriminate]. now intros [= _ <-].
  - intros Hi. now apply insert_inv in Hi as (-> & _).
Qed.

(** Whatever the asset held before, the slug that [save] of the second
    variant stores is a candidate of the base slug it was started with. *)
Lemma am_save_loop_slug (fuel : nat) :
  forall (w w' : world AssetManager.Asset.t) (self stored : AssetManager.Asset.t)
         (base : pystr) (k : nat),
    AssetManager.Asset.save_loop fuel w self base k = Some (w', stored, Return true) ->
    exists k', k <= k' /\ AssetManager.Asset.slug stored = Some (candidate base k').
Proof.
  induction fuel as [|fuel IH]; intros w w' self stored base k; simpl; [discriminate|].
  rewrite current_slug_candidate.
  destruct (add_commit (yield w) (AssetManager.Asset.with_slug self (candidate base k)))
    as [[w1 st]|e] eqn:Hc.
  - intros [= <- <-]. apply am_add_commit_slug in Hc. exists k. now split.
  - destruct e; try discriminate.
    destruct (select_first _ (yield (yield w))) as [a|].
    + intros Hloop. apply IH in Hloop as (k' & Hk & Hs). exists k'. split; [lia | exact Hs].
    + destruct (select_first _ _); discriminate.
Qed.


(* ================================================================== *)
(** * The listing *)

Section OrderByFacts.
Variable T : Type.
Variable key : T -> option Z.
Variable engine : nulls.

Lemma before_asym (x y : T) :
  before key engine x y = true -> before key engine y x = false.
Proof.
  unfold before. destruct (key x) as [a|], (key y) as [b|], engine;
    try discriminate; trivial.
  all: rewrite !Z.ltb_lt, ?Z.ltb_ge; lia.
Qed.

Lemma may_precede_trans (x y z : T) :
  may_precede key engine x y -> may_precede key engine y z -> may_precede key engine x z.
Proof.
  unfold may_precede, before.
  destruct (key x) as [a|], (key y) as [b|], (key z) as [c|], engine;
    try discriminate; trivial.
  all: rewrite !Z.ltb_ge; lia.
Qed.

Lemma insert_desc_perm (x : T) (l : list T) :
  Permutation (x :: l) (insert_desc key engine x l).
Proof.
  induction l as [|y l IH]; simpl; [reflexivity|].
  destruct (before key engine y x); [|reflexivity].
  rewrite perm_swap. now constructor.
Qed.

Lemma insert_desc_sorted (x : T) (l : list T) :
  StronglySorted (may_precede key engine) l ->
  StronglySorted (may_precede key engine) (insert_desc key engine x l).
Proof.
  induction 1 as [|y l Hs IH Hall]; simpl; [repeat constructor|].
  destruct (before key engine y x) eqn:Hb.
  - constructor; [exact IH|].
    apply (Permutation_Forall (insert_desc_perm x l)).
    constructor; [|exact Hall].
    now apply before_asym.
  - constructor; [now constructor|].
    constructor; [exact Hb|].
    apply Forall_forall. intros z Hz.
    apply may_precede_trans with y; [exact Hb|].
    rewrite Forall_forall in Hall. now apply Hall.
Qed.

Lemma order_by_desc_perm (l : list T) :
  Permutation l (order_by_desc key engine l).
Proof.
  induction l as [|x l IH]; simpl; [constructor|].
  rewrite <- insert_desc_perm. now constructor.
Qed.

Lemma order_by_desc_sorted (l : list T) :
  StronglySorted (may_precede key engine) (order_by_desc key engine l).
Proof.
  induction l as [|x l IH]; simpl; [constructor|].
  now apply insert_desc_sorted.
Qed.

(** Of two rows that both have a value, the one that may stand first has
    the greater or equal value. *)
Lemma may_precede_values (x y : T) (a b : Z) :
  may_precede key engine x y -> key x = Some a -> key y = Some b -> (b <= a)%Z.
Proof.
  unfold may_precede, before. intros Hb Hx Hy. rewrite Hx, Hy in Hb.
  now apply Z.ltb_ge in Hb.
Qed.
End OrderByFacts.

Lemma order_by_desc_newest_first {T : Type} (time : T -> option Z) (engine : nulls)
      (l : list T) :
  newest_first time (order_by_desc time engine l).
Proof.
  unfold newest_first.
  pose proof (order_by_desc_sorted time engine l) as Hs.
  induction Hs as [|x l' Hs IH Hall]; constructor; [exact IH|].
  eapply Forall_impl; [|exact Hall].
  intros y Hxy a b Ha Hb. eapply may_precede_values; eassumption.
Qed.

(** C10.  In both variants the listing holds exactly the stored assets,
    each as often as it is stored, ordered by decreasing creation time:
    no asset stands before one that was created later. *)
Theorem get_all_newest_first :
  (forall w : world Anuncio.Asset.t,
      Permutation (rows w) (Anuncio.Asset.get_all w)
      /\ newest_first Anuncio.Asset.timestamp (Anuncio.Asset.get_all w)
      /\ Anuncio.Run.index w = Anuncio.Asset.get_all w)
  /\ (forall w : world AssetManager.Asset.t,
      Permutation (rows w) (AssetManager.Asset.get_all w)
      /\ newest_first AssetManager.Asset.created_at (AssetManager.Asset.get_all w)
      /\ AssetManager.Run.index w = AssetManager.Asset.get_all w).
Proof.
  split; intros w; (split; [apply order_by_desc_perm | split;
    [apply order_by_desc_newest_first | reflexivity]]).
Qed.

(* ================================================================== *)
(** * Signing up with an email that is already registered *)

Lemma run_chain_stop_or_more (vs : list validator) (v : validator) (data msg : pystr) :
  v data = Fail msg -> run_chain (vs ++ [v]) data <> [].
Proof.
  intros Hv. induction vs as [|u vs IH]; simpl.
  - now rewrite Hv.
  - destruct (u data); [exact IH | discriminate | discriminate].
Qed.

Lemma anuncio_signup_errors_taken (E : externals) (users : world Anuncio.User.t)
      (req : request) :
  Anuncio.User.get_by_email users (field "email" (posted req)) <> None ->
  Anuncio.Forms.signup_errors E users req <> [].
Proof.
  intros Htaken. unfold Anuncio.Forms.signup_errors.
  assert (Hemail : validate_field "email"
                     [DataRequired E field_required; Email E;
                      Anuncio.Forms.validate_email users] (posted req) <> []).
  { unfold validate_field.
    assert (Hchain : run_chain ([DataRequired E field_required; Email E]
                                ++ [Anuncio.Forms.validate_email users])
                               (field "email" (posted req)) <> []).
    { apply run_chain_stop_or_more with (msg := py "This email is already registered.").
      unfold Anuncio.Forms.validate_email.
      destruct (Anuncio.User.get_by_email users (field "email" (posted req)));
        [reflexivity | contradiction]. }
    simpl app in Hchain.
    destruct (run_chain _ (field "email" (posted req))); [contradiction | discriminate]. }
  intros Hnil. apply app_eq_nil in Hnil as [_ Hnil].
  apply app_eq_nil in Hnil as [_ Hnil]. apply app_eq_nil in Hnil as [Hnil _].
  contradiction.
Qed.




(* ================================================================== *)
(** * Failed logins *)

(** C9.  A login that fails because the email is unknown and a login, with
    the same request, that fails because the password is wrong get the same
    reply, in either variant: the same flashed message, the same body, no
    session.  When the form was submitted by a visitor and is valid, this
    reply is the generic message of the variant. *)
Theorem login_failures_indistinguishable (E : externals) :
  (forall (unknown known : world Anuncio.User.t) (req : request) (u : Anuncio.User.t),
      Anuncio.User.get_by_email unknown (field "email" (posted req)) = None ->
      Anuncio.User.get_by_email known (field "email" (posted req)) = Some u ->
      Anuncio.User.check_password E u (field "password" (posted req)) = false ->
      Anuncio.Run.login E unknown req = Anuncio.Run.login E known req
      /\ (is_authenticated req = false ->
          Anuncio.Forms.validate_on_submit req (Anuncio.Forms.login_errors E req) = true ->
          Anuncio.Run.login E known req
          = Return (flash Anuncio.Run.credenciales_invalidas Anuncio.Run.danger
                          (Redirect to_login))))
  /\ (forall (unknown known : world AssetManager.User.t) (req : request)
             (u : AssetManager.User.t),
      AssetManager.User.get_by_email unknown (field "email" (posted req)) = None ->
      AssetManager.User.get_by_email known (field "email" (posted req)) = Some u ->
      AssetManager.User.check_password E u (field "password" (posted req)) = false ->
      AssetManager.Run.login E unknown req = AssetManager.Run.login E known req
      /\ (is_authenticated req = false ->
          AssetManager.Forms.validate_on_submit req (AssetManager.Forms.login_errors E req)
          = true ->
          AssetManager.Run.login E known req
          = Return {| flashes := [(AssetManager.Run.invalid_credentials,
                                   AssetManager.Run.error)];
                      login_user := None;
                      sent := Render "login_form.html" (posted req) [] |})).
Proof.
  split; intros unknown known req u Hnone Hsome Hbad.
  - unfold Anuncio.Run.login. rewrite Hnone, Hsome, Hbad.
    split.
    + destruct (is_authenticated req); [reflexivity|].
      now destruct (Anuncio.Forms.validate_on_submit req _).
    + now intros -> ->.
  - unfold AssetManager.Run.login. rewrite Hnone, Hsome, Hbad.
    split.
    + destruct (is_authenticated req); [reflexivity|].
      now destruct (AssetManager.Forms.validate_on_submit req _).
    + intros -> Hvalid. rewrite Hvalid.
      unfold AssetManager.Forms.validate_on_submit in Hvalid.
      apply andb_prop in Hvalid as [Hsub Hnil].
      unfold AssetManager.Forms.shown_errors. rewrite Hsub.
      now destruct (AssetManager.Forms.login_errors E req).
Qed.

Lemma login_failures_indistinguishable_witness :
  Anuncio.Run.login Sample.libraries Sample.empty (Sample.login_with "guess" None)
  = Anuncio.Run.login Sample.libraries (Sample.only Sample.alice)
                      (Sample.login_with "guess" None).
Proof.
  refine (proj1 (proj1 (login_failures_indistinguishable Sample.libraries)
                   Sample.empty (Sample.only Sample.alice)
                   (Sample.login_with "guess" None) Sample.alice _ _ _));
    reflexivity.
Defined.

(* ================================================================== *)
(** * The redirect guard *)

Lemma anuncio_is_safe_url_true (E : externals) (host_url target : pystr) :
  Anuncio.Run.is_safe_url E host_url target = Return true ->
  exists ref_url joined target_url,
    Url.urlparse (url_runtime E) host_url [] = Return ref_url
    /\ Url.urljoin (url_runtime E) host_url target = Return joined
    /\ Url.urlparse (url_runtime E) joined [] = Return target_url
    /\ (Url.scheme target_url = py "http" \/ Url.scheme target_url = py "https")
    /\ Url.netloc target_url = Url.netloc ref_url.
Proof.
  unfold Anuncio.Run.is_safe_url, bind.
  destruct (Url.urlparse (url_runtime E) host_url []) as [ref_url|e] eqn:Href;
    [|discriminate].
  destruct (Url.urljoin (url_runtime E) host_url target) as [joined|e] eqn:Hjoin;
    [|discriminate].
  destruct (Url.urlparse (url_runtime E) joined []) as [target_url|e] eqn:Htarget;
    [|discriminate].
  intros [= Hok]. apply andb_prop in Hok as [Hscheme Hnetloc].
  exists ref_url, joined, target_url. repeat split; trivial.
  - simpl in Hscheme. rewrite orb_false_r in Hscheme.
    apply orb_prop in Hscheme as [H|H]; apply pystr_eqb_eq in H;
      [left | right]; exact H.
  - symmetry. now apply pystr_eqb_eq.
Qed.

Lemma am_is_safe_url_same (E : externals) (host_url target : pystr) :
  AssetManager.Run.is_safe_url E host_url target
  = Anuncio.Run.is_safe_url E host_url target.
Proof. reflexivity. Qed.

(** C3.  With the host [example.com], the guard of either variant answers
    false for [http://evil.com/x], true for [/profile] and false for
    [//evil.com/x]; and whenever it answers true, the target joined to the
    host URL was parsed, its scheme is [http] or [https] and its network
    location is that of the host URL. *)
Theorem is_safe_url_same_origin (E : externals) :
  Anuncio.Run.is_safe_url E Sample.example_com (py "http://evil.com/x") = Return false
  /\ Anuncio.Run.is_safe_url E Sample.example_com (py "/profile") = Return true
  /\ Anuncio.Run.is_safe_url E Sample.example_com (py "//evil.com/x") = Return false
  /\ AssetManager.Run.is_safe_url E Sample.example_com (py "http://evil.com/x")
     = Return false
  /\ AssetManager.Run.is_safe_url E Sample.example_com (py "/profile") = Return true
  /\ AssetManager.Run.is_safe_url E Sample.example_com (py "//evil.com/x") = Return false
  /\ (forall host_url target,
        Anuncio.Run.is_safe_url E host_url target = Return true ->
        exists ref_url joined target_url,
          Url.urlparse (url_runtime E) host_url [] = Return ref_url
          /\ Url.urljoin (url_runtime E) host_url target = Return joined
          /\ Url.urlparse (url_runtime E) joined [] = Return target_url
          /\ (Url.scheme target_url = py "http" \/ Url.scheme target_url = py "https")
          /\ Url.netloc target_url = Url.netloc ref_url)
  /\ (forall host_url target,
        AssetManager.Run.is_safe_url E host_url target = Return true ->
        exists ref_url joined target_url,
          Url.urlparse (url_runtime E) host_url [] = Return ref_url
          /\ Url.urljoin (url_runtime E) host_url target = Return joined
          /\ Url.urlparse (url_runtime E) joined [] = Return target_url
          /\ (Url.scheme target_url = py "http" \/ Url.scheme target_url = py "https")
          /\ Url.netloc target_url = Url.netloc ref_url).
Proof.
  repeat split; try reflexivity.
  - apply anuncio_is_safe_url_true.
  - intros host_url target. apply (@anuncio_is_safe_url_true E host_url target).
Qed.

Lemma is_safe_url_same_origin_witness :
  exists ref_url joined target_url,
    Url.urlparse Url.plain_runtime Sample.example_com [] = Return ref_url
    /\ Url.urljoin Url.plain_runtime Sample.example_com (py "/profile") = Return joined
    /\ Url.urlparse Url.plain_runtime joined [] = Return target_url
    /\ (Url.scheme target_url = py "http" \/ Url.scheme target_url = py "https")
    /\ Url.netloc target_url = Url.netloc ref_url.
Proof.
  apply (proj1 (proj2 (proj2 (proj2 (proj2 (proj2 (proj2
           (is_safe_url_same_origin Sample.libraries)))))))
           Sample.example_com (py "/profile")).
  reflexivity.
Defined.

Lemma anuncio_is_safe_url_answers (E : externals) (host_url target : pystr) (b : bool) :
  Anuncio.Run.is_safe_url E host_url target = Return b ->
  exists ref_url joined target_url,
    Url.urlparse (url_runtime E) host_url [] = Return ref_url
    /\ Url.urljoin (url_runtime E) host_url target = Return joined
    /\ Url.urlparse (url_runtime E) joined [] = Return target_url.
Proof.
  unfold Anuncio.Run.is_safe_url, bind.
  destruct (Url.urlparse (url_runtime E) host_url []) as [ref_url|e] eqn:Href;
    [|discriminate].
  destruct (Url.urljoin (url_runtime E) host_url target) as [joined|e] eqn:Hjoin;
    [|discriminate].
  destruct (Url.urlparse (url_runtime E) joined []) as [target_url|e] eqn:Htarget;
    [|discriminate].
  intros _. now exists ref_url, joined, target_url.
Qed.

Lemma anuncio_is_safe_url_raises (E : externals) (host_url target : pystr) (e : exn) :
  Url.urlparse (url_runtime E) host_url [] = Raise e
  \/ (exists ref_url,
         Url.urlparse (url_runtime E) host_url [] = Return ref_url
         /\ Url.urljoin (url_runtime E) host_url target = Raise e)
  \/ (exists ref_url joined,
         Url.urlparse (url_runtime E) host_url [] = Return ref_url
         /\ Url.urljoin (url_runtime E) host_url target = Return joined
         /\ Url.urlparse (url_runtime E) joined [] = Raise e) ->
  Anuncio.Run.is_safe_url E host_url target = Raise e.
Proof.
  unfold Anuncio.Run.is_safe_url, bind.
  intros [H|[(r & Hr & H)|(r & j & Hr & Hj & H)]].
  - now rewrite H.
  - now rewrite Hr, H.
  - now rewrite Hr, Hj, H.
Qed.

(** C4, as the code has it.  A redirect target that the URL parser rejects
    does not make the guard answer false: the error of the parser leaves
    the guard as it is, and leaves the login handler, which sends no
    redirect.  The guard answers only when the host URL, the joined target
    and the result of the join were all parsed.  The login of a user with
    valid credentials is sent to the default landing page when the guard
    answers false and when there is no target. *)
Theorem is_safe_url_propagates_parse_errors (E : externals) :
  (forall host_url target e,
      Url.urlparse (url_runtime E) host_url [] = Raise e
      \/ (exists ref_url,
             Url.urlparse (url_runtime E) host_url [] = Return ref_url
             /\ Url.urljoin (url_runtime E) host_url target = Raise e)
      \/ (exists ref_url joined,
             Url.urlparse (url_runtime E) host_url [] = Return ref_url
             /\ Url.urljoin (url_runtime E) host_url target = Return joined
             /\ Url.urlparse (url_runtime E) joined [] = Raise e) ->
      Anuncio.Run.is_safe_url E host_url target = Raise e
      /\ AssetManager.Run.is_safe_url E host_url target = Raise e)
  /\ (forall host_url target b,
        Anuncio.Run.is_safe_url E host_url target = Return b
        \/ AssetManager.Run.is_safe_url E host_url target = Return b ->
        exists ref_url joined target_url,
          Url.urlparse (url_runtime E) host_url [] = Return ref_url
          /\ Url.urljoin (url_runtime E) host_url target = Return joined
          /\ Url.urlparse (url_runtime E) joined [] = Return target_url)
  /\ (forall (users : world Anuncio.User.t) (req : request) (u : Anuncio.User.t),
        is_authenticated req = false ->
        Anuncio.Forms.validate_on_submit req (Anuncio.Forms.login_errors E req) = true ->
        Anuncio.User.get_by_email users (field "email" (posted req)) = Some u ->
        Anuncio.User.check_password E u (field "password" (posted req)) = true ->
        match next req with
        | Some (c :: n) =>
            (forall e, Anuncio.Run.is_safe_url E (host_url req) (c :: n) = Raise e ->
                       Anuncio.Run.login E users req = Raise e)
            /\ (Anuncio.Run.is_safe_url E (host_url req) (c :: n) = Return false ->
                exists r, Anuncio.Run.login E users req = Return r
                          /\ sent r = Redirect to_index)
        | _ => exists r, Anuncio.Run.login E users req = Return r
                         /\ sent r = Redirect to_index
        end)
  /\ (forall (users : world AssetManager.User.t) (req : request)
             (u : AssetManager.User.t),
        is_authenticated req = false ->
        AssetManager.Forms.validate_on_submit req (AssetManager.Forms.login_errors E req)
        = true ->
        AssetManager.User.get_by_email users (field "email" (posted req)) = Some u ->
        AssetManager.User.check_password E u (field "password" (posted req)) = true ->
        match next req with
        | Some (c :: n) =>
            (forall e, AssetManager.Run.is_safe_url E (host_url req) (c :: n) = Raise e ->
                       AssetManager.Run.login E users req = Raise e)
            /\ (AssetManager.Run.is_safe_url E (host_url req) (c :: n) = Return false ->
                exists r, AssetManager.Run.login E users req = Return r
                          /\ sent r = Redirect to_index)
        | _ => exists r, AssetManager.Run.login E users req = Return r
                         /\ sent r = Redirect to_index
        end).
Proof.
  split; [|split; [|split]].
  - intros host_url target e H.
    split; apply (@anuncio_is_safe_url_raises E host_url target e H).
  - intros host_url target b [H|H];
      apply (@anuncio_is_safe_url_answers E host_url target b); exact H.
  - intros users req u Hauth Hvalid Huser Hpw.
    unfold Anuncio.Run.login. rewrite Hauth, Hvalid, Huser, Hpw.
    destruct (next req) as [[|c n]|].
    + eexists; split; reflexivity.
    + split.
      * intros e ->. reflexivity.
      * intros ->. eexists; split; reflexivity.
    + eexists; split; reflexivity.
  - intros users req u Hauth Hvalid Huser Hpw.
    unfold AssetManager.Run.login. rewrite Hauth, Hvalid, Huser, Hpw.
    destruct (next req) as [[|c n]|].
    + eexists; split; reflexivity.
    + split.
      * intros e ->. reflexivity.
      * intros ->. eexists; split; reflexivity.
    + eexists; split; reflexivity.
Qed.

Lemma is_safe_url_propagates_parse_errors_witness :
  Anuncio.Run.is_safe_url Sample.libraries Sample.example_com (py "//[")
  = Raise Url.invalid_ipv6
  /\ AssetManager.Run.is_safe_url Sample.libraries Sample.example_com (py "//[")
     = Raise Url.invalid_ipv6.
Proof.
  apply (proj1 (is_safe_url_propagates_parse_errors Sample.libraries)
           Sample.example_com (py "//[") Url.invalid_ipv6).
  right; left. eexists. split; reflexivity.
Defined.

(** C4 as stated fails: the parser rejects the target [//[] (a bracket that
    is never closed), whatever the runtime, and the guard of either variant
    raises the error of the parser instead of answering false; the login of
    a user with valid credentials and this target raises it too. *)
Lemma is_safe_url_raises_on_malformed :
  (forall E : externals,
      Url.urlparse (url_runtime E) (py "//[") [] = Raise Url.invalid_ipv6
      /\ Anuncio.Run.is_safe_url E Sample.example_com (py "//[")
         = Raise Url.invalid_ipv6
      /\ AssetManager.Run.is_safe_url E Sample.example_com (py "//[")
         = Raise Url.invalid_ipv6)
  /\ Anuncio.Run.login Sample.libraries (Sample.only Sample.alice)
       (Sample.login_with "correct horse" (Some "//["%string))
     = Raise Url.invalid_ipv6
  /\ AssetManager.Run.login Sample.libraries (Sample.only Sample.alice')
       (Sample.login_with "correct horse" (Some "//["%string))
     = Raise Url.invalid_ipv6.
Proof. repeat split; reflexivity. Qed.

(* ================================================================== *)
(** * Saving while other writers commit *)

(** [save] of the first variant always ends, whatever the other writers
    commit meanwhile. *)
Lemma anuncio_save_total (E : externals) (w : world Anuncio.Asset.t)
      (self : Anuncio.Asset.t) :
  exists w' self' r, Anuncio.Asset.save E w self = Some (w', self', r).
Proof.
  unfold Anuncio.Asset.save, Anuncio.Asset.save_with.
  assert (Hfirst : exists w1 self1,
             (if truthy (Anuncio.Asset.slug self) then Some (w, self)
              else match Anuncio.Asset._generate_unique_slug E (S (capacity w)) w
                           (Anuncio.Asset.name self) with
                   | Some (w0, s) => Some (w0, Anuncio.Asset.with_slug self s)
                   | None => None
                   end) = Some (w1, self1)
             /\ capacity w1 <= capacity w).
  { destruct (truthy (Anuncio.Asset.slug self)); [now exists w, self|].
    destruct (@anuncio_generate_unique_slug E w (Anuncio.Asset.name self)
                (S (capacity w))) as (w1 & k & -> & _ & _ & _ & Hc & _); [lia|].
    now eexists _, _. }
  destruct Hfirst as (w1 & self1 & -> & Hc1).
  pose proof (yield_capacity w1) as Hc2.
  destruct (add_commit (yield w1) self1) as [[w2 stored]|e]; [now eexists _, _, _|].
  destruct e; try now eexists _, _, _.
  destruct (@anuncio_generate_unique_slug E (yield w1)
              (Anuncio.Asset.name (rollback (yield w1) self1)) (S (capacity w)))
    as (w3 & k & -> & _); [lia|].
  destruct (add_commit (yield w3) _) as [[w4 stored]|e]; now eexists _, _, _.
Qed.

(** The commit loop of the second variant ends within the fuel that the
    capacity of the table allows, whatever the other writers commit. *)
Lemma am_save_loop_total (fuel : nat) :
  forall (w : world AssetManager.Asset.t) (self : AssetManager.Asset.t)
         (base : pystr) (k : nat),
    (forall j, j < k -> taken AssetManager.Asset.slug w (candidate base j)) ->
    capacity w < fuel + k ->
    exists w' self' r,
      AssetManager.Asset.save_loop fuel w self base k = Some (w', self', r).
Proof.
  induction fuel as [|fuel IH]; intros w self base k Hbefore Hfuel.
  - pose proof (@candidates_bounded _ AssetManager.Asset.slug w base k Hbefore).
    pose proof (rows_le_capacity w). lia.
  - simpl. rewrite current_slug_candidate.
    destruct (add_commit (yield w) _) as [[w1 stored]|e]; [now eexists _, _, _|].
    destruct e; try now eexists _, _, _.
    destruct (select_first (AssetManager.Asset.has_slug (candidate base k))
                           (yield (yield w))) as [a|] eqn:Hsel.
    + apply IH.
      * intros j Hj. destruct (Nat.eq_dec j k) as [->|Hne].
        -- eapply am_select_slug_some; eassumption.
        -- apply taken_yield, taken_yield, Hbefore. lia.
      * pose proof (yield_capacity w). pose proof (yield_capacity (yield w)). lia.
    + match goal with
      | |- context [select_first ?p ?w0] => destruct (select_first p w0)
      end; now eexists _, _, _.
Qed.

(** [save] of the second variant always ends. *)
Lemma am_save_total (E : externals) (w : world AssetManager.Asset.t)
      (self : AssetManager.Asset.t) :
  exists w' self' r, AssetManager.Asset.save E w self = Some (w', self', r).
Proof.
  unfold AssetManager.Asset.save. apply am_save_loop_total; [|lia].
  intros j Hj; lia.
Qed.

Lemma forallb_false_witness {A : Type} (f : A -> bool) (l : list A) :
  forallb f l = false -> exists x, In x l /\ f x = false.
Proof.
  induction l as [|a l IH]; simpl; [discriminate|].
  destruct (f a) eqn:Hfa; simpl.
  - intros H. destruct (IH H) as (x & Hx & Hfx). exists x; auto.
  - intros _. exists a; auto.
Qed.

(** When a commit of the second variant is rejected, a stored row holds the
    slug that was tried, or a stored row holds the serial number that the
    asset shows after the rollback. *)
Lemma am_rejected_commit (w : world AssetManager.Asset.t)
      (self : AssetManager.Asset.t) (c : pystr) :
  AssetManager.Asset.slug self = Some c ->
  add_commit w self = Raise IntegrityError ->
  taken AssetManager.Asset.slug w c
  \/ exists x, In x (rows w)
               /\ AssetManager.Asset.has_serial
                    (AssetManager.Asset.serial_number (rollback w self)) x = true.
Proof.
  intros Hslug. unfold add_commit, rollback.
  change (pk self) with (AssetManager.Asset.id self).
  destruct (AssetManager.Asset.id self) as [i|].
  - unfold update.
    destruct (existsb (same_pk i) (rows w)) eqn:Hex; [|discriminate].
    intros _. right.
    apply existsb_exists in Hex as (r0 & Hr0 & Hpk).
    destruct (find (same_pk i) (rows w)) as [r1|] eqn:Hfind.
    + apply find_some in Hfind as [Hin _]. exists r1. split; [exact Hin|].
      apply pystr_eqb_refl.
    + now rewrite (find_none _ _ Hfind r0 Hr0) in Hpk.
  - unfold insert.
    set (r' := on_insert (next_id w) (clock w) self).
    assert (Hnn : not_null r' = true) by (simpl; now rewrite Hslug).
    rewrite Hnn. simpl.
    destruct (forallb _ (rows w)) eqn:Hall; [discriminate|]. intros _.
    apply forallb_false_witness in Hall as (x & Hx & Hclash).
    apply negb_false_iff in Hclash. simpl in Hclash. rewrite Hslug in Hclash.
    apply orb_prop in Hclash as [Hc|Hc].
    + left. exists x. split; [exact Hx | now apply opt_str_eqb_eq].
    + right. exists x. now split.
Qed.

(** The commit loop of the second variant never lets the rejection of a
    commit out: it goes on to the next candidate, or reports the serial
    number. *)
Lemma am_save_loop_no_integrity_error (fuel : nat) :
  forall (w w' : world AssetManager.Asset.t) (self self' : AssetManager.Asset.t)
         (base : pystr) (k : nat) (r : result bool),
    AssetManager.Asset.save_loop fuel w self base k = Some (w', self', r) ->
    r <> Raise IntegrityError.
Proof.
  induction fuel as [|fuel IH]; intros w w' self self' base k r; simpl; [discriminate|].
  rewrite current_slug_candidate.
  destruct (add_commit (yield w) (AssetManager.Asset.with_slug self (candidate base k)))
    as [[w1 stored]|e] eqn:Hc.
  - intros [= _ _ <-]. discriminate.
  - destruct e; try (intros [= _ _ <-]; discriminate).
    apply (@am_rejected_commit (yield w)
             (AssetManager.Asset.with_slug self (candidate base k))
             (candidate base k) eq_refl) in Hc.
    destruct (select_first (AssetManager.Asset.has_slug (candidate base k))
                           (yield (yield w))) as [a|] eqn:Hsel.
    + apply IH.
    + apply am_select_slug_none in Hsel.
      destruct Hc as [Htaken|(x & Hx & Hserial)].
      * exfalso. apply Hsel. now apply taken_yield.
      * destruct (@select_first_found _
                    (AssetManager.Asset.has_serial
                       (AssetManager.Asset.serial_number
                          (rollback (yield w)
                             (AssetManager.Asset.with_slug self (candidate base k)))))
                    (yield (yield (yield w))) x) as (x' & ->); trivial.
        -- now apply yield_incl, yield_incl.
        -- intros [= _ _ <-]. discriminate.
Qed.

(* ================================================================== *)
(** * What creating an asset preserves *)

Section CreationInvariant.
Variable E : externals.

(** A property of the table that the commits of the other writers and a
    successful insert preserve is preserved by the creation of an asset,
    in either variant, whatever the interleaving and whatever the outcome. *)

Lemma anuncio_probe_invariant (P : world Anuncio.Asset.t -> Prop) :
  (forall w, P w -> P (yield w)) ->
  forall fuel w base slug counter w' s,
    P w -> Anuncio.Asset.probe fuel w base slug counter = Some (w', s) -> P w'.
Proof.
  intros Hyield. induction fuel as [|fuel IH]; intros w base slug counter w' s Hw;
    simpl; [discriminate|].
  destruct (Anuncio.Asset.get_by_slug (yield w) slug).
  - apply IH. now apply Hyield.
  - intros [= <- _]. now apply Hyield.
Qed.

Lemma anuncio_create_invariant (P : world Anuncio.Asset.t -> Prop) :
  (forall w, P w -> P (yield w)) ->
  (forall w r w' r', P w -> insert w r = Return (w', r') -> P w') ->
  forall w self w' self' r,
    Anuncio.Asset.id self = None ->
    P w ->
    Anuncio.Asset.save E w self = Some (w', self', r) ->
    P w'.
Proof.
  intros Hyield Hinsert w self w' self' r Hid Hw.
  unfold Anuncio.Asset.save, Anuncio.Asset.save_with.
  set (fuel := S (capacity w)).
  assert (Hfirst : forall w1 self1,
             (if truthy (Anuncio.Asset.slug self) then Some (w, self)
              else match Anuncio.Asset._generate_unique_slug E fuel w
                           (Anuncio.Asset.name self) with
                   | Some (w0, s) => Some (w0, Anuncio.Asset.with_slug self s)
                   | None => None
                   end) = Some (w1, self1) ->
             P w1 /\ Anuncio.Asset.id self1 = None).
  { intros w1 self1. destruct (truthy (Anuncio.Asset.slug self)).
    - now intros [= <- <-].
    - destruct (Anuncio.Asset._generate_unique_slug E fuel w (Anuncio.Asset.name self))
        as [[w0 s]|] eqn:Hg; [|discriminate].
      intros [= <- <-]. split; [|exact Hid].
      eapply anuncio_probe_invariant; eassumption. }
  destruct (if truthy (Anuncio.Asset.slug self) then _ else _) as [[w1 self1]|];
    [|discriminate].
  destruct (Hfirst w1 self1 eq_refl) as [Hw1 Hid1]. clear Hfirst.
  unfold add_commit, rollback.
  change (pk self1) with (Anuncio.Asset.id self1). rewrite Hid1.
  destruct (insert (yield w1) self1) as [[w2 stored]|e] eqn:Hi.
  - intros [= <- _ _]. eapply Hinsert; [|exact Hi]. now apply Hyield.
  - destruct e; try (intros [= <- _ _]; now apply Hyield).
    destruct (Anuncio.Asset._generate_unique_slug E fuel (yield w1)
                (Anuncio.Asset.name self1)) as [[w3 s3]|] eqn:Hg; [|discriminate].
    assert (Hw3 : P w3).
    { eapply anuncio_probe_invariant; [exact Hyield | | exact Hg]. now apply Hyield. }
    change (pk (Anuncio.Asset.with_slug self1 s3)) with (Anuncio.Asset.id self1).
    rewrite Hid1.
    destruct (insert (yield w3) _) as [[w4 stored]|e] eqn:Hi2.
    + intros [= <- _ _]. eapply Hinsert; [|exact Hi2]. now apply Hyield.
    + intros [= <- _ _]. now apply Hyield.
Qed.

Lemma am_create_loop_invariant (P : world AssetManager.Asset.t -> Prop) :
  (forall w, P w -> P (yield w)) ->
  (forall w r w' r', P w -> insert w r = Return (w', r') -> P w') ->
  forall fuel w self base k w' self' r,
    AssetManager.Asset.id self = None ->
    P w ->
    AssetManager.Asset.save_loop fuel w self base k = Some (w', self', r) ->
    P w'.
Proof.
  intros Hyield Hinsert.
  induction fuel as [|fuel IH]; intros w self base k w' self' r Hid Hw;
    simpl; [discriminate|].
  unfold add_commit, rollback.
  change (pk (AssetManager.Asset.with_slug self (AssetManager.Asset.current_slug base k)))
    with (AssetManager.Asset.id self).
  rewrite Hid.
  destruct (insert (yield w) _) as [[w1 stored]|e] eqn:Hi.
  - intros [= <- _ _]. eapply Hinsert; [|exact Hi]. now apply Hyield.
  - destruct e; try (intros [= <- _ _]; now apply Hyield).
    destruct (select_first (AssetManager.Asset.has_slug _) (yield (yield w))).
    + apply IH; [exact Hid|]. now apply Hyield, Hyield.
    + match goal with
      | |- context [select_first ?p ?w0] => destruct (select_first p w0)
      end; intros [= <- _ _]; now apply Hyield, Hyield, Hyield.
Qed.
End CreationInvariant.

(** However the creations of assets interleave, no two stored assets share
    a slug afterwards: the unique index holds after [save], in either
    variant and whatever [save] answers. *)
Lemma creation_keeps_slugs_unique (E : externals) :
  (forall (w w' : world Anuncio.Asset.t) (self self' : Anuncio.Asset.t) r,
      Anuncio.Asset.id self = None ->
      unique Anuncio.Asset.slug w ->
      Anuncio.Asset.save E w self = Some (w', self', r) ->
      unique Anuncio.Asset.slug w')
  /\ (forall (w w' : world AssetManager.Asset.t) (self self' : AssetManager.Asset.t) r,
      AssetManager.Asset.id self = None ->
      unique AssetManager.Asset.slug w ->
      AssetManager.Asset.save E w self = Some (w', self', r) ->
      unique AssetManager.Asset.slug w').
Proof.
  split; intros w w' self self' r Hid Hu Hs.
  - eapply (@anuncio_create_invariant E (unique Anuncio.Asset.slug)); try eassumption.
    + intros w0. apply yield_unique, anuncio_clash_slug.
    + intros w0 r0 w1 r1. apply insert_unique, anuncio_clash_slug.
  - unfold AssetManager.Asset.save in Hs.
    eapply (@am_create_loop_invariant (unique AssetManager.Asset.slug)); try eassumption.
    + intros w0. apply yield_unique, am_clash_slug.
    + intros w0 r0 w1 r1. apply insert_unique, am_clash_slug.
Qed.

(* ================================================================== *)
(** * Primary keys *)

Section Keys.
Context {T : Type} `{Model T}.
Hypothesis pk_on_insert : forall i now r, pk (on_insert i now r) = Some i.

Lemma insert_keyed (w w' : world T) (r r' : T) :
  keyed w -> insert w r = Return (w', r') -> keyed w'.
Proof.
  intros [Hnd Hlt] Hi.
  apply insert_inv in Hi as (-> & Hrows & Hnext & _).
  unfold keyed. rewrite Hrows, Hnext, map_app. split.
  - apply NoDup_app; trivial.
    + simpl. constructor; [easy | constructor].
    + intros c Hc [<-|[]]. apply in_map_iff in Hc as (x & Hx & Hin).
      destruct (Hlt x Hin) as (i & Hi & Hbound).
      rewrite pk_on_insert in Hx. rewrite Hi in Hx. injection Hx as ->. lia.
  - intros x Hx. apply in_app_or in Hx as [Hx|[<-|[]]].
    + destruct (Hlt x Hx) as (i & Hi & Hbound). exists i. split; [exact Hi | lia].
    + exists (next_id w). split; [apply pk_on_insert | lia].
Qed.

Lemma foreign_commits_keyed (l : list T) (w : world T) :
  keyed w -> keyed (fold_left foreign_commit l w).
Proof.
  revert w; induction l as [|r l IH]; intros w Hk; simpl; [exact Hk|].
  apply IH. unfold foreign_commit.
  destruct (insert w r) as [[w' r']|e] eqn:Hi; [|exact Hk].
  eapply insert_keyed; eassumption.
Qed.

Lemma yield_keyed (w : world T) : keyed w -> keyed (yield w).
Proof.
  intros Hk. unfold yield. destruct (others w) as [|st rest]; [exact Hk|].
  now apply foreign_commits_keyed.
Qed.

(** The row of a primary key is found by its key. *)
Lemma find_by_pk (w : world T) (r : T) (i : nat) :
  keyed w -> In r (rows w) -> pk r = Some i ->
  find (same_pk i) (rows w) = Some r.
Proof.
  intros [Hnd _] Hin Hpk.
  destruct (find (same_pk i) (rows w)) as [r1|] eqn:Hf.
  - apply find_some in Hf as [Hin1 Hpk1]. f_equal.
    apply (NoDup_map_eq pk (rows w) r1 r Hnd Hin1 Hin).
    unfold same_pk in Hpk1. destruct (pk r1) as [j|]; [|discriminate].
    apply Nat.eqb_eq in Hpk1. now rewrite Hpk1, Hpk.
  - pose proof (find_none _ _ Hf r Hin) as Hno.
    unfold same_pk in Hno. rewrite Hpk, Nat.eqb_refl in Hno. discriminate.
Qed.
End Keys.

(* ================================================================== *)
(** * Saving a stored asset of the second variant again *)

Section AssetManagerResave.
Import AssetManager.

Lemma am_clash_serial (x r : Asset.t) :
  not_null r = true -> unique_clash x r = false -> Asset.serial_col x <> Asset.serial_col r.
Proof.
  simpl. intros _ Hc [= Heq]. apply orb_false_elim in Hc as [_ Hc].
  rewrite Heq in Hc. now rewrite pystr_eqb_refl in Hc.
Qed.

Lemma am_with_slug_same (self : Asset.t) (c : pystr) :
  Asset.slug self = Some c -> Asset.with_slug self c = self.
Proof. destruct self; simpl; intros ->; reflexivity. Qed.

Lemma stored_in_yield (self : Asset.t) (i : nat) (w : world Asset.t) :
  Asset.stored_in self i w -> Asset.stored_in self i (yield w).
Proof.
  intros [Hk Hs Hn Hin Hpk]. constructor; trivial.
  - now apply yield_keyed.
  - apply yield_unique; [apply am_clash_slug | exact Hs].
  - apply yield_unique; [apply am_clash_serial | exact Hn].
  - now apply yield_incl.
Qed.

(** A candidate held by another row is refused, and the rollback gives the
    stored asset back. *)
Lemma am_update_refused (self : Asset.t) (i : nat) (w : world Asset.t) (c s : pystr) :
  Asset.stored_in self i w ->
  Asset.slug self = Some s ->
  c <> s ->
  taken Asset.slug w c ->
  add_commit w (Asset.with_slug self c) = Raise IntegrityError
  /\ rollback w (Asset.with_slug self c) = self.
Proof.
  intros [Hk Hs Hn Hin Hpk] Hslug Hne (x & Hx & Hxs).
  unfold add_commit, rollback.
  change (pk (Asset.with_slug self c)) with (Asset.id self). rewrite Hpk.
  rewrite (@find_by_pk _ _ w self i Hk Hin Hpk). split; [|reflexivity].
  unfold update.
  replace (existsb (same_pk i) (rows w)) with true.
  2:{ symmetry. apply existsb_exists. exists self. split; [exact Hin|].
      unfold same_pk. change (pk self) with (Asset.id self).
      now rewrite Hpk, Nat.eqb_refl. }
  replace (forallb (fun y => same_pk i y || negb (unique_clash y (Asset.with_slug self c)))
                   (rows w)) with false; [now rewrite andb_false_r|].
  symmetry. apply not_true_is_false. intros Hall.
  rewrite forallb_forall in Hall. specialize (Hall x Hx).
  assert (Hclash : unique_clash x (Asset.with_slug self c) = true).
  { simpl. rewrite Hxs. simpl. now rewrite pystr_eqb_refl. }
  rewrite Hclash, orb_false_r in Hall.
  unfold same_pk in Hall. destruct (pk x) as [j|] eqn:Hj; [|discriminate].
  apply Nat.eqb_eq in Hall. subst j.
  assert (Hsame : x = self).
  { destruct Hk as [Hnd _].
    apply (NoDup_map_eq pk (rows w) x self Hnd Hx Hin).
    rewrite Hj. symmetry. exact Hpk. }
  subst x. rewrite Hslug in Hxs. congruence.
Qed.

(** The stored asset itself is accepted as it is. *)
Lemma am_update_accepted (self : Asset.t) (i : nat) (w : world Asset.t) (s : pystr) :
  Asset.stored_in self i w ->
  Asset.slug self = Some s ->
  exists w', add_commit w self = Return (w', self) /\ In self (rows w').
Proof.
  intros [Hk Hs Hn Hin Hpk] Hslug.
  unfold add_commit. change (pk self) with (Asset.id self). rewrite Hpk.
  assert (Hself : same_pk i self = true).
  { unfold same_pk. change (pk self) with (Asset.id self).
    now rewrite Hpk, Nat.eqb_refl. }
  unfold update.
  replace (existsb (same_pk i) (rows w)) with true
    by (symmetry; apply existsb_exists; now exists self).
  replace (not_null self) with true by (simpl; now rewrite Hslug).
  replace (forallb (fun y => same_pk i y || negb (unique_clash y self)) (rows w))
    with true.
  - simpl. eexists. split; [reflexivity|]. simpl.
    apply in_map_iff. exists self. now rewrite Hself.
  - symmetry. apply forallb_forall. intros x Hx.
    destruct (unique_clash x self) eqn:Hc; [|now rewrite orb_true_r].
    rewrite orb_false_r. simpl in Hc. apply orb_prop in Hc as [Hc|Hc].
    + rewrite Hslug in Hc. apply opt_str_eqb_eq in Hc.
      rewrite (NoDup_map_eq Asset.slug (rows w) x self Hs Hx Hin); [exact Hself|].
      now rewrite Hc, Hslug.
    + apply pystr_eqb_eq in Hc.
      rewrite (NoDup_map_eq Asset.serial_col (rows w) x self Hn Hx Hin); [exact Hself|].
      unfold Asset.serial_col. now rewrite Hc.
Qed.

(** The loop walks through the candidates that the other rows hold and
    stops at the candidate that the stored asset holds. *)
Lemma am_resave_loop (self : Asset.t) (i : nat) (base : pystr) (k : nat) (n : nat) :
  forall (fuel : nat) (w : world Asset.t) (j : nat),
    k = j + n ->
    capacity w < fuel + j ->
    Asset.stored_in self i w ->
    Asset.slug self = Some (candidate base k) ->
    (forall m, m < k -> taken Asset.slug w (candidate base m)) ->
    exists w',
      Asset.save_loop fuel w self base j = Some (w', self, Return true)
      /\ In self (rows w').
Proof.
  induction n as [|n IH]; intros fuel w j Hk Hfuel Hinv Hslug Hbefore.
  - assert (j = k) by lia. subst j.
    destruct fuel as [|fuel].
    { pose proof (@candidates_bounded _ Asset.slug w base k Hbefore).
      pose proof (rows_le_capacity w). lia. }
    simpl. rewrite current_slug_candidate, (am_with_slug_same self Hslug).
    destruct (am_update_accepted (stored_in_yield Hinv) Hslug) as (w' & -> & Hin).
    now exists w'.
  - destruct fuel as [|fuel].
    { pose proof (@candidates_bounded _ Asset.slug w base k Hbefore).
      pose proof (rows_le_capacity w). lia. }
    simpl. rewrite current_slug_candidate.
    assert (Hne : candidate base j <> candidate base k).
    { intros Heq. apply candidate_inj in Heq. lia. }
    assert (Htaken : taken Asset.slug (yield w) (candidate base j)).
    { apply taken_yield, Hbefore. lia. }
    destruct (am_update_refused (stored_in_yield Hinv) Hslug Hne Htaken)
      as [-> ->].
    destruct Htaken as (x & Hx & Hxs).
    destruct (@select_first_found _ (Asset.has_slug (candidate base j))
                (yield (yield w)) x) as (x' & ->).
    { now apply yield_incl. }
    { now apply am_has_slug_eq. }
    apply IH; trivial.
    + lia.
    + pose proof (yield_capacity w). pose proof (yield_capacity (yield w)). lia.
    + now apply stored_in_yield, stored_in_yield.
    + intros m Hm. now apply taken_yield, taken_yield, Hbefore.
Qed.
End AssetManagerResave.

(* ================================================================== *)
(** * The slug of an asset that is saved again *)

(** C5 at its failing input.  The desk stored under [office-desk] is given
    the display name [meeting table] and saved again: [save] of the second
    variant has no guard on the slug the asset holds and computes it again
    from the name, so the same asset, with the same primary key, is now
    stored under [meeting-table].  The first variant guards the assignment
    with [if not self.slug]. *)
Lemma second_variant_resave_changes_slug :
  AssetManager.Asset.slug Sample.first_desk = Some (py "office-desk")
  /\ AssetManager.Asset.id Sample.first_desk = Some 1
  /\ AssetManager.Asset.id (Sample.stored_by Sample.desk_renamed_saved Sample.first_desk)
     = Some 1
  /\ AssetManager.Asset.slug
       (Sample.stored_by Sample.desk_renamed_saved Sample.first_desk)
     = Some (py "meeting-table").
Proof. repeat split; vm_compute; reflexivity. Qed.

(** The guard of the first variant tests the truth value of the slug, so
    an empty slug counts as no slug: an asset whose display name has no
    word character is stored under the empty slug and gets [-1] when it is
    saved again. *)
Lemma first_variant_empty_slug_changes :
  Anuncio.Asset.slug (Sample.stored_by Sample.punctuation_saved Sample.punctuation)
  = Some []
  /\ Anuncio.Asset.slug
       (Sample.stored_by Sample.punctuation_saved_again Sample.punctuation)
     = Some (py "-1").
Proof. split; vm_compute; reflexivity. Qed.

(* ================================================================== *)
(** * More on the slug normaliser *)

Section SlugShapeFacts.
Variable U : tables.

Lemma collapse_no_double_hyphen (text : pystr) :
  forall in_run,
    SlugShape.double_hyphen (Slug.collapse U in_run text) = false
    /\ (in_run = true -> Slug.starts_with_hyphen (Slug.collapse U in_run text) = false).
Proof.
  induction text as [|c text IH]; intros in_run; simpl; [now split|].
  destruct (Slug.separator U c) eqn:Hsep.
  - destruct in_run.
    + exact (IH true).
    + destruct (IH true) as [Hd Hs]. specialize (Hs eq_refl). split; [|discriminate].
      simpl. destruct (Slug.collapse U true text) as [|b rest]; [reflexivity|].
      simpl in Hs. rewrite Hs. exact Hd.
  - assert (Hc : N.eqb c hyphen = false).
    { unfold Slug.separator in Hsep. now apply orb_false_elim in Hsep as [Hc _]. }
    destruct (IH false) as [Hd _]. split; [|now simpl].
    simpl. destruct (Slug.collapse U false text) as [|b rest]; [reflexivity|].
    rewrite Hc. exact Hd.
Qed.

Lemma double_hyphen_cons (a b : codepoint) (rest : pystr) :
  SlugShape.double_hyphen (a :: b :: rest)
  = (N.eqb a hyphen && N.eqb b hyphen) || SlugShape.double_hyphen (b :: rest).
Proof. reflexivity. Qed.

Lemma double_hyphen_tail (c : codepoint) (s : pystr) :
  SlugShape.double_hyphen (c :: s) = false -> SlugShape.double_hyphen s = false.
Proof.
  simpl. destruct s as [|b rest]; [reflexivity|].
  intros H. now apply orb_false_elim in H as [_ H].
Qed.

Lemma lstrip_no_double_hyphen (p : codepoint -> bool) (s : pystr) :
  SlugShape.double_hyphen s = false -> SlugShape.double_hyphen (lstrip p s) = false.
Proof.
  induction s as [|c s IH]; [reflexivity|].
  intros H. simpl lstrip. destruct (p c); [|exact H].
  apply IH. eapply double_hyphen_tail; exact H.
Qed.

Lemma rstrip_no_double_hyphen (p : codepoint -> bool) (s : pystr) :
  SlugShape.double_hyphen s = false -> SlugShape.double_hyphen (rstrip p s) = false.
Proof.
  induction s as [|c s IH]; [reflexivity|].
  intros H. pose proof (double_hyphen_tail _ _ H) as Ht. specialize (IH Ht).
  simpl rstrip.
  destruct (rstrip p s) as [|b rest] eqn:Hr.
  - now destruct (p c).
  - apply rstrip_head in Hr as [s' ->].
    rewrite double_hyphen_cons in H |- *. apply orb_false_elim in H as [H _].
    now rewrite H, IH.
Qed.
End SlugShapeFacts.

(** X1.  Whatever the display name, the base slug of the first variant
    never holds two hyphens in a row: every run of whitespace and hyphens
    of the name is one hyphen in the slug. *)
Theorem simple_slugify_single_hyphens (U : tables) (name : pystr) :
  SlugShape.double_hyphen (Slug._simple_slugify U name) = false.
Proof.
  unfold Slug._simple_slugify, strip.
  apply rstrip_no_double_hyphen, lstrip_no_double_hyphen.
  apply (collapse_no_double_hyphen U).
Qed.

Section SlugFixedPoint.
Variable U : tables.

Lemma lower_from_ascii (s before : pystr) :
  forallb is_ascii s = true -> lower_from U before s = map SlugShape.ascii_lower_cp s.
Proof.
  revert before; induction s as [|c s IH]; intros before; simpl; [reflexivity|].
  intros Hs. apply andb_prop in Hs as [Hc Hs].
  rewrite (IH _ Hs). unfold lower_cp, SlugShape.ascii_lower_cp.
  destruct (ascii_upper c); [reflexivity|]. now rewrite Hc.
Qed.

Lemma ascii_lower_cp_shape (c : codepoint) :
  is_ascii c = true ->
  SlugShape.ascii_not_upper (SlugShape.ascii_lower_cp c) = true
  /\ is_word U (SlugShape.ascii_lower_cp c) = is_word U c
  /\ Slug.separator U (SlugShape.ascii_lower_cp c) = Slug.separator U c.
Proof.
  intros Ha. unfold SlugShape.ascii_lower_cp, SlugShape.ascii_not_upper.
  destruct (ascii_upper c) eqn:Hu.
  - repeat split; ranges.
  - rewrite Ha, Hu. now repeat split.
Qed.

Lemma lower_fixed (s : pystr) :
  forallb SlugShape.ascii_not_upper s = true -> lower U s = s.
Proof.
  intros Hs. unfold lower. rewrite lower_from_ascii.
  - induction s as [|c s IH]; simpl; [reflexivity|].
    simpl in Hs. apply andb_prop in Hs as [Hc Hs]. rewrite (IH Hs).
    unfold SlugShape.ascii_lower_cp. unfold SlugShape.ascii_not_upper in Hc.
    apply andb_prop in Hc as [_ Hc]. apply negb_true_iff in Hc. now rewrite Hc.
  - apply forallb_forall. intros c Hc. rewrite forallb_forall in Hs.
    specialize (Hs c Hc). unfold SlugShape.ascii_not_upper in Hs.
    now apply andb_prop in Hs as [Hs _].
Qed.

Lemma filter_fixed {A : Type} (f : A -> bool) (l : list A) :
  forallb f l = true -> filter f l = l.
Proof.
  induction l as [|a l IH]; simpl; [reflexivity|].
  intros H. apply andb_prop in H as [Ha Hl]. now rewrite Ha, (IH Hl).
Qed.

Lemma collapse_fixed (s : pystr) :
  forall in_run,
    Forall (fun c => Slug.separator U c = N.eqb c hyphen) s ->
    SlugShape.double_hyphen s = false ->
    (in_run = true -> Slug.starts_with_hyphen s = false) ->
    Slug.collapse U in_run s = s.
Proof.
  induction s as [|c s IH]; intros in_run Hsep Hd Hstart; simpl; [reflexivity|].
  inversion Hsep as [|? ? Hc Hrest]; subst.
  pose proof (double_hyphen_tail _ _ Hd) as Hd'.
  rewrite Hc. destruct (N.eqb c hyphen) eqn:Hh.
  - destruct in_run.
    + specialize (Hstart eq_refl). simpl in Hstart. congruence.
    + apply N.eqb_eq in Hh. subst c. f_equal. apply IH; trivial.
      intros _. destruct s as [|b rest]; [reflexivity|].
      rewrite double_hyphen_cons in Hd. apply orb_false_elim in Hd as [Hd _].
      simpl in Hd |- *. exact Hd.
  - f_equal. apply IH; trivial. discriminate.
Qed.

Lemma lstrip_fixed (p : codepoint -> bool) (s : pystr) :
  match s with c :: _ => p c = false | [] => True end -> lstrip p s = s.
Proof. destruct s as [|c s]; simpl; [reflexivity|]. now intros ->. Qed.

Lemma rstrip_snoc (p : codepoint -> bool) (l : pystr) (x : codepoint) :
  p x = false -> rstrip p (l ++ [x]) = l ++ [x].
Proof.
  intros Hx. induction l as [|c l IH]; simpl; [now rewrite Hx|].
  rewrite IH. destruct (l ++ [x]) eqn:Hl; [|reflexivity].
  symmetry in Hl. now apply app_cons_not_nil in Hl.
Qed.

Lemma rstrip_fixed (p : codepoint -> bool) (s : pystr) :
  match rev s with c :: _ => p c = false | [] => True end -> rstrip p s = s.
Proof.
  destruct s as [|c s] using rev_ind; [reflexivity|].
  rewrite rev_app_distr. simpl. apply rstrip_snoc.
Qed.

(** A text stripped of hyphens at both ends is not stripped further. *)
Lemma strip_fixed (p : codepoint -> bool) (s : pystr) :
  strip p (strip p s) = strip p s.
Proof.
  destruct (strip_edges p s) as [Hhead Hlast].
  unfold strip at 1. rewrite lstrip_fixed by exact Hhead.
  now apply rstrip_fixed.
Qed.
End SlugFixedPoint.

Section SlugContents.
Variable U : tables.

Lemma collapse_Forall (P : codepoint -> Prop) (text : pystr) :
  P hyphen -> Forall P text -> forall in_run, Forall P (Slug.collapse U in_run text).
Proof.
  intros Hh Ht. induction Ht as [|c text Hc Ht IH]; intros in_run; simpl; [constructor|].
  destruct (Slug.separator U c).
  - destruct in_run; [apply IH | constructor; [exact Hh | apply IH]].
  - constructor; [exact Hc | apply IH].
Qed.

Lemma collapse_all_separators (text : pystr) :
  Forall (fun c => Slug.separator U c = true) text ->
  Slug.collapse U true text = []
  /\ (Slug.collapse U false text = [] \/ Slug.collapse U false text = [hyphen]).
Proof.
  induction 1 as [|c text Hc Ht [IHt IHf]]; simpl; [auto|].
  rewrite Hc, IHt. auto.
Qed.

Lemma collapse_keeps (c : codepoint) (text : pystr) :
  In c text -> Slug.separator U c = false ->
  forall in_run, In c (Slug.collapse U in_run text).
Proof.
  intros Hin Hc. induction text as [|d text IH]; intros in_run; [easy|].
  simpl. destruct Hin as [->|Hin].
  - rewrite Hc. now left.
  - destruct (Slug.separator U d).
    + destruct in_run; [now apply IH | right; now apply IH].
    + right. now apply IH.
Qed.

Lemma lstrip_keeps (p : codepoint -> bool) (c : codepoint) (s : pystr) :
  In c s -> p c = false -> In c (lstrip p s).
Proof.
  intros Hin Hc. induction s as [|d s IH]; [easy|].
  simpl. destruct (p d) eqn:Hd; [|exact Hin].
  destruct Hin as [->|Hin]; [congruence | now apply IH].
Qed.

Lemma rstrip_keeps (p : codepoint -> bool) (c : codepoint) (s : pystr) :
  In c s -> p c = false -> In c (rstrip p s).
Proof.
  intros Hin Hc. induction s as [|d s IH]; [easy|].
  simpl. destruct Hin as [->|Hin].
  - destruct (rstrip p s); [rewrite Hc|]; now left.
  - specialize (IH Hin). destruct (rstrip p s); [easy | now right].
Qed.

(** What the normaliser makes of ASCII text before the final strip. *)
Lemma collapsed_ascii_shape (name : pystr) :
  forallb is_ascii name = true ->
  Forall (fun c => SlugShape.ascii_not_upper c = true
                   /\ Slug.is_hyphen c || is_word U c = true)
         (Slug.collapse U false (Slug.drop_unwanted U (lower U name))).
Proof.
  intros Ha. apply Forall_and.
  - apply collapse_Forall; [reflexivity|].
    apply drop_unwanted_Forall. unfold lower. rewrite lower_from_ascii by exact Ha.
    apply Forall_forall. intros c Hc. apply in_map_iff in Hc as (d & <- & Hd).
    rewrite forallb_forall in Ha. now apply ascii_lower_cp_shape, Ha.
  - apply collapse_word_or_hyphen, drop_unwanted_kept.
Qed.

Lemma ascii_word_not_separator (c : codepoint) :
  is_ascii c = true -> is_word U c = true -> Slug.separator U c = false.
Proof. intros Ha Hw. ranges. Qed.
End SlugContents.

(** X2.  The normaliser of the first variant leaves its own results alone:
    the base slug of an ASCII display name is its own base slug. *)
Theorem simple_slugify_idempotent (U : tables) (name : pystr) :
  forallb is_ascii name = true ->
  Slug._simple_slugify U (Slug._simple_slugify U name) = Slug._simple_slugify U name.
Proof.
  intros Ha.
  pose proof (collapsed_ascii_shape U name Ha) as Hshape.
  pose proof (collapse_no_double_hyphen U (Slug.drop_unwanted U (lower U name)) false)
    as [Hd _].
  unfold Slug._simple_slugify at 2.
  set (text := Slug.collapse U false (Slug.drop_unwanted U (lower U name))) in *.
  assert (Hs : Forall (fun c => SlugShape.ascii_not_upper c = true
                                /\ Slug.is_hyphen c || is_word U c = true)
                      (strip Slug.is_hyphen text)) by now apply strip_Forall.
  assert (Hd' : SlugShape.double_hyphen (strip Slug.is_hyphen text) = false).
  { unfold strip. now apply rstrip_no_double_hyphen, lstrip_no_double_hyphen. }
  unfold Slug._simple_slugify.
  rewrite lower_fixed.
  2:{ apply forallb_forall. rewrite Forall_forall in Hs. intros c Hc. now apply Hs. }
  unfold Slug.drop_unwanted. rewrite filter_fixed.
  2:{ apply forallb_forall. rewrite Forall_forall in Hs. intros c Hc.
      destruct (Hs c Hc) as [_ Hk]. unfold Slug.kept, Slug.is_hyphen in *.
      destruct (is_word U c), (N.eqb c hyphen), (is_space U c); simpl in *; congruence. }
  rewrite collapse_fixed; trivial; [apply strip_fixed | | discriminate].
  eapply Forall_impl; [|exact Hs]. intros c [Hau Hk].
  unfold SlugShape.ascii_not_upper in Hau. apply andb_prop in Hau as [Hac _].
  unfold Slug.is_hyphen in Hk. destruct (N.eqb c hyphen) eqn:Hh.
  - unfold Slug.separator. now rewrite Hh.
  - simpl in Hk. now apply ascii_word_not_separator.
Qed.

Lemma simple_slugify_idempotent_witness :
  Slug._simple_slugify ascii_only
    (Slug._simple_slugify ascii_only (py "  Hello,  World_42 -- ok! "))
  = Slug._simple_slugify ascii_only (py "  Hello,  World_42 -- ok! ").
Proof.
  apply (simple_slugify_idempotent ascii_only (py "  Hello,  World_42 -- ok! ")).
  reflexivity.
Defined.

(** X3.  The base slug of an ASCII display name is empty exactly when the
    name holds no letter, digit or underscore: a name of punctuation,
    whitespace and hyphens only, or the empty name, gets the empty slug. *)
Theorem simple_slugify_empty (U : tables) (name : pystr) :
  forallb is_ascii name = true ->
  (Slug._simple_slugify U name = []
   <-> forallb (fun c => negb (is_word U c)) name = true).
Proof.
  intros Ha. unfold Slug._simple_slugify, lower.
  rewrite lower_from_ascii by exact Ha. split.
  - intros Hempty.
    destruct (forallb (fun c => negb (is_word U c)) name) eqn:Hall; [reflexivity|].
    exfalso. apply forallb_false_witness in Hall as (c & Hc & Hw).
    apply negb_false_iff in Hw.
    rewrite forallb_forall in Ha. specialize (Ha c Hc).
    destruct (ascii_lower_cp_shape U c Ha) as (Hau & Hword & _).
    rewrite Hw in Hword.
    assert (Hac : is_ascii (SlugShape.ascii_lower_cp c) = true).
    { unfold SlugShape.ascii_not_upper in Hau. now apply andb_prop in Hau as [Hau _]. }
    pose proof (ascii_word_not_separator U _ Hac Hword) as Hsep.
    assert (Hin : In (SlugShape.ascii_lower_cp c)
                     (strip Slug.is_hyphen
                        (Slug.collapse U false
                           (Slug.drop_unwanted U (map SlugShape.ascii_lower_cp name))))).
    { assert (Hh : Slug.is_hyphen (SlugShape.ascii_lower_cp c) = false).
      { unfold Slug.separator in Hsep. now apply orb_false_elim in Hsep as [Hh _]. }
      unfold strip. apply rstrip_keeps; [|exact Hh]. apply lstrip_keeps; [|exact Hh].
      apply collapse_keeps; [|exact Hsep].
      apply filter_In. split; [now apply in_map|].
      unfold Slug.kept. now rewrite Hword. }
    rewrite Hempty in Hin. exact Hin.
  - intros Hall.
    assert (Hsep : Forall (fun c => Slug.separator U c = true)
                          (Slug.drop_unwanted U (map SlugShape.ascii_lower_cp name))).
    { apply Forall_forall. intros c Hc. apply filter_In in Hc as [Hc Hk].
      apply in_map_iff in Hc as (d & <- & Hd).
      rewrite forallb_forall in Ha, Hall.
      destruct (ascii_lower_cp_shape U d (Ha d Hd)) as (_ & Hword & _).
      specialize (Hall d Hd). apply negb_true_iff in Hall.
      unfold Slug.kept in Hk. rewrite Hword, Hall in Hk. simpl in Hk.
      unfold Slug.separator. now rewrite orb_comm. }
    destruct (collapse_all_separators U Hsep) as [_ [-> | ->]]; reflexivity.
Qed.

Lemma simple_slugify_empty_witness :
  Slug._simple_slugify ascii_only (py " -- !!! -- ") = [].
Proof.
  apply (proj2 (simple_slugify_empty ascii_only (py " -- !!! -- ") eq_refl)).
  reflexivity.
Defined.

(* ================================================================== *)
(** * How the creation of an asset ends *)

Lemma yield_others {T : Type} `{Model T} (w : world T) :
  others (yield w) = tl (others w).
Proof.
  unfold yield. destruct (others w) as [|st rest] eqn:Ho; [now rewrite Ho|].
  now rewrite foreign_commits_others.
Qed.

Lemma anuncio_probe_others (fuel : nat) :
  forall (w w' : world Anuncio.Asset.t) (base slug s : pystr) (counter : nat),
    Anuncio.Asset.probe fuel w base slug counter = Some (w', s) ->
    List.length (others w') <= pred (List.length (others w)).
Proof.
  induction fuel as [|fuel IH]; intros w w' base slug s counter; simpl; [discriminate|].
  assert (Hy : List.length (others (yield w)) = pred (List.length (others w))).
  { rewrite yield_others. now destruct (others w). }
  destruct (Anuncio.Asset.get_by_slug (yield w) slug).
  - intros Hp. apply IH in Hp. lia.
  - intros [= <- _]. lia.
Qed.

Lemma anuncio_insert_new (w w' : world Anuncio.Asset.t) (self stored : Anuncio.Asset.t) :
  insert w self = Return (w', stored) ->
  In stored (rows w')
  /\ incl (rows w) (rows w')
  /\ Anuncio.Asset.slug stored = Anuncio.Asset.slug self
  /\ Anuncio.Asset.name stored = Anuncio.Asset.name self
  /\ Anuncio.Asset.user_id stored = Anuncio.Asset.user_id self
  /\ Anuncio.Asset.id stored = Some (next_id w).
Proof.
  intros Hi. apply insert_inv in Hi as (-> & -> & _).
  repeat split; trivial.
  - apply in_or_app. right. now left.
  - apply incl_appl, incl_refl.
Qed.

(** X4.  Saving a new asset of the first variant, whatever rows the other
    writers add meanwhile, ends in one of two ways: the asset is stored,
    under a candidate slug of its display name, or [IntegrityError] is
    raised and the table holds no row beyond those of the other writers.
    The NOT NULL and UNIQUE constraints of the table make [save] raise
    nothing else, and no stored row is lost. *)
Theorem anuncio_create_outcome (E : externals) (w : world Anuncio.Asset.t)
        (self : Anuncio.Asset.t) :
  Anuncio.Asset.id self = None ->
  truthy (Anuncio.Asset.slug self) = false ->
  exists w' self' r,
    Anuncio.Asset.save E w self = Some (w', self', r)
    /\ incl (rows w) (rows w')
    /\ ((r = Return tt
         /\ In self' (rows w')
         /\ Anuncio.Asset.name self' = Anuncio.Asset.name self
         /\ Anuncio.Asset.user_id self' = Anuncio.Asset.user_id self
         /\ exists k,
              Anuncio.Asset.slug self'
              = Some (candidate (Slug._simple_slugify (unicode E) (Anuncio.Asset.name self)) k))
        \/ (r = Raise IntegrityError
            /\ Anuncio.Asset.id self' = None
            /\ capacity w' <= capacity w)).
Proof.
  intros Hid Hfalsy. unfold Anuncio.Asset.save, Anuncio.Asset.save_with.
  rewrite Hfalsy.
  set (base := Slug._simple_slugify (unicode E) (Anuncio.Asset.name self)).
  destruct (@anuncio_generate_unique_slug E w (Anuncio.Asset.name self) (S (capacity w)))
    as (w1 & k1 & -> & _ & _ & Hi1 & Hc1 & _); [lia|].
  fold base.
  pose proof (yield_incl w1) as Hiy1. pose proof (yield_capacity w1) as Hcy1.
  unfold add_commit, rollback.
  change (pk (Anuncio.Asset.with_slug self (candidate base k1))) with (Anuncio.Asset.id self).
  rewrite Hid.
  destruct (insert (yield w1) _) as [[w2 stored]|e] eqn:Hins.
  - apply anuncio_insert_new in Hins as (Hin & Hi2 & Hslug & Hname & Huser & _).
    exists w2, stored, (Return tt). split; [reflexivity|]. split.
    + eapply incl_tran; [exact Hi1|]. eapply incl_tran; eassumption.
    + left. repeat split; trivial. now exists k1.
  - apply insert_raises in Hins as ->.
    change (Anuncio.Asset.name (Anuncio.Asset.with_slug self (candidate base k1)))
      with (Anuncio.Asset.name self).
    destruct (@anuncio_generate_unique_slug E (yield w1) (Anuncio.Asset.name self)
                (S (capacity w)))
      as (w3 & k3 & -> & _ & _ & Hi3 & Hc3 & _); [lia|].
    fold base.
    pose proof (yield_incl w3) as Hiy3. pose proof (yield_capacity w3) as Hcy3.
    change (pk (Anuncio.Asset.with_slug
                  (Anuncio.Asset.with_slug self (candidate base k1)) (candidate base k3)))
      with (Anuncio.Asset.id self).
    rewrite Hid.
    assert (Hincl : incl (rows w) (rows (yield w3))).
    { eapply incl_tran; [exact Hi1|]. eapply incl_tran; [exact Hiy1|].
      eapply incl_tran; eassumption. }
    destruct (insert (yield w3) _) as [[w4 stored]|e] eqn:Hins.
    + apply anuncio_insert_new in Hins as (Hin & Hi4 & Hslug & Hname & Huser & _).
      exists w4, stored, (Return tt). split; [reflexivity|]. split.
      * eapply incl_tran; eassumption.
      * left. repeat split; trivial. now exists k3.
    + apply insert_raises in Hins as ->.
      eexists _, _, _. split; [reflexivity|]. split; [exact Hincl|].
      right. repeat split; trivial. lia.
Qed.

Lemma anuncio_create_outcome_witness :
  exists w' self' r,
    Anuncio.Asset.save Sample.libraries Sample.two_collisions Sample.laptop
    = Some (w', self', r)
    /\ incl (rows Sample.two_collisions) (rows w')
    /\ ((r = Return tt
         /\ In self' (rows w')
         /\ Anuncio.Asset.name self' = Anuncio.Asset.name Sample.laptop
         /\ Anuncio.Asset.user_id self' = Anuncio.Asset.user_id Sample.laptop
         /\ exists k,
              Anuncio.Asset.slug self'
              = Some (candidate
                        (Slug._simple_slugify (unicode Sample.libraries)
                           (Anuncio.Asset.name Sample.laptop)) k))
        \/ (r = Raise IntegrityError
            /\ Anuncio.Asset.id self' = None
            /\ capacity w' <= capacity Sample.two_collisions)).
Proof.
  apply (anuncio_create_outcome Sample.libraries Sample.two_collisions Sample.laptop);
    reflexivity.
Defined.

(** X5.  One lost race is absorbed by the first variant: when the other
    writers act before no more than the first two database statements of
    the save (the probe and the commit, when the first probe finds the slug
    free), a new asset is stored, whatever they commit there. *)
Theorem anuncio_save_absorbs_one_race (E : externals) (w : world Anuncio.Asset.t)
        (self : Anuncio.Asset.t) :
  Anuncio.Asset.id self = None ->
  truthy (Anuncio.Asset.slug self) = false ->
  List.length (others w) <= 2 ->
  exists w' stored,
    Anuncio.Asset.save E w self = Some (w', stored, Return tt)
    /\ In stored (rows w')
    /\ Anuncio.Asset.name stored = Anuncio.Asset.name self.
Proof.
  intros Hid Hfalsy Hlen. unfold Anuncio.Asset.save, Anuncio.Asset.save_with.
  rewrite Hfalsy.
  set (base := Slug._simple_slugify (unicode E) (Anuncio.Asset.name self)).
  destruct (@anuncio_generate_unique_slug E w (Anuncio.Asset.name self) (S (capacity w)))
    as (w1 & k1 & Hgen & _ & _ & _ & Hc1 & _); [lia|].
  rewrite Hgen. fold base.
  assert (Hquiet : quiet (yield w1)).
  { unfold Anuncio.Asset._generate_unique_slug in Hgen.
    apply anuncio_probe_others in Hgen.
    unfold quiet. rewrite yield_others.
    destruct (others w1) as [|st [|st' rest]]; trivial. simpl in Hgen. lia. }
  pose proof (yield_capacity w1) as Hcy1.
  unfold add_commit, rollback.
  change (pk (Anuncio.Asset.with_slug self (candidate base k1))) with (Anuncio.Asset.id self).
  rewrite Hid.
  destruct (insert (yield w1) _) as [[w2 stored]|e] eqn:Hins.
  - apply anuncio_insert_new in Hins as (Hin & _ & _ & Hname & _).
    now exists w2, stored.
  - apply insert_raises in Hins as ->.
    change (Anuncio.Asset.name (Anuncio.Asset.with_slug self (candidate base k1)))
      with (Anuncio.Asset.name self).
    destruct (@anuncio_generate_unique_slug E (yield w1) (Anuncio.Asset.name self)
                (S (capacity w)))
      as (w3 & k3 & -> & _ & Hfree & _ & _ & Hsame); [lia|].
    fold base. specialize (Hsame Hquiet). subst w3.
    rewrite (yield_quiet Hquiet).
    change (pk (Anuncio.Asset.with_slug
                  (Anuncio.Asset.with_slug self (candidate base k1)) (candidate base k3)))
      with (Anuncio.Asset.id self).
    rewrite Hid.
    destruct (@anuncio_insert_free (yield w1)
                (Anuncio.Asset.with_slug
                   (Anuncio.Asset.with_slug self (candidate base k1)) (candidate base k3))
                (candidate base k3) eq_refl Hfree)
      as (w4 & stored & -> & _ & Hname & Hrows & _).
    exists w4, stored. repeat split; trivial.
    rewrite Hrows. apply in_or_app. right. now left.
Qed.

Lemma anuncio_save_absorbs_one_race_witness :
  exists w' stored,
    Anuncio.Asset.save Sample.libraries Races.one_collision Sample.laptop
    = Some (w', stored, Return tt)
    /\ In stored (rows w')
    /\ Anuncio.Asset.name stored = Anuncio.Asset.name Sample.laptop.
Proof.
  apply (anuncio_save_absorbs_one_race Sample.libraries Races.one_collision Sample.laptop).
  - reflexivity.
  - reflexivity.
  - vm_compute. lia.
Defined.

(** X6.  The creation of an asset keeps the table well formed in both
    variants, whatever the other writers commit and however [save] ends:
    every row keeps a primary key of its own, and no two rows share a slug
    (nor, in the second variant, a serial number). *)
Theorem creation_keeps_indexes (E : externals) :
  (forall (w w' : world Anuncio.Asset.t) (self self' : Anuncio.Asset.t) r,
      Anuncio.Asset.id self = None ->
      keyed w /\ unique Anuncio.Asset.slug w ->
      Anuncio.Asset.save E w self = Some (w', self', r) ->
      keyed w' /\ unique Anuncio.Asset.slug w')
  /\ (forall (w w' : world AssetManager.Asset.t) (self self' : AssetManager.Asset.t) r,
      AssetManager.Asset.id self = None ->
      keyed w /\ unique AssetManager.Asset.slug w
      /\ unique AssetManager.Asset.serial_col w ->
      AssetManager.Asset.save E w self = Some (w', self', r) ->
      keyed w' /\ unique AssetManager.Asset.slug w'
      /\ unique AssetManager.Asset.serial_col w').
Proof.
  split; intros w w' self self' r Hid Hw Hs.
  - eapply (@anuncio_create_invariant E
              (fun w0 => keyed w0 /\ unique Anuncio.Asset.slug w0)); try eassumption.
    + intros w0 [Hk Hu]. split.
      * now apply yield_keyed.
      * apply yield_unique; [apply anuncio_clash_slug | exact Hu].
    + intros w0 r0 w1 r1 [Hk Hu] Hi. split.
      * eapply insert_keyed; [reflexivity | exact Hk | exact Hi].
      * eapply insert_unique; [apply anuncio_clash_slug | exact Hu | exact Hi].
  - unfold AssetManager.Asset.save in Hs.
    eapply (@am_create_loop_invariant
              (fun w0 => keyed w0 /\ unique AssetManager.Asset.slug w0
                         /\ unique AssetManager.Asset.serial_col w0)); try eassumption.
    + intros w0 (Hk & Hu & Hn). split; [|split].
      * now apply yield_keyed.
      * apply yield_unique; [apply am_clash_slug | exact Hu].
      * apply yield_unique; [apply am_clash_serial | exact Hn].
    + intros w0 r0 w1 r1 (Hk & Hu & Hn) Hi. split; [|split].
      * eapply insert_keyed; [reflexivity | exact Hk | exact Hi].
      * eapply insert_unique; [apply am_clash_slug | exact Hu | exact Hi].
      * eapply insert_unique; [apply am_clash_serial | exact Hn | exact Hi].
Qed.

Lemma creation_keeps_indexes_witness :
  keyed (Sample.world_after Races.third_desk_saved Races.crowded)
  /\ unique AssetManager.Asset.slug
       (Sample.world_after Races.third_desk_saved Races.crowded)
  /\ unique AssetManager.Asset.serial_col
       (Sample.world_after Races.third_desk_saved Races.crowded).
Proof.
  apply (proj2 (creation_keeps_indexes Sample.libraries)
           Races.crowded (Sample.world_after Races.third_desk_saved Races.crowded)
           (Sample.desk "SN-3")
           (Sample.stored_by Races.third_desk_saved (Sample.desk "SN-3"))
           (Return true)).
  - reflexivity.
  - split; [split|split].
    + vm_compute. repeat constructor; simpl; intuition discriminate.
    + intros r Hr. vm_compute in Hr.
      destruct Hr as [<-|[<-|[]]]; eexists; split; try reflexivity; vm_compute; lia.
    + vm_compute. repeat constructor; simpl; intuition discriminate.
    + vm_compute. repeat constructor; simpl; intuition discriminate.
  - vm_compute. reflexivity.
Defined.

Lemma am_insert_new (w w' : world AssetManager.Asset.t)
      (self stored : AssetManager.Asset.t) :
  insert w self = Return (w', stored) ->
  rows w' = rows w ++ [stored]
  /\ others w' = others w
  /\ AssetManager.Asset.slug stored = AssetManager.Asset.slug self
  /\ AssetManager.Asset.name stored = AssetManager.Asset.name self
  /\ AssetManager.Asset.serial_number stored = AssetManager.Asset.serial_number self
  /\ AssetManager.Asset.description stored = AssetManager.Asset.description self
  /\ AssetManager.Asset.user_id stored = AssetManager.Asset.user_id self
  /\ (forall x, In x (rows w) ->
        AssetManager.Asset.serial_number x <> AssetManager.Asset.serial_number self).
Proof.
  intros Hi. apply insert_inv in Hi as (-> & Hrows & _ & Ho & _ & Hall).
  repeat split; trivial.
  intros x Hx Heq. rewrite forallb_forall in Hall. specialize (Hall x Hx).
  simpl in Hall. rewrite Heq, pystr_eqb_refl, orb_true_r in Hall. discriminate.
Qed.

(** How the commit loop of the second variant ends for a new asset. *)
Lemma am_create_loop_outcome (fuel : nat) :
  forall (w w' : world AssetManager.Asset.t) (self self' : AssetManager.Asset.t)
         (base : pystr) (k : nat) (r : result bool),
    AssetManager.Asset.id self = None ->
    AssetManager.Asset.save_loop fuel w self base k = Some (w', self', r) ->
    incl (rows w) (rows w')
    /\ ((r = Return true
         /\ In self' (rows w')
         /\ AssetManager.Asset.name self' = AssetManager.Asset.name self
         /\ AssetManager.Asset.serial_number self' = AssetManager.Asset.serial_number self
         /\ AssetManager.Asset.description self' = AssetManager.Asset.description self
         /\ AssetManager.Asset.user_id self' = AssetManager.Asset.user_id self
         /\ exists k', AssetManager.Asset.slug self' = Some (candidate base k')
                       /\ k <= k' /\ k' < k + fuel)
        \/ (r = Raise (ValueError AssetManager.Asset.serial_exists)
            /\ capacity w' <= capacity w
            /\ exists x, In x (rows w')
                         /\ AssetManager.Asset.serial_number x
                            = AssetManager.Asset.serial_number self)).
Proof.
  induction fuel as [|fuel IH]; intros w w' self self' base k r Hid Hloop;
    [discriminate|].
  pose proof (am_save_loop_no_integrity_error _ _ _ _ _ Hloop) as Hnot.
  simpl in Hloop. rewrite current_slug_candidate in Hloop.
  unfold add_commit, rollback in Hloop.
  change (pk (AssetManager.Asset.with_slug self (candidate base k)))
    with (AssetManager.Asset.id self) in Hloop.
  rewrite Hid in Hloop.
  pose proof (yield_incl w) as Hi1. pose proof (yield_capacity w) as Hc1.
  pose proof (yield_incl (yield w)) as Hi2. pose proof (yield_capacity (yield w)) as Hc2.
  pose proof (yield_incl (yield (yield w))) as Hi3.
  pose proof (yield_capacity (yield (yield w))) as Hc3.
  destruct (insert (yield w) _) as [[w1 stored]|e] eqn:Hins.
  - injection Hloop as <- <- <-.
    apply am_insert_new in Hins as (Hrows & _ & Hslug & Hname & Hserial & Hdesc & Huser & _).
    split.
    + rewrite Hrows. eapply incl_tran; [exact Hi1 | apply incl_appl, incl_refl].
    + left. repeat split; trivial.
      * rewrite Hrows. apply in_or_app. right. now left.
      * exists k. split; [exact Hslug | lia].
  - apply insert_raises in Hins as ->.
    destruct (select_first (AssetManager.Asset.has_slug (candidate base k))
                           (yield (yield w))).
    + apply IH in Hloop as [Hincl Hout]; [|exact Hid]. split.
      * eapply incl_tran; [exact Hi1|]. eapply incl_tran; eassumption.
      * destruct Hout as [Hok|(Hr & Hc & Hx)].
        -- left. destruct Hok as (Hr & Hin & Hn & Hs & Hd & Hu & k' & Hslug & Hk).
           repeat split; trivial. exists k'. split; [exact Hslug | lia].
        -- right. repeat split; trivial. lia.
    + destruct (select_first (AssetManager.Asset.has_serial _) (yield (yield (yield w))))
        as [x|] eqn:Hsel; injection Hloop as <- <- <-; [|congruence].
      split.
      * eapply incl_tran; [exact Hi1|]. eapply incl_tran; eassumption.
      * right. repeat split; [lia|].
        apply select_first_some in Hsel as [Hx Hs]. exists x. split; [exact Hx|].
        now apply pystr_eqb_eq in Hs.
Qed.

(** The candidates up to a counter fit the slug column, and an asset with
    the texts of one that fits its columns fits them too. *)
Lemma slugs_fit_at (base : pystr) (upto k : nat) :
  Columns.slugs_fit base upto = true -> k <= upto ->
  Columns.varchar 150 (candidate base k) = true.
Proof.
  unfold Columns.slugs_fit. rewrite forallb_forall. intros Hall Hk.
  apply Hall. apply in_seq. lia.
Qed.

Lemma asset_fits_same (a b : AssetManager.Asset.t) :
  AssetManager.Asset.name a = AssetManager.Asset.name b ->
  AssetManager.Asset.serial_number a = AssetManager.Asset.serial_number b ->
  AssetManager.Asset.description a = AssetManager.Asset.description b ->
  Columns.asset_fits b = true -> Columns.asset_fits a = true.
Proof. unfold Columns.asset_fits. now intros -> -> ->. Qed.

(** X7.  Saving a new asset of the second variant whose texts fit their
    columns, whose candidate slugs fit theirs and whose owner is a stored
    user, whatever rows the other writers add meanwhile, ends in one of two
    ways: the asset is stored with the fields it was given, under a
    candidate slug of its display name, and the stored row fits its columns;
    or [ValueError] reports the serial number, which a stored row then
    holds, and the table holds no row beyond those of the other writers.  A
    refusal by the unique indexes never leaves [save] as [IntegrityError],
    and no stored row is lost. *)
Theorem am_create_outcome (E : externals) (users : world AssetManager.User.t)
        (w : world AssetManager.Asset.t) (self : AssetManager.Asset.t) :
  AssetManager.Asset.id self = None ->
  Columns.asset_fits self = true ->
  Columns.slugs_fit (slugify E (AssetManager.Asset.name self)) (capacity w) = true ->
  Columns.owner_stored users (AssetManager.Asset.user_id self) = true ->
  exists w' self' r,
    AssetManager.Asset.save E w self = Some (w', self', r)
    /\ incl (rows w) (rows w')
    /\ ((r = Return true
         /\ In self' (rows w')
         /\ AssetManager.Asset.name self' = AssetManager.Asset.name self
         /\ AssetManager.Asset.serial_number self' = AssetManager.Asset.serial_number self
         /\ AssetManager.Asset.description self' = AssetManager.Asset.description self
         /\ AssetManager.Asset.user_id self' = AssetManager.Asset.user_id self
         /\ Columns.asset_fits self' = true
         /\ Columns.owner_stored users (AssetManager.Asset.user_id self') = true
         /\ exists k,
              AssetManager.Asset.slug self'
              = Some (candidate (slugify E (AssetManager.Asset.name self)) k)
              /\ Columns.varchar 150
                   (candidate (slugify E (AssetManager.Asset.name self)) k) = true)
        \/ (r = Raise (ValueError AssetManager.Asset.serial_exists)
            /\ capacity w' <= capacity w
            /\ exists x, In x (rows w')
                         /\ AssetManager.Asset.serial_number x
                            = AssetManager.Asset.serial_number self)).
Proof.
  intros Hid Hfits Hslugs Howner.
  destruct (am_save_total E w self) as (w' & self' & r & Hs).
  exists w', self', r. split; [exact Hs|].
  unfold AssetManager.Asset.save in Hs.
  apply am_create_loop_outcome in Hs as [Hincl [Hok|Herr]]; [| |exact Hid].
  - split; [exact Hincl|]. left.
    destruct Hok as (Hr & Hin & Hn & Hsn & Hd & Hu & k & Hslug & _ & Hk).
    repeat split; trivial.
    + now apply (asset_fits_same self' self).
    + now rewrite Hu.
    + exists k. split; [exact Hslug|]. apply (slugs_fit_at _ Hslugs). lia.
  - split; [exact Hincl|]. now right.
Qed.

Lemma am_create_outcome_witness :
  exists w' self' r,
    AssetManager.Asset.save Sample.libraries Races.crowded (Sample.desk "SN-3")
    = Some (w', self', r)
    /\ incl (rows Races.crowded) (rows w')
    /\ ((r = Return true
         /\ In self' (rows w')
         /\ AssetManager.Asset.name self' = AssetManager.Asset.name (Sample.desk "SN-3")
         /\ AssetManager.Asset.serial_number self'
            = AssetManager.Asset.serial_number (Sample.desk "SN-3")
         /\ AssetManager.Asset.description self'
            = AssetManager.Asset.description (Sample.desk "SN-3")
         /\ AssetManager.Asset.user_id self'
            = AssetManager.Asset.user_id (Sample.desk "SN-3")
         /\ Columns.asset_fits self' = true
         /\ Columns.owner_stored (Sample.only Sample.alice')
              (AssetManager.Asset.user_id self') = true
         /\ exists k,
              AssetManager.Asset.slug self'
              = Some (candidate
                        (slugify Sample.libraries
                           (AssetManager.Asset.name (Sample.desk "SN-3"))) k)
              /\ Columns.varchar 150
                   (candidate
                      (slugify Sample.libraries
                         (AssetManager.Asset.name (Sample.desk "SN-3"))) k) = true)
        \/ (r = Raise (ValueError AssetManager.Asset.serial_exists)
            /\ capacity w' <= capacity Races.crowded
            /\ exists x, In x (rows w')
                         /\ AssetManager.Asset.serial_number x
                            = AssetManager.Asset.serial_number (Sample.desk "SN-3"))).
Proof.
  apply (am_create_outcome Sample.libraries (Sample.only Sample.alice') Races.crowded
           (Sample.desk "SN-3")); reflexivity.
Defined.

(** A serial number that a stored row holds is refused by the commit. *)
Lemma am_insert_serial_held (w : world AssetManager.Asset.t)
      (self x : AssetManager.Asset.t) :
  In x (rows w) ->
  AssetManager.Asset.serial_number x = AssetManager.Asset.serial_number self ->
  insert w self = Raise IntegrityError.
Proof.
  intros Hx Hs. unfold insert.
  set (r' := on_insert (next_id w) (clock w) self).
  replace (forallb (fun x => negb (unique_clash x r')) (rows w)) with false;
    [now rewrite andb_false_r|].
  symmetry. apply not_true_is_false. intros Hall.
  rewrite forallb_forall in Hall. specialize (Hall x Hx).
  simpl in Hall. rewrite Hs, pystr_eqb_refl, orb_true_r in Hall. discriminate.
Qed.

Lemma am_save_loop_serial_held (fuel : nat) :
  forall (w : world AssetManager.Asset.t) (self x : AssetManager.Asset.t)
         (base : pystr) (k : nat),
    quiet w ->
    AssetManager.Asset.id self = None ->
    In x (rows w) ->
    AssetManager.Asset.serial_number x = AssetManager.Asset.serial_number self ->
    (forall j, j < k -> taken AssetManager.Asset.slug w (candidate base j)) ->
    capacity w < fuel + k ->
    exists self',
      AssetManager.Asset.save_loop fuel w self base k
      = Some (w, self', Raise (ValueError AssetManager.Asset.serial_exists)).
Proof.
  induction fuel as [|fuel IH]; intros w self x base k Hq Hid Hx Hs Hbefore Hfuel.
  - pose proof (@candidates_bounded _ AssetManager.Asset.slug w base k Hbefore).
    pose proof (rows_le_capacity w). lia.
  - simpl. rewrite !(yield_quiet Hq), current_slug_candidate.
    unfold add_commit, rollback.
    change (pk (AssetManager.Asset.with_slug self (candidate base k)))
      with (AssetManager.Asset.id self).
    rewrite Hid.
    rewrite (@am_insert_serial_held w
               (AssetManager.Asset.with_slug self (candidate base k)) x Hx Hs).
    destruct (select_first (AssetManager.Asset.has_slug (candidate base k)) w)
      as [a|] eqn:Hsel.
    + apply (IH w _ x); trivial; [|lia].
      intros j Hj. destruct (Nat.eq_dec j k) as [->|Hne].
      * eapply am_select_slug_some; eassumption.
      * apply Hbefore; lia.
    + destruct (@select_first_found _
                  (AssetManager.Asset.has_serial
                     (AssetManager.Asset.serial_number
                        (AssetManager.Asset.with_slug self (candidate base k))))
                  w x Hx) as [x' ->].
      * unfold AssetManager.Asset.has_serial. simpl. rewrite Hs.
        apply pystr_eqb_refl.
      * now eexists.
Qed.

(** X8.  With no other writer, a new asset whose texts and candidate slugs
    fit their columns and whose serial number a stored asset already holds
    is never stored by the second variant: [save] raises [ValueError] with
    the message about the serial number and leaves the table as it was,
    however many candidate slugs of its display name are taken. *)
Theorem am_held_serial_refused (E : externals) (w : world AssetManager.Asset.t)
        (self x : AssetManager.Asset.t) :
  quiet w ->
  AssetManager.Asset.id self = None ->
  Columns.asset_fits self = true ->
  Columns.slugs_fit (slugify E (AssetManager.Asset.name self)) (capacity w) = true ->
  In x (rows w) ->
  AssetManager.Asset.serial_number x = AssetManager.Asset.serial_number self ->
  exists self',
    AssetManager.Asset.save E w self
    = Some (w, self', Raise (ValueError AssetManager.Asset.serial_exists)).
Proof.
  intros Hq Hid _ _ Hx Hs. unfold AssetManager.Asset.save.
  apply (@am_save_loop_serial_held (S (capacity w)) w self x); trivial; [|lia].
  intros j Hj. lia.
Qed.

Lemma am_held_serial_refused_witness :
  exists self',
    AssetManager.Asset.save Sample.libraries Sample.two_desks (Sample.desk "SN-2")
    = Some (Sample.two_desks, self',
            Raise (ValueError AssetManager.Asset.serial_exists)).
Proof.
  apply (@am_held_serial_refused Sample.libraries Sample.two_desks
           (Sample.desk "SN-2") Sample.second_desk).
  - reflexivity.
  - reflexivity.
  - reflexivity.
  - reflexivity.
  - vm_compute. right. left. reflexivity.
  - reflexivity.
Defined.

(* ================================================================== *)
(** * The page of one asset *)

(** In a column without duplicates a value leads to the row that holds it. *)
Lemma unique_lookup {T : Type} `{Model T} (col : T -> option pystr) (w : world T)
      (a : T) (s : pystr) :
  unique col w -> In a (rows w) -> col a = Some s ->
  select_first (fun x => opt_str_eqb (col x) (Some s)) w = Some a.
Proof.
  intros Hu Hin Hs.
  destruct (@select_first_found _ (fun x => opt_str_eqb (col x) (Some s)) w a Hin)
    as [b Hb]; [now apply opt_str_eqb_eq|].
  rewrite Hb. f_equal. apply select_first_some in Hb as [Hbin Hbs].
  apply opt_str_eqb_eq in Hbs.
  apply (NoDup_map_eq col (rows w) b a Hu Hbin Hin). congruence.
Qed.

(** X9.  The detail page of both variants answers 404 exactly when no
    stored asset holds the slug of the request.  An asset it shows is a
    stored asset with that slug (and, in the first variant, the title of the
    page is its name), and on a table whose slugs are unique the stored
    asset that holds a slug is the one shown for it. *)
Theorem asset_view_lookup :
  (forall (w : world Anuncio.Asset.t) (s : pystr),
      (status (AnuncioViews.asset_view w s) = 404 <-> ~ taken Anuncio.Asset.slug w s)
      /\ (forall a, shown (AnuncioViews.asset_view w s) = Some a ->
                    In a (rows w) /\ Anuncio.Asset.slug a = Some s
                    /\ status (AnuncioViews.asset_view w s) = 200
                    /\ title (AnuncioViews.asset_view w s) = Some (Anuncio.Asset.name a))
      /\ (unique Anuncio.Asset.slug w ->
          forall a, In a (rows w) -> Anuncio.Asset.slug a = Some s ->
                    shown (AnuncioViews.asset_view w s) = Some a))
  /\ (forall (w : world AssetManager.Asset.t) (s : pystr),
      (status (AssetManagerViews.asset_view w s) = 404
       <-> ~ taken AssetManager.Asset.slug w s)
      /\ (forall a, shown (AssetManagerViews.asset_view w s) = Some a ->
                    In a (rows w) /\ AssetManager.Asset.slug a = Some s
                    /\ status (AssetManagerViews.asset_view w s) = 200)
      /\ (unique AssetManager.Asset.slug w ->
          forall a, In a (rows w) -> AssetManager.Asset.slug a = Some s ->
                    shown (AssetManagerViews.asset_view w s) = Some a)).
Proof.
  split; intros w s; (split; [|split]).
  - unfold AnuncioViews.asset_view. rewrite <- anuncio_get_by_slug_none.
    destruct (Anuncio.Asset.get_by_slug w s); simpl; split; congruence.
  - intros a. unfold AnuncioViews.asset_view.
    destruct (Anuncio.Asset.get_by_slug w s) as [b|] eqn:Hg; simpl; [|discriminate].
    intros [= <-]. apply select_first_some in Hg as [Hin Hs].
    apply anuncio_has_slug_eq in Hs. now repeat split.
  - intros Hu a Hin Hs. unfold AnuncioViews.asset_view, Anuncio.Asset.get_by_slug.
    change (Anuncio.Asset.has_slug s)
      with (fun x => opt_str_eqb (Anuncio.Asset.slug x) (Some s)).
    now rewrite (@unique_lookup _ _ Anuncio.Asset.slug w a s Hu Hin Hs).
  - unfold AssetManagerViews.asset_view, AssetManager.Asset.get_by_slug.
    rewrite <- am_select_slug_none.
    destruct (select_first (AssetManager.Asset.has_slug s) w); simpl; split; congruence.
  - intros a. unfold AssetManagerViews.asset_view, AssetManager.Asset.get_by_slug.
    destruct (select_first (AssetManager.Asset.has_slug s) w) as [b|] eqn:Hg; simpl;
      [|discriminate].
    intros [= <-]. apply select_first_some in Hg as [Hin Hs].
    apply am_has_slug_eq in Hs. now repeat split.
  - intros Hu a Hin Hs.
    unfold AssetManagerViews.asset_view, AssetManager.Asset.get_by_slug.
    change (AssetManager.Asset.has_slug s)
      with (fun x => opt_str_eqb (AssetManager.Asset.slug x) (Some s)).
    now rewrite (@unique_lookup _ _ AssetManager.Asset.slug w a s Hu Hin Hs).
Qed.

(** What a successful creation in the first variant stored. *)
Lemma anuncio_save_stored (E : externals) (w w' : world Anuncio.Asset.t)
      (self self' : Anuncio.Asset.t) :
  Anuncio.Asset.id self = None ->
  Anuncio.Asset.save E w self = Some (w', self', Return tt) ->
  In self' (rows w')
  /\ Anuncio.Asset.name self' = Anuncio.Asset.name self
  /\ exists s, Anuncio.Asset.slug self' = Some s.
Proof.
  intros Hid. unfold Anuncio.Asset.save, Anuncio.Asset.save_with.
  set (fuel := S (capacity w)).
  assert (Hfirst : forall w1 self1,
             (if truthy (Anuncio.Asset.slug self) then Some (w, self)
              else match Anuncio.Asset._generate_unique_slug E fuel w
                           (Anuncio.Asset.name self) with
                   | Some (w0, s) => Some (w0, Anuncio.Asset.with_slug self s)
                   | None => None
                   end) = Some (w1, self1) ->
             Anuncio.Asset.id self1 = None
             /\ Anuncio.Asset.name self1 = Anuncio.Asset.name self).
  { intros w1 self1. destruct (truthy (Anuncio.Asset.slug self)).
    - now intros [= <- <-].
    - destruct (Anuncio.Asset._generate_unique_slug E fuel w (Anuncio.Asset.name self))
        as [[w0 s]|]; [|discriminate].
      now intros [= <- <-]. }
  destruct (if truthy (Anuncio.Asset.slug self) then _ else _) as [[w1 self1]|];
    [|discriminate].
  destruct (Hfirst w1 self1 eq_refl) as [Hid1 Hname1]. clear Hfirst.
  assert (Hstored : forall w0 x w2 stored,
             insert w0 x = Return (w2, stored) ->
             Anuncio.Asset.name x = Anuncio.Asset.name self ->
             In stored (rows w2)
             /\ Anuncio.Asset.name stored = Anuncio.Asset.name self
             /\ exists s, Anuncio.Asset.slug stored = Some s).
  { intros w0 x w2 stored Hi Hx.
    pose proof (insert_inv _ _ Hi) as (_ & _ & _ & _ & Hnn & _).
    apply anuncio_insert_new in Hi as (Hin & _ & _ & Hname & _).
    repeat split; [exact Hin | congruence |].
    simpl in Hnn. destruct (Anuncio.Asset.slug stored) as [s|]; [now exists s | discriminate]. }
  unfold add_commit, rollback.
  change (pk self1) with (Anuncio.Asset.id self1). rewrite Hid1.
  destruct (insert (yield w1) self1) as [[w2 stored]|e] eqn:Hi.
  - intros [= <- <-]. eapply Hstored; eassumption.
  - destruct e; try discriminate.
    destruct (Anuncio.Asset._generate_unique_slug E fuel (yield w1)
                (Anuncio.Asset.name self1)) as [[w3 s3]|]; [|discriminate].
    change (pk (Anuncio.Asset.with_slug self1 s3)) with (Anuncio.Asset.id self1).
    rewrite Hid1.
    destruct (insert (yield w3) _) as [[w4 stored]|e] eqn:Hi2; [|discriminate].
    intros [= <- <-]. eapply Hstored; [exact Hi2 | exact Hname1].
Qed.

(** X10.  From creation to page, in both variants and whatever the other
    writers committed during the save: on a table whose slugs are unique,
    an asset that [save] stored has a public URL, and when its slug is one
    the route takes (not empty, no slash), the detail page of the slug in
    that URL shows this very asset.  An asset stored under the empty slug
    has a public URL that no rule matches. *)
Theorem created_asset_is_shown (E : externals) :
  (forall (w w' : world Anuncio.Asset.t) (self self' : Anuncio.Asset.t),
      Anuncio.Asset.id self = None ->
      unique Anuncio.Asset.slug w ->
      Anuncio.Asset.save E w self = Some (w', self', Return tt) ->
      exists s,
        AnuncioViews.public_url self' = Some (to_asset_view s)
        /\ (Columns.routed s = true ->
            AnuncioViews.asset_view w' s
            = {| status := 200; template := "asset_view.html";
                 title := Some (Anuncio.Asset.name self); shown := Some self' |}))
  /\ (forall (w w' : world AssetManager.Asset.t) (self self' : AssetManager.Asset.t),
      AssetManager.Asset.id self = None ->
      unique AssetManager.Asset.slug w ->
      AssetManager.Asset.save E w self = Some (w', self', Return true) ->
      exists s,
        AssetManagerViews.public_url self' = Some (to_asset_view s)
        /\ (Columns.routed s = true ->
            AssetManagerViews.asset_view w' s
            = {| status := 200; template := "asset_view.html";
                 title := None; shown := Some self' |})).
Proof.
  split; intros w w' self self' Hid Hu Hs.
  - assert (Hu' : unique Anuncio.Asset.slug w').
    { eapply (@anuncio_create_invariant E (unique Anuncio.Asset.slug)); try eassumption.
      + intros w0. apply yield_unique, anuncio_clash_slug.
      + intros w0 r0 w1 r1. apply insert_unique, anuncio_clash_slug. }
    destruct (anuncio_save_stored E w self Hid Hs) as (Hin & Hname & s & Hslug).
    exists s. unfold AnuncioViews.public_url, AnuncioViews.asset_view,
      Anuncio.Asset.get_by_slug.
    rewrite Hslug. split; [reflexivity|]. intros _.
    change (Anuncio.Asset.has_slug s)
      with (fun x => opt_str_eqb (Anuncio.Asset.slug x) (Some s)).
    rewrite (@unique_lookup _ _ Anuncio.Asset.slug w' self' s Hu' Hin Hslug).
    now rewrite Hname.
  - assert (Hu' : unique AssetManager.Asset.slug w').
    { unfold AssetManager.Asset.save in Hs.
      eapply (@am_create_loop_invariant (unique AssetManager.Asset.slug));
        try eassumption.
      + intros w0. apply yield_unique, am_clash_slug.
      + intros w0 r0 w1 r1. apply insert_unique, am_clash_slug. }
    unfold AssetManager.Asset.save in Hs.
    apply am_create_loop_outcome in Hs as [_ [Hok|(Hr & _)]];
      [|discriminate|exact Hid].
    destruct Hok as (_ & Hin & _ & _ & _ & _ & k & Hslug & _).
    exists (candidate (slugify E (AssetManager.Asset.name self)) k).
    unfold AssetManagerViews.public_url, AssetManagerViews.asset_view,
      AssetManager.Asset.get_by_slug.
    rewrite Hslug. split; [reflexivity|]. intros _.
    change (AssetManager.Asset.has_slug
              (candidate (slugify E (AssetManager.Asset.name self)) k))
      with (fun x => opt_str_eqb (AssetManager.Asset.slug x)
                       (Some (candidate (slugify E (AssetManager.Asset.name self)) k))).
    now rewrite (@unique_lookup _ _ AssetManager.Asset.slug w' self' _ Hu' Hin Hslug).
Qed.

Lemma created_asset_is_shown_witness :
  AssetManagerViews.public_url
    (Sample.stored_by Races.third_desk_saved (Sample.desk "SN-3"))
  = Some (to_asset_view (py "office-desk-3"))
  /\ Columns.routed (py "office-desk-3") = true
  /\ AssetManagerViews.asset_view
       (Sample.world_after Races.third_desk_saved Races.crowded) (py "office-desk-3")
     = {| status := 200; template := "asset_view.html"; title := None;
          shown := Some (Sample.stored_by Races.third_desk_saved (Sample.desk "SN-3")) |}.
Proof.
  destruct (proj2 (created_asset_is_shown Sample.libraries)
              Races.crowded
              (Sample.world_after Races.third_desk_saved Races.crowded)
              (Sample.desk "SN-3")
              (Sample.stored_by Races.third_desk_saved (Sample.desk "SN-3")))
    as (s & Hurl & Hpage).
  - reflexivity.
  - vm_compute. repeat constructor; simpl; intuition discriminate.
  - vm_compute. reflexivity.
  - assert (Hs : s = py "office-desk-3").
    { vm_compute in Hurl. now injection Hurl as <-. }
    subst s. split; [exact Hurl|]. split; [reflexivity|]. now apply Hpage.
Defined.

(* ================================================================== *)
(** * What a login grants *)

Lemma submitted_is_post (req : request) : is_submitted req = true -> method req = POST.
Proof. unfold is_submitted. now destruct (method req). Qed.

(** The two ways a login ends: without a session, or with the session of
    the user [u] that was looked up and checked. *)
Ltac login_refused :=
  let b := fresh "b" in let t := fresh "t" in
  intros [= <-]; split; [intros b | intros t]; discriminate.
Ltac login_granted u :=
  let b := fresh "b" in let t := fresh "t" in
  let Hb := fresh "Hb" in let Ht := fresh "Ht" in
  intros [= <-]; split;
  [ intros b Hb; simpl in Hb; injection Hb as <-;
    repeat split; trivial; exists u; now repeat split
  | intros t Ht; simpl in Ht; try discriminate Ht; injection Ht as <-;
    repeat split; trivial; discriminate ].

(** X13.  A login of either variant binds the session only to a stored
    user whose email is the posted one and whose password check accepted
    the posted password, on a form posted by a visitor who is not logged
    in; and it redirects to a URL taken from the request only when that URL
    is the [next] argument, the guard answered true for it, and the session
    was bound. *)
Theorem login_grants_only_checked (E : externals) :
  (forall (users : world Anuncio.User.t) (req : request) (r : reply),
      Anuncio.Run.login E users req = Return r ->
      (forall b, login_user r = Some b ->
         is_authenticated req = false /\ method req = POST
         /\ exists u, In u (rows users)
                      /\ Anuncio.User.email u = field "email" (posted req)
                      /\ Anuncio.User.check_password E u (field "password" (posted req))
                         = true
                      /\ b = (Anuncio.User.id u, remember_me req))
      /\ (forall t, sent r = Redirect (to_url t) ->
            next req = Some t
            /\ Anuncio.Run.is_safe_url E (host_url req) t = Return true
            /\ login_user r <> None))
  /\ (forall (users : world AssetManager.User.t) (req : request) (r : reply),
      AssetManager.Run.login E users req = Return r ->
      (forall b, login_user r = Some b ->
         is_authenticated req = false /\ method req = POST
         /\ exists u, In u (rows users)
                      /\ AssetManager.User.email u = field "email" (posted req)
                      /\ AssetManager.User.check_password E u
                           (field "password" (posted req)) = true
                      /\ b = (AssetManager.User.id u, remember_me req))
      /\ (forall t, sent r = Redirect (to_url t) ->
            next req = Some t
            /\ AssetManager.Run.is_safe_url E (host_url req) t = Return true
            /\ login_user r <> None)).
Proof.
  split; intros users req r.
  - unfold Anuncio.Run.login.
    destruct (is_authenticated req) eqn:Hauth; [login_refused|].
    destruct (Anuncio.Forms.validate_on_submit req _) eqn:Hv; [|login_refused].
    apply andb_prop in Hv as [Hsub _]. apply submitted_is_post in Hsub.
    destruct (Anuncio.User.get_by_email users _) as [u|] eqn:Hu; [|login_refused].
    apply select_first_some in Hu as [Hin Hemail]. apply pystr_eqb_eq in Hemail.
    destruct (Anuncio.User.check_password E u _) eqn:Hpw; [|login_refused].
    destruct (next req) as [nx|]; [destruct nx as [|c n]|]; try login_granted u.
    unfold bind.
    destruct (Anuncio.Run.is_safe_url E (host_url req) (c :: n)) as [[|]|e] eqn:Hsafe;
      [| |discriminate]; login_granted u.
  - unfold AssetManager.Run.login.
    destruct (is_authenticated req) eqn:Hauth; [login_refused|].
    destruct (AssetManager.Forms.validate_on_submit req _) eqn:Hv; [|login_refused].
    apply andb_prop in Hv as [Hsub _]. apply submitted_is_post in Hsub.
    destruct (AssetManager.User.get_by_email users _) as [u|] eqn:Hu; [|login_refused].
    apply select_first_some in Hu as [Hin Hemail]. apply pystr_eqb_eq in Hemail.
    destruct (AssetManager.User.check_password E u _) eqn:Hpw; [|login_refused].
    destruct (next req) as [nx|]; [destruct nx as [|c n]|]; try login_granted u.
    unfold bind.
    destruct (AssetManager.Run.is_safe_url E (host_url req) (c :: n))
      as [[|]|e] eqn:Hsafe; [| |discriminate]; login_granted u.
Qed.

Lemma login_grants_only_checked_witness :
  next (Sample.login_with "correct horse" (Some "/profile"%string)) = Some (py "/profile")
  /\ AssetManager.Run.is_safe_url Sample.libraries
       (host_url (Sample.login_with "correct horse" (Some "/profile"%string))) (py "/profile")
     = Return true
  /\ login_user
       {| flashes := [(py "Welcome back, alice!", AssetManager.Run.success)];
          login_user := Some (Some 1, false);
          sent := Redirect (to_url (py "/profile")) |} <> None.
Proof.
  apply (proj2 (proj2 (login_grants_only_checked Sample.libraries)
                  (Sample.only Sample.alice')
                  (Sample.login_with "correct horse" (Some "/profile"%string))
                  _ eq_refl)).
  reflexivity.
Defined.

(* ================================================================== *)
(** * Signing up *)

Lemma find_app_last {A : Type} (p : A -> bool) (l : list A) (u : A) :
  (forall x, In x l -> p x = false) -> p u = true -> find p (l ++ [u]) = Some u.
Proof.
  intros Hl Hu. induction l as [|a l IH]; simpl.
  - now rewrite Hu.
  - rewrite (Hl a (or_introl eq_refl)). apply IH. intros x Hx. apply Hl. now right.
Qed.

Lemma anuncio_user_insert (users : world Anuncio.User.t) (u0 : Anuncio.User.t) :
  Anuncio.User.get_by_email users (Anuncio.User.email u0) = None ->
  insert users u0
  = Return ({| rows := rows users ++ [on_insert (next_id users) (clock users) u0];
               next_id := S (next_id users);
               clock := clock users;
               others := others users |},
            on_insert (next_id users) (clock users) u0).
Proof.
  intros Hnone. unfold insert.
  replace (forallb _ (rows users)) with true; [reflexivity|].
  symmetry. apply forallb_forall. intros x Hx.
  unfold Anuncio.User.get_by_email in Hnone. rewrite select_first_none in Hnone.
  simpl. now rewrite (Hnone x Hx).
Qed.

Lemma am_user_insert (users : world AssetManager.User.t) (u0 : AssetManager.User.t) :
  AssetManager.User.get_by_email users (AssetManager.User.email u0) = None ->
  insert users u0
  = Return ({| rows := rows users ++ [on_insert (next_id users) (clock users) u0];
               next_id := S (next_id users);
               clock := clock users;
               others := others users |},
            on_insert (next_id users) (clock users) u0).
Proof.
  intros Hnone. unfold insert.
  replace (forallb _ (rows users)) with true; [reflexivity|].
  symmetry. apply forallb_forall. intros x Hx.
  unfold AssetManager.User.get_by_email in Hnone. rewrite select_first_none in Hnone.
  simpl. now rewrite (Hnone x Hx).
Qed.

(** A key that is not given out yet belongs to no stored row. *)
Lemma next_id_is_new {T : Type} `{Model T} (w : world T) (x : T) :
  keyed w -> In x (rows w) -> same_pk (next_id w) x = false.
Proof.
  intros [_ Hlt] Hx. destruct (Hlt x Hx) as (i & Hi & Hbound).
  unfold same_pk. rewrite Hi. apply Nat.eqb_neq. lia.
Qed.

(** What a valid signup stores, in the first variant. *)
Lemma anuncio_signup_stores (E : externals) :
  forall (users : world Anuncio.User.t) (req : request),
      quiet users ->
      is_authenticated req = false ->
      Anuncio.Forms.validate_on_submit req (Anuncio.Forms.signup_errors E users req)
      = true ->
      exists users' u,
        Anuncio.Run.signup E users req
        = Return (users', {| flashes := [(Anuncio.Run.registro_exitoso,
                                          Anuncio.Run.success)];
                             login_user := Some (Some (next_id users), false);
                             sent := Redirect to_index |})
        /\ rows users' = rows users ++ [u]
        /\ u = {| Anuncio.User.id := Some (next_id users);
                  Anuncio.User.name := field "name" (posted req);
                  Anuncio.User.email := field "email" (posted req);
                  Anuncio.User.password_hash
                  := generate_password_hash E (field "password" (posted req)) |}
        /\ Anuncio.User.get_by_email users' (field "email" (posted req)) = Some u
        /\ (keyed users -> Anuncio.User.get_by_id users' (next_id users) = Some u).
Proof.
  intros users req _ Hauth Hv.
  assert (Hnone : Anuncio.User.get_by_email users (field "email" (posted req)) = None).
  { destruct (Anuncio.User.get_by_email users (field "email" (posted req)))
      as [x|] eqn:Hx; [|reflexivity].
    exfalso. apply andb_prop in Hv as [_ Hv].
    destruct (Anuncio.Forms.signup_errors E users req) eqn:Herr; [|discriminate].
    apply (@anuncio_signup_errors_taken E users req); [|exact Herr].
    now rewrite Hx. }
  unfold Anuncio.Run.signup. rewrite Hauth, Hv, Hnone.
  unfold Anuncio.User.save, add_commit. cbn [pk Anuncio.User.model
    Anuncio.User.set_password Anuncio.User.new Anuncio.User.id].
  rewrite anuncio_user_insert by exact Hnone.
  eexists _, _. split; [reflexivity|]. split; [reflexivity|].
  split; [reflexivity|]. split.
  + unfold Anuncio.User.get_by_email, select_first. cbn [rows].
    apply find_app_last.
    * intros x Hx. unfold Anuncio.User.get_by_email in Hnone.
      rewrite select_first_none in Hnone. now apply Hnone.
    * apply pystr_eqb_refl.
  + intros Hk. unfold Anuncio.User.get_by_id, select_first. cbn [rows].
    apply find_app_last.
    * intros x Hx. now apply next_id_is_new.
    * unfold same_pk. simpl. apply Nat.eqb_refl.
Qed.

(** The same in the second variant, given that the email is new. *)
Lemma am_signup_stores (E : externals) :
  forall (users : world AssetManager.User.t) (req : request),
      quiet users ->
      is_authenticated req = false ->
      AssetManager.Forms.validate_on_submit req (AssetManager.Forms.signup_errors E req)
      = true ->
      AssetManager.User.get_by_email users (field "email" (posted req)) = None ->
      exists users' u,
        AssetManager.Run.signup E users req
        = Return (users', {| flashes := [(AssetManager.Run.account_created,
                                          AssetManager.Run.success)];
                             login_user := Some (Some (next_id users), false);
                             sent := Redirect to_index |})
        /\ rows users' = rows users ++ [u]
        /\ u = {| AssetManager.User.id := Some (next_id users);
                  AssetManager.User.username := field "username" (posted req);
                  AssetManager.User.email := field "email" (posted req);
                  AssetManager.User.password_hash
                  := generate_password_hash E (field "password" (posted req)) |}
        /\ AssetManager.User.get_by_email users' (field "email" (posted req)) = Some u
        /\ (keyed users -> AssetManager.User.get_by_id users' (next_id users) = Some u).
Proof.
  intros users req _ Hauth Hv Hnone.
  unfold AssetManager.Run.signup. rewrite Hauth, Hv, Hnone.
  unfold AssetManager.User.save, add_commit. cbn [pk AssetManager.User.model
    AssetManager.User.set_password AssetManager.User.new AssetManager.User.id].
  rewrite am_user_insert by exact Hnone.
  eexists _, _. split; [reflexivity|]. split; [reflexivity|].
  split; [reflexivity|]. split.
  + unfold AssetManager.User.get_by_email, select_first. cbn [rows].
    apply find_app_last.
    * intros x Hx. unfold AssetManager.User.get_by_email in Hnone.
      rewrite select_first_none in Hnone. now apply Hnone.
    * apply pystr_eqb_refl.
  + intros Hk. unfold AssetManager.User.get_by_id, select_first. cbn [rows].
    apply find_app_last.
    * intros x Hx. now apply next_id_is_new.
    * unfold same_pk. simpl. apply Nat.eqb_refl.
Qed.

Lemma anuncio_clash_email (x r : Anuncio.User.t) :
  not_null r = true -> unique_clash x r = false ->
  Requests.anuncio_email x <> Requests.anuncio_email r.
Proof.
  simpl. intros _ Hc [= Heq]. rewrite Heq in Hc. now rewrite pystr_eqb_refl in Hc.
Qed.

Lemma am_clash_email (x r : AssetManager.User.t) :
  not_null r = true -> unique_clash x r = false ->
  Requests.am_email x <> Requests.am_email r.
Proof.
  simpl. intros _ Hc [= Heq]. rewrite Heq in Hc. now rewrite pystr_eqb_refl in Hc.
Qed.

Ltac signup_untouched :=
  let H := fresh "H" in
  intros [= <- <-]; split; [|split];
  [ intros H; exact H | intros H; exact H | left; split; reflexivity ].

(** X15.  Whatever the request, a signup of either variant leaves the
    stored users as they are and appends at most one; no two stored users
    share an email afterwards, and every user keeps a primary key of its
    own.  The session is bound only when a user was appended, to that user
    and without the remember flag, and then the request was a form posted
    by a visitor who was not logged in, the new user has the posted email,
    and no stored user had it. *)
Theorem signup_appends_at_most_one (E : externals) :
  (forall (users users' : world Anuncio.User.t) (req : request) (r : reply),
      Anuncio.Run.signup E users req = Return (users', r) ->
      (unique Requests.anuncio_email users -> unique Requests.anuncio_email users')
      /\ (keyed users -> keyed users')
      /\ ((users' = users /\ login_user r = None)
          \/ exists u,
               rows users' = rows users ++ [u]
               /\ login_user r = Some (Anuncio.User.id u, false)
               /\ is_authenticated req = false /\ method req = POST
               /\ Anuncio.User.email u = field "email" (posted req)
               /\ ~ taken Requests.anuncio_email users (field "email" (posted req))))
  /\ (forall (users users' : world AssetManager.User.t) (req : request) (r : reply),
      AssetManager.Run.signup E users req = Return (users', r) ->
      (unique Requests.am_email users -> unique Requests.am_email users')
      /\ (keyed users -> keyed users')
      /\ ((users' = users /\ login_user r = None)
          \/ exists u,
               rows users' = rows users ++ [u]
               /\ login_user r = Some (AssetManager.User.id u, false)
               /\ is_authenticated req = false /\ method req = POST
               /\ AssetManager.User.email u = field "email" (posted req)
               /\ ~ taken Requests.am_email users (field "email" (posted req)))).
Proof.
  split; intros users users' req r.
  - unfold Anuncio.Run.signup.
    destruct (is_authenticated req) eqn:Hauth;
      [signup_untouched|].
    destruct (Anuncio.Forms.validate_on_submit req _) eqn:Hv;
      [|signup_untouched].
    apply andb_prop in Hv as [Hsub _]. apply submitted_is_post in Hsub.
    destruct (Anuncio.User.get_by_email users _) as [x|] eqn:Hnone;
      [signup_untouched|].
    unfold Anuncio.User.save, add_commit, bind.
    cbn [pk Anuncio.User.model Anuncio.User.set_password Anuncio.User.new
         Anuncio.User.id].
    destruct (insert users _) as [[w u]|e] eqn:Hi; [|discriminate].
    intros [= <- <-]. split; [|split].
    + intros Hu. eapply insert_unique; [apply anuncio_clash_email | exact Hu | exact Hi].
    + intros Hk. eapply insert_keyed; [reflexivity | exact Hk | exact Hi].
    + right. exists u. apply insert_inv in Hi as (-> & Hrows & _).
      repeat split; trivial.
      intros (y & Hy & [= Hye]).
      unfold Anuncio.User.get_by_email in Hnone. rewrite select_first_none in Hnone.
      specialize (Hnone y Hy). simpl in Hnone.
      now rewrite Hye, pystr_eqb_refl in Hnone.
  - unfold AssetManager.Run.signup.
    destruct (is_authenticated req) eqn:Hauth;
      [signup_untouched|].
    destruct (AssetManager.Forms.validate_on_submit req _) eqn:Hv;
      [|signup_untouched].
    apply andb_prop in Hv as [Hsub _]. apply submitted_is_post in Hsub.
    destruct (AssetManager.User.get_by_email users _) as [x|] eqn:Hnone;
      [signup_untouched|].
    unfold AssetManager.User.save, add_commit.
    cbn [pk AssetManager.User.model AssetManager.User.set_password
         AssetManager.User.new AssetManager.User.id].
    destruct (insert users _) as [[w u]|e] eqn:Hi;
      [|signup_untouched].
    intros [= <- <-]. split; [|split].
    + intros Hu. eapply insert_unique; [apply am_clash_email | exact Hu | exact Hi].
    + intros Hk. eapply insert_keyed; [reflexivity | exact Hk | exact Hi].
    + right. exists u. apply insert_inv in Hi as (-> & Hrows & _).
      repeat split; trivial.
      intros (y & Hy & [= Hye]).
      unfold AssetManager.User.get_by_email in Hnone.
      rewrite select_first_none in Hnone.
      specialize (Hnone y Hy). simpl in Hnone.
      now rewrite Hye, pystr_eqb_refl in Hnone.
Qed.

Lemma signup_appends_at_most_one_witness :
  (unique Requests.am_email (Sample.only Sample.alice') ->
   unique Requests.am_email (Sample.only Sample.alice'))
  /\ (keyed (Sample.only Sample.alice') -> keyed (Sample.only Sample.alice'))
  /\ ((Sample.only Sample.alice' = Sample.only Sample.alice'
       /\ login_user (flash AssetManager.Run.email_exists AssetManager.Run.error
                        (Redirect to_signup)) = None)
      \/ exists u,
           rows (Sample.only Sample.alice') = rows (Sample.only Sample.alice') ++ [u]
           /\ login_user (flash AssetManager.Run.email_exists AssetManager.Run.error
                            (Redirect to_signup))
              = Some (AssetManager.User.id u, false)
           /\ is_authenticated Sample.signup_as_alice = false
           /\ method Sample.signup_as_alice = POST
           /\ AssetManager.User.email u = field "email" (posted Sample.signup_as_alice)
           /\ ~ taken Requests.am_email (Sample.only Sample.alice')
                  (field "email" (posted Sample.signup_as_alice))).
Proof.
  apply (proj2 (signup_appends_at_most_one Sample.libraries)
           (Sample.only Sample.alice') (Sample.only Sample.alice')
           Sample.signup_as_alice
           (flash AssetManager.Run.email_exists AssetManager.Run.error
              (Redirect to_signup))).
  vm_compute. reflexivity.
Defined.

(* ================================================================== *)
(** * What the redirect guard accepts *)

Section UrlFacts.
Variable R : Url.runtime.

(** A text without tab, carriage return and line feed, and a text without
    the characters that end a netloc. *)
#[local] Abbreviation clean := (Forall (fun c => Url.unsafe_byte c = false)).
#[local] Abbreviation delimiter :=
  (fun c => N.eqb c Url.slash || N.eqb c Url.question || N.eqb c Url.hash).
#[local] Abbreviation undelimited := (Forall (fun c => delimiter c = false)).

Lemma filter_unsafe_clean (s : pystr) :
  clean (filter (fun c => negb (Url.unsafe_byte c)) s).
Proof.
  apply Forall_forall. intros c Hc. apply filter_In in Hc as [_ Hc].
  now apply negb_true_iff in Hc.
Qed.

Lemma filter_clean_same (s : pystr) :
  clean s -> filter (fun c => negb (Url.unsafe_byte c)) s = s.
Proof.
  induction 1 as [|c s Hc Hs IH]; simpl; [reflexivity|]. now rewrite Hc, IH.
Qed.

Lemma cut_Forall (P : codepoint -> Prop) (c : codepoint) (s a : pystr)
      (b : option pystr) :
  Url.cut c s = (a, b) -> Forall P s ->
  Forall P a /\ forall r, b = Some r -> Forall P r.
Proof.
  revert a b. induction s as [|d s IH]; simpl; intros a b.
  - intros [= <- <-] _. split; [constructor | discriminate].
  - destruct (N.eqb d c).
    + intros [= <- <-] Hs. apply Forall_cons_iff in Hs as [_ Hs].
      split; [constructor|]. now intros r [= <-].
    + destruct (Url.cut c s) as [a' b'] eqn:Hcut. intros [= <- <-] Hs.
      apply Forall_cons_iff in Hs as [Hd Hs].
      destruct (IH a' b' eq_refl Hs) as [Ha Hb]. split; [now constructor | exact Hb].
Qed.

Lemma splitnetloc_Forall (P : codepoint -> Prop) (s n u : pystr) :
  Url._splitnetloc s = (n, u) -> Forall P s -> Forall P n /\ Forall P u.
Proof.
  revert n u. induction s as [|c s IH]; simpl; intros n u.
  - intros [= <- <-] _. split; constructor.
  - destruct (N.eqb c Url.slash || N.eqb c Url.question || N.eqb c Url.hash).
    + intros [= <- <-] Hs. split; [constructor | exact Hs].
    + destruct (Url._splitnetloc s) as [n' u'] eqn:Hsplit. intros [= <- <-] Hs.
      apply Forall_cons_iff in Hs as [Hc Hs].
      destruct (IH n' u' eq_refl Hs) as [Hn Hu]. split; [now constructor | exact Hu].
Qed.

Lemma splitnetloc_undelimited (s n u : pystr) :
  Url._splitnetloc s = (n, u) -> undelimited n.
Proof.
  revert n u. induction s as [|c s IH]; simpl; intros n u.
  - intros [= <- <-]. constructor.
  - destruct (N.eqb c Url.slash || N.eqb c Url.question || N.eqb c Url.hash) eqn:Hc.
    + intros [= <- <-]. constructor.
    + destruct (Url._splitnetloc s) as [n' u'] eqn:Hsplit. intros [= <- <-].
      constructor; [exact Hc | now apply (IH n' u')].
Qed.

(** A netloc is read back from in front of a text that is empty or starts
    with one of the characters that end it. *)
Lemma splitnetloc_app (n tail : pystr) :
  undelimited n ->
  match tail with [] => True | c :: _ => delimiter c = true end ->
  Url._splitnetloc (n ++ tail) = (n, tail).
Proof.
  intros Hn Htail. induction Hn as [|c n Hc Hn IH]; simpl.
  - destruct tail as [|c t]; [reflexivity|]. simpl. now rewrite Htail.
  - now rewrite Hc, IH.
Qed.

Lemma split_Forall (P : codepoint -> Prop) (c : codepoint) (s : pystr) :
  Forall P s -> Forall (Forall P) (Url.split c s).
Proof.
  induction 1 as [|d s Hd Hs IH]; simpl; [repeat constructor|].
  destruct (N.eqb d c); [constructor; [constructor | exact IH]|].
  destruct (Url.split c s) as [|seg segs]; [repeat constructor; exact Hd|].
  apply Forall_cons_iff in IH as [Hseg Hsegs]. constructor; [now constructor | exact Hsegs].
Qed.

Lemma join_Forall (P : codepoint -> Prop) (c : codepoint) (parts : list pystr) :
  P c -> Forall (Forall P) parts -> Forall P (Url.join c parts).
Proof.
  intros Hc. induction 1 as [|p parts Hp Hparts IH]; simpl; [constructor|].
  destruct parts as [|q parts]; [exact Hp|].
  apply Forall_app. split; [exact Hp | now constructor].
Qed.

Lemma removelast_Forall {A : Type} (P : A -> Prop) (l : list A) :
  Forall P l -> Forall P (removelast l).
Proof.
  induction 1 as [|a l Ha Hl IH]; simpl; [constructor|].
  destruct l; [constructor | now constructor].
Qed.

Lemma resolve_Forall (P : pystr -> Prop) (segments resolved_path : list pystr) :
  Forall P resolved_path -> Forall P segments ->
  Forall P (Url.resolve resolved_path segments).
Proof.
  revert resolved_path. induction segments as [|seg rest IH]; simpl; intros acc Hacc Hs;
    [exact Hacc|].
  apply Forall_cons_iff in Hs as [Hseg Hrest].
  destruct (PyStr.eqb seg Url.dotdot); [apply IH; [now apply removelast_Forall | exact Hrest]|].
  destruct (PyStr.eqb seg Url.dot); [now apply IH|].
  apply IH; [|exact Hrest]. apply Forall_app. split; [exact Hacc | now constructor].
Qed.

Lemma drop_empty_middle_Forall (P : pystr -> Prop) (segments : list pystr) :
  Forall P segments -> Forall P (Url.drop_empty_middle segments).
Proof.
  intros Hs. unfold Url.drop_empty_middle. destruct segments as [|first rest]; [constructor|].
  apply Forall_cons_iff in Hs as [Hfirst Hrest].
  apply Forall_rev in Hrest. destruct (rev rest) as [|last middle]; [now constructor|].
  apply Forall_cons_iff in Hrest as [Hlast Hmiddle].
  constructor; [exact Hfirst|]. apply Forall_app. split; [|now constructor].
  apply Forall_forall. intros x Hx. apply filter_In in Hx as [Hx _].
  apply in_rev in Hx. rewrite Forall_forall in Hmiddle. now apply Hmiddle.
Qed.
(** What [urlsplit] does once the scheme is settled. *)
#[local] Abbreviation after_scheme the_scheme the_url :=
  (found <- match the_url with
            | c1 :: c2 :: more =>
                if N.eqb c1 Url.slash && N.eqb c2 Url.slash
                then let '(nl, u1) := Url._splitnetloc more in
                     _ <- Url.check_brackets R nl ;; Return (nl, u1)
                else Return ([], the_url)
            | _ => Return ([], the_url)
            end ;;
   let '(nl, u1) := found in
   let '(u2, frag) :=
     match Url.cut Url.hash u1 with
     | (x1, Some x2) => (x1, x2)
     | (x1, None) => (x1, [])
     end in
   let '(u3, qry) :=
     match Url.cut Url.question u2 with
     | (x1, Some x2) => (x1, x2)
     | (x1, None) => (x1, [])
     end in
   _ <- Url._checknetloc R nl ;;
   Return {| Url.s_scheme := the_scheme; Url.s_netloc := nl; Url.s_path := u3;
             Url.s_query := qry; Url.s_fragment := frag |}).

(** The default scheme as [urlsplit] uses it. *)
#[local] Abbreviation cleaned d :=
  (filter (fun c => negb (Url.unsafe_byte c)) (strip Url.c0_or_space d)).

(** A netloc that [urlsplit] let through. *)
#[local] Abbreviation accepted :=
  (fun netloc : pystr =>
     undelimited netloc
     /\ Url.check_brackets R netloc = Return tt
     /\ Url._checknetloc R netloc = Return tt).

Lemma after_scheme_inv (scheme url : pystr) (sp : Url.SplitResult) :
  clean url ->
  after_scheme scheme url = Return sp ->
  accepted (Url.s_netloc sp)
  /\ (clean (Url.s_netloc sp) /\ clean (Url.s_path sp)
      /\ clean (Url.s_query sp) /\ clean (Url.s_fragment sp))
  /\ Url.s_scheme sp = scheme.
Proof.
  intros Hclean.
  match goal with |- bind ?f _ = _ -> _ => set (first := f) end.
  assert (Hfirst : forall n u, first = Return (n, u) ->
             undelimited n /\ Url.check_brackets R n = Return tt /\ clean n /\ clean u).
  { subst first. destruct url as [|a [|b rest]].
    - intros n u [= <- <-]. repeat split; constructor.
    - intros n u [= <- <-]. repeat split; trivial; constructor.
    - destruct (N.eqb a Url.slash && N.eqb b Url.slash).
      + destruct (Url._splitnetloc rest) as [n' u'] eqn:Hsplit.
        destruct (Url.check_brackets R n') as [[]|e] eqn:Hcheck; [|discriminate].
        intros n u [= <- <-].
        apply Forall_cons_iff in Hclean as [_ Hclean].
        apply Forall_cons_iff in Hclean as [_ Hclean].
        destruct (@splitnetloc_Forall _ rest n' u' Hsplit Hclean) as [Hn Hu].
        repeat split; trivial. now apply (@splitnetloc_undelimited rest n' u').
      + intros n u [= <- <-]. repeat split; trivial; constructor. }
  destruct first as [[n u]|e]; [|discriminate].
  destruct (Hfirst n u eq_refl) as (Hund & Hcheck & Hn & Hu). clear Hfirst.
  unfold bind.
  destruct (Url.cut Url.hash u) as [x y] eqn:Hhash.
  destruct (@cut_Forall _ Url.hash u x y Hhash Hu) as [Hx Hy].
  assert (Hfragment : clean (match y with Some b => b | None => [] end)).
  { destruct y as [b|]; [now apply Hy | constructor]. }
  assert (Hrest : forall fragment,
             clean fragment ->
             (let '(url1, query) :=
                match Url.cut Url.question x with
                | (a, Some b) => (a, b)
                | (a, None) => (a, [])
                end in
              match Url._checknetloc R n with
              | Return _ =>
                  Return {| Url.s_scheme := scheme; Url.s_netloc := n;
                            Url.s_path := url1; Url.s_query := query;
                            Url.s_fragment := fragment |}
              | Raise e => Raise e
              end) = Return sp ->
             accepted (Url.s_netloc sp)
             /\ (clean (Url.s_netloc sp) /\ clean (Url.s_path sp)
                 /\ clean (Url.s_query sp) /\ clean (Url.s_fragment sp))
             /\ Url.s_scheme sp = scheme).
  { intros fragment Hf.
    destruct (Url.cut Url.question x) as [x' y'] eqn:Hquestion.
    destruct (@cut_Forall _ Url.question x x' y' Hquestion Hx) as [Hx' Hy'].
    destruct y' as [query|];
      destruct (Url._checknetloc R n) as [[]|e] eqn:Hnetloc; try discriminate;
      intros [= <-]; simpl; repeat split; trivial;
      try (now apply Hy'); constructor. }
  destruct y as [fragment|]; apply Hrest; exact Hfragment.
Qed.

Lemma urlsplit_inv (url d : pystr) (sp : Url.SplitResult) :
  Url.urlsplit R url d = Return sp ->
  accepted (Url.s_netloc sp)
  /\ (clean (Url.s_netloc sp) /\ clean (Url.s_path sp)
      /\ clean (Url.s_query sp) /\ clean (Url.s_fragment sp))
  /\ (Url.s_scheme sp = cleaned d \/ forall d', Url.urlsplit R url d' = Return sp).
Proof.
  intros H. unfold Url.urlsplit in H. cbv zeta in H.
  set (url0 := filter (fun c => negb (Url.unsafe_byte c)) (lstrip Url.c0_or_space url))
    in H.
  assert (Hclean : clean url0) by apply filter_unsafe_clean.
  revert H.
  destruct (Url.cut Url.colon url0) as [before after] eqn:Hcut.
  destruct (@cut_Forall _ Url.colon url0 before after Hcut Hclean) as [_ Hafter].
  assert (Himplicit :
            after_scheme (cleaned d) url0 = Return sp ->
            accepted (Url.s_netloc sp)
            /\ (clean (Url.s_netloc sp) /\ clean (Url.s_path sp)
                /\ clean (Url.s_query sp) /\ clean (Url.s_fragment sp))
            /\ (Url.s_scheme sp = cleaned d
                \/ forall d', Url.urlsplit R url d' = Return sp)).
  { intros H. destruct (after_scheme_inv _ Hclean H) as (F1 & F2 & Hs).
    split; [exact F1|]. split; [exact F2|]. now left. }
  destruct before as [|c before]; [destruct after; exact Himplicit|].
  destruct after as [after|]; [|exact Himplicit].
  destruct (ascii_alpha c && forallb Url.scheme_char (c :: before)) eqn:Hcond;
    [|exact Himplicit].
  intros H. destruct (after_scheme_inv _ (Hafter after eq_refl) H) as (F1 & F2 & Hs).
  split; [exact F1|]. split; [exact F2|]. right. intros d'.
  unfold Url.urlsplit. cbv zeta. fold url0. now rewrite Hcut, Hcond.
Qed.
Lemma splitparams_clean (url u params : pystr) :
  Url._splitparams url = (u, params) -> clean url -> clean u /\ clean params.
Proof.
  unfold Url._splitparams. intros Hsplit Hclean.
  assert (Hsegs : Forall clean (rev (Url.split Url.slash url)))
    by exact (Forall_rev (split_Forall Url.slash Hclean)).
  revert Hsplit Hsegs.
  destruct (rev (Url.split Url.slash url)) as [|last front]; intros Hsplit Hsegs.
  { injection Hsplit as <- <-. split; [exact Hclean | constructor]. }
  apply Forall_cons_iff in Hsegs as [Hlast Hfront].
  revert Hsplit.
  destruct (Url.cut Url.semicolon last) as [a b] eqn:Hcut; intros Hsplit.
  destruct (@cut_Forall _ Url.semicolon last a b Hcut Hlast) as [Ha Hb].
  destruct b as [b|]; injection Hsplit as <- <-.
  - split; [|now apply Hb]. apply join_Forall; [reflexivity|].
    apply Forall_app. split; [now apply Forall_rev | now constructor].
  - split; [exact Hclean | constructor].
Qed.

Lemma urlparse_inv (url d : pystr) (p : Url.ParseResult) :
  Url.urlparse R url d = Return p ->
  accepted (Url.netloc p)
  /\ (clean (Url.netloc p) /\ clean (Url.path p) /\ clean (Url.params p)
      /\ clean (Url.query p) /\ clean (Url.fragment p))
  /\ (Url.scheme p = cleaned d \/ forall d', Url.urlparse R url d' = Return p).
Proof.
  unfold Url.urlparse at 1. unfold bind.
  destruct (Url.urlsplit R url d) as [sp|e] eqn:Hsp; [|discriminate].
  destruct (urlsplit_inv _ _ Hsp) as (Hacc & (Hn & Hp & Hq & Hf) & Hs).
  destruct (Url.strs_mem (Url.s_scheme sp) Url.uses_params
            && Url.mem Url.semicolon (Url.s_path sp)) eqn:Hcond.
  - destruct (Url._splitparams (Url.s_path sp)) as [u params] eqn:Hsplit.
    destruct (@splitparams_clean (Url.s_path sp) u params Hsplit Hp) as [Hu Hparams].
    intros [= <-]. simpl. split; [exact Hacc|]. split; [now repeat split|].
    destruct Hs as [Hs|Hs]; [now left|]. right. intros d'.
    unfold Url.urlparse, bind. now rewrite Hs, Hcond, Hsplit.
  - intros [= <-]. simpl. split; [exact Hacc|].
    split; [repeat split; trivial; constructor|].
    destruct Hs as [Hs|Hs]; [now left|]. right. intros d'.
    unfold Url.urlparse, bind. now rewrite Hs, Hcond.
Qed.

(** What [urlunsplit] writes for a netloc that is not empty. *)
Lemma urlunsplit_shape (scheme netloc url query fragment : pystr) :
  Url.nonempty scheme = true ->
  Url.nonempty netloc = true ->
  exists tail,
    Url.urlunsplit scheme netloc url query fragment
    = scheme ++ Url.colon :: Url.slash :: Url.slash :: netloc ++ tail
    /\ (clean url -> clean query -> clean fragment -> clean tail)
    /\ match tail with [] => True | c :: _ => delimiter c = true end.
Proof.
  intros Hscheme Hnetloc. unfold Url.urlunsplit. rewrite Hscheme, Hnetloc.
  cbn [orb]. cbv zeta.
  set (url' := if Url.nonempty url && negb (Url.starts_with_slash url)
               then Url.slash :: url else url).
  assert (Hclean' : clean url -> clean url').
  { intros Hu. subst url'.
    destruct (Url.nonempty url && negb (Url.starts_with_slash url)); [|exact Hu].
    now constructor. }
  assert (Hhead : match url' with [] => True | c :: _ => N.eqb c Url.slash = true end).
  { subst url'. destruct url as [|c u]; [exact I|]. simpl.
    destruct (N.eqb c Url.slash) eqn:Hc; simpl; [exact Hc | reflexivity]. }
  clearbody url'.
  destruct (Url.nonempty query), (Url.nonempty fragment).
  - exists (url' ++ Url.question :: query ++ Url.hash :: fragment). split; [|split].
    + repeat (rewrite <- ?app_assoc; cbn [app]). reflexivity.
    + intros Hu Hq Hf. apply Forall_app. split; [now apply Hclean'|].
      constructor; [reflexivity|]. apply Forall_app. split; [exact Hq | now constructor].
    + destruct url' as [|c u]; cbn [app]; [reflexivity | now rewrite Hhead].
  - exists (url' ++ Url.question :: query). split; [|split].
    + repeat (rewrite <- ?app_assoc; cbn [app]). reflexivity.
    + intros Hu Hq Hf. apply Forall_app. split; [now apply Hclean' | now constructor].
    + destruct url' as [|c u]; cbn [app]; [reflexivity | now rewrite Hhead].
  - exists (url' ++ Url.hash :: fragment). split; [|split].
    + repeat (rewrite <- ?app_assoc; cbn [app]). reflexivity.
    + intros Hu Hq Hf. apply Forall_app. split; [now apply Hclean' | now constructor].
    + destruct url' as [|c u]; cbn [app]; [reflexivity | now rewrite Hhead].
  - exists url'. split; [|split].
    + reflexivity.
    + intros Hu Hq Hf. now apply Hclean'.
    + destruct url' as [|c u]; [exact I | now rewrite Hhead].
Qed.

(** A URL that starts with [http:] or [https:] has that scheme. *)
Lemma urlsplit_scheme (scheme rest d : pystr) :
  scheme = py "http" \/ scheme = py "https" ->
  clean rest ->
  Url.urlsplit R (scheme ++ Url.colon :: rest) d = after_scheme scheme rest.
Proof.
  intros [-> | ->] Hrest; unfold Url.urlsplit; cbv zeta.
  - change (lstrip Url.c0_or_space (py "http" ++ Url.colon :: rest))
      with (py "http" ++ Url.colon :: rest).
    rewrite filter_clean_same
      by (apply Forall_app; split; [repeat constructor | now constructor]).
    change (Url.cut Url.colon (py "http" ++ Url.colon :: rest))
      with (py "http", Some rest).
    reflexivity.
  - change (lstrip Url.c0_or_space (py "https" ++ Url.colon :: rest))
      with (py "https" ++ Url.colon :: rest).
    rewrite filter_clean_same
      by (apply Forall_app; split; [repeat constructor | now constructor]).
    change (Url.cut Url.colon (py "https" ++ Url.colon :: rest))
      with (py "https", Some rest).
    reflexivity.
Qed.

(** A netloc that was accepted once is read back from behind two slashes. *)
Lemma after_scheme_netloc (scheme netloc tail : pystr) :
  accepted netloc ->
  match tail with [] => True | c :: _ => delimiter c = true end ->
  exists sp,
    after_scheme scheme (Url.slash :: Url.slash :: netloc ++ tail) = Return sp
    /\ Url.s_scheme sp = scheme /\ Url.s_netloc sp = netloc.
Proof.
  intros (Hund & Hbrackets & Hcheck) Htail.
  cbv beta iota.
  change (N.eqb Url.slash Url.slash && N.eqb Url.slash Url.slash) with true.
  cbv beta iota.
  rewrite (splitnetloc_app tail Hund Htail). cbv beta iota.
  rewrite Hbrackets. unfold bind.
  destruct (Url.cut Url.hash tail) as [x [y|]];
    destruct (Url.cut Url.question x) as [x' [y'|]];
    rewrite Hcheck; eexists; (split; [reflexivity|]); split; reflexivity.
Qed.

Lemma urlparse_of_urlsplit (url d : pystr) (sp : Url.SplitResult) :
  Url.urlsplit R url d = Return sp ->
  exists p,
    Url.urlparse R url d = Return p
    /\ Url.scheme p = Url.s_scheme sp /\ Url.netloc p = Url.s_netloc sp.
Proof.
  intros H. unfold Url.urlparse. rewrite H. unfold bind.
  destruct (Url.strs_mem (Url.s_scheme sp) Url.uses_params
            && Url.mem Url.semicolon (Url.s_path sp));
    [destruct (Url._splitparams (Url.s_path sp))|];
    eexists; (split; [reflexivity|]); now split.
Qed.

(** The empty URL has the default scheme and nothing else. *)
Lemma urlparse_empty (d : pystr) :
  Url.urlparse R [] d
  = Return {| Url.scheme := cleaned d; Url.netloc := []; Url.path := [];
              Url.params := []; Url.query := []; Url.fragment := [] |}.
Proof.
  unfold Url.urlparse, Url.urlsplit. cbv zeta.
  change (lstrip Url.c0_or_space []) with (@nil codepoint).
  cbn [filter Url.cut bind Url._checknetloc Url.nonempty negb orb
       Url.s_scheme Url.s_netloc Url.s_path Url.s_query Url.s_fragment Url.mem existsb].
  now rewrite andb_false_r.
Qed.

(** Parsing what [urlunparse] wrote gives the scheme and the netloc back. *)
Lemma urlparse_urlunparse (p0 : Url.ParseResult) (d : pystr) :
  Url.scheme p0 = py "http" \/ Url.scheme p0 = py "https" ->
  Url.nonempty (Url.netloc p0) = true ->
  accepted (Url.netloc p0) ->
  clean (Url.netloc p0) -> clean (Url.path p0) -> clean (Url.params p0) ->
  clean (Url.query p0) -> clean (Url.fragment p0) ->
  exists p,
    Url.urlparse R (Url.urlunparse p0) d = Return p
    /\ Url.scheme p = Url.scheme p0 /\ Url.netloc p = Url.netloc p0.
Proof.
  intros Hscheme Hne Hacc Hn Hp Hpr Hq Hf. unfold Url.urlunparse. cbv zeta.
  set (url := if Url.nonempty (Url.params p0)
              then Url.path p0 ++ Url.semicolon :: Url.params p0 else Url.path p0).
  assert (Hurl : clean url).
  { subst url. destruct (Url.nonempty (Url.params p0)); [|exact Hp].
    apply Forall_app. split; [exact Hp | now constructor]. }
  destruct (@urlunsplit_shape (Url.scheme p0) (Url.netloc p0) url (Url.query p0)
              (Url.fragment p0)) as (tail & -> & Hclean & Htail); trivial.
  { now destruct Hscheme as [-> | ->]. }
  destruct (@after_scheme_netloc (Url.scheme p0) (Url.netloc p0) tail Hacc Htail)
    as (sp & Hsp & Hs & Hnet).
  assert (Hsplit : Url.urlsplit R
                     (Url.scheme p0
                      ++ Url.colon :: Url.slash :: Url.slash :: Url.netloc p0 ++ tail) d
                   = Return sp).
  { rewrite urlsplit_scheme; [exact Hsp | exact Hscheme |].
    repeat constructor. apply Forall_app. split; [exact Hn | now apply Hclean]. }
  destruct (urlparse_of_urlsplit _ _ Hsplit) as (p & Hparse & Hps & Hpn).
  exists p. split; [exact Hparse|]. split; congruence.
Qed.
(** ASCII and not a square bracket. *)
#[local] Abbreviation plain :=
  (Forall (fun c => is_ascii c = true /\ N.eqb c Url.lbracket = false
                    /\ N.eqb c Url.rbracket = false)).

Lemma plain_netloc_accepted (netloc : pystr) :
  plain netloc ->
  Url.check_brackets R netloc = Return tt /\ Url._checknetloc R netloc = Return tt.
Proof.
  intros Hplain.
  assert (Hl : Url.mem Url.lbracket netloc = false).
  { unfold Url.mem. apply not_true_is_false. intros Hex.
    apply existsb_exists in Hex as (c & Hc & Heq). rewrite Forall_forall in Hplain.
    destruct (Hplain c Hc) as (_ & Hlb & _). rewrite N.eqb_sym in Heq. congruence. }
  assert (Hr : Url.mem Url.rbracket netloc = false).
  { unfold Url.mem. apply not_true_is_false. intros Hex.
    apply existsb_exists in Hex as (c & Hc & Heq). rewrite Forall_forall in Hplain.
    destruct (Hplain c Hc) as (_ & _ & Hrb). rewrite N.eqb_sym in Heq. congruence. }
  assert (Ha : forallb is_ascii netloc = true).
  { apply forallb_forall. intros c Hc. rewrite Forall_forall in Hplain.
    now destruct (Hplain c Hc). }
  split.
  - unfold Url.check_brackets. cbv zeta. now rewrite Hl, Hr.
  - unfold Url._checknetloc. now rewrite Ha, orb_true_r.
Qed.

Lemma after_scheme_plain (scheme url : pystr) :
  plain url -> exists sp, after_scheme scheme url = Return sp.
Proof.
  intros Hplain.
  assert (Hrest : forall n u, plain n ->
             exists sp,
               (let '(nl, u1) := (n, u) in
                let '(u2, frag) :=
                  match Url.cut Url.hash u1 with
                  | (x1, Some x2) => (x1, x2)
                  | (x1, None) => (x1, [])
                  end in
                let '(u3, qry) :=
                  match Url.cut Url.question u2 with
                  | (x1, Some x2) => (x1, x2)
                  | (x1, None) => (x1, [])
                  end in
                _ <- Url._checknetloc R nl ;;
                Return {| Url.s_scheme := scheme; Url.s_netloc := nl; Url.s_path := u3;
                          Url.s_query := qry; Url.s_fragment := frag |}) = Return sp).
  { intros n u Hn. destruct (plain_netloc_accepted Hn) as [_ Hcheck].
    cbv beta iota.
    destruct (Url.cut Url.hash u) as [x [y|]];
      destruct (Url.cut Url.question x) as [x' [y'|]];
      rewrite Hcheck; now eexists. }
  destruct url as [|a [|b rest]].
  - apply (Hrest [] []). constructor.
  - apply (Hrest [] [a]). constructor.
  - cbv beta iota. destruct (N.eqb a Url.slash && N.eqb b Url.slash).
    + destruct (Url._splitnetloc rest) as [n u] eqn:Hsplit.
      apply Forall_cons_iff in Hplain as [_ Hplain].
      apply Forall_cons_iff in Hplain as [_ Hplain].
      destruct (@splitnetloc_Forall _ rest n u Hsplit Hplain) as [Hn _].
      destruct (plain_netloc_accepted Hn) as [Hbrackets _].
      rewrite Hbrackets. apply (Hrest n u Hn).
    + apply (Hrest [] (a :: b :: rest)). constructor.
Qed.

(** A URL of ASCII characters without square brackets is parsed. *)
Lemma urlparse_plain (url d : pystr) :
  plain url -> exists p, Url.urlparse R url d = Return p.
Proof.
  intros Hplain.
  assert (Hsplit : exists sp, Url.urlsplit R url d = Return sp).
  { unfold Url.urlsplit. cbv zeta.
    set (url0 := filter (fun c => negb (Url.unsafe_byte c))
                   (lstrip Url.c0_or_space url)).
    assert (Hplain0 : plain url0).
    { apply Forall_forall. intros c Hc. apply filter_In in Hc as [Hc _].
      pose proof (lstrip_Forall Url.c0_or_space Hplain) as Hl.
      rewrite Forall_forall in Hl. now apply Hl. }
    destruct (Url.cut Url.colon url0) as [before after] eqn:Hcut.
    destruct (@cut_Forall _ Url.colon url0 before after Hcut Hplain0) as [_ Hafter].
    destruct before as [|c before]; [destruct after; now apply after_scheme_plain|].
    destruct after as [after|]; [|now apply after_scheme_plain].
    destruct (ascii_alpha c && forallb Url.scheme_char (c :: before));
      apply after_scheme_plain; trivial. now apply Hafter. }
  destruct Hsplit as [sp Hsplit].
  destruct (urlparse_of_urlsplit _ _ Hsplit) as (p & Hp & _). now exists p.
Qed.
End UrlFacts.

Section GuardDecides.
Variable E : externals.

#[local] Abbreviation clean := (Forall (fun c => Url.unsafe_byte c = false)).

(** The segments [urljoin] works on and the path it joins them to hold no
    character that the parser removes. *)
Ltac clean_path :=
  repeat match goal with
         | |- Forall _ (if ?c then _ else _) => destruct c
         | |- Forall _ (Url.join _ _) => apply join_Forall; [reflexivity|]
         | |- Forall _ (Url.resolve _ _) => apply resolve_Forall
         | |- Forall _ (Url.drop_empty_middle _) => apply drop_empty_middle_Forall
         | |- Forall _ (removelast _) => apply removelast_Forall
         | |- Forall _ (Url.split _ _) => apply split_Forall
         | |- Forall _ (_ ++ _) => apply Forall_app; split
         | |- Forall _ [] => constructor
         | |- Forall _ (_ :: _) => constructor
         end; trivial.

Lemma guard_decides (host_url target : pystr) (b u : Url.ParseResult) :
  Url.urlparse (url_runtime E) host_url [] = Return b ->
  Url.scheme b = py "http" \/ Url.scheme b = py "https" ->
  Url.netloc b <> [] ->
  Url.urlparse (url_runtime E) target (Url.scheme b) = Return u ->
  Anuncio.Run.is_safe_url E host_url target
  = Return (if Url.nonempty (Url.netloc u)
            then Url.strs_mem (Url.scheme u) [py "http"; py "https"]
                 && PyStr.eqb (Url.netloc b) (Url.netloc u)
            else PyStr.eqb (Url.scheme u) (Url.scheme b)).
Proof.
  intros Hb Hsb Hnb Hu.
  destruct (urlparse_inv _ _ _ Hb) as (Haccb & (Hcnb & Hcpb & Hcrb & Hcqb & Hcfb) & _).
  destruct (urlparse_inv _ _ _ Hu) as (Haccu & (Hcnu & Hcpu & Hcru & Hcqu & Hcfu) & Hdef).
  assert (Hcleaned : filter (fun c => negb (Url.unsafe_byte c))
                       (strip Url.c0_or_space (Url.scheme b)) = Url.scheme b).
  { destruct Hsb as [-> | ->]; reflexivity. }
  rewrite Hcleaned in Hdef.
  assert (Hweb : Url.strs_mem (Url.scheme b) [py "http"; py "https"] = true
                 /\ Url.strs_mem (Url.scheme b) Url.uses_relative = true
                 /\ Url.strs_mem (Url.scheme b) Url.uses_netloc = true).
  { destruct Hsb as [-> | ->]; repeat split; reflexivity. }
  destruct Hweb as (Hweb & Hrel & Hnet).
  assert (Hnb' : Url.nonempty (Url.netloc b) = true).
  { destruct (Url.netloc b); [contradiction | reflexivity]. }
  assert (Hsame : PyStr.eqb (Url.netloc b) (Url.netloc b) = true)
    by apply pystr_eqb_refl.
  assert (Hhost : Url.nonempty host_url = true).
  { destruct host_url; [|reflexivity]. exfalso. apply Hnb.
    vm_compute in Hb. now injection Hb as <-. }
  assert (Hdone : forall joined p,
             Url.urljoin (url_runtime E) host_url target = Return joined ->
             Url.urlparse (url_runtime E) joined [] = Return p ->
             Anuncio.Run.is_safe_url E host_url target
             = Return (Url.strs_mem (Url.scheme p) [py "http"; py "https"]
                       && PyStr.eqb (Url.netloc b) (Url.netloc p))).
  { intros joined p Hj Hp. unfold Anuncio.Run.is_safe_url, bind.
    now rewrite Hb, Hj, Hp. }
  assert (Hwritten : forall p0,
             Url.urljoin (url_runtime E) host_url target = Return (Url.urlunparse p0) ->
             Url.scheme p0 = Url.scheme u ->
             Url.scheme u = Url.scheme b ->
             Url.nonempty (Url.netloc p0) = true ->
             (Forall (fun c => N.eqb c Url.slash || N.eqb c Url.question
                               || N.eqb c Url.hash = false) (Url.netloc p0)
              /\ Url.check_brackets (url_runtime E) (Url.netloc p0) = Return tt
              /\ Url._checknetloc (url_runtime E) (Url.netloc p0) = Return tt) ->
             clean (Url.netloc p0) -> clean (Url.path p0) -> clean (Url.params p0) ->
             clean (Url.query p0) -> clean (Url.fragment p0) ->
             Anuncio.Run.is_safe_url E host_url target
             = Return (PyStr.eqb (Url.netloc b) (Url.netloc p0))).
  { intros p0 Hj Hs0 Hsu Hne Hacc Hn Hp Hr Hq Hf.
    destruct (@urlparse_urlunparse (url_runtime E) p0 []) as (p & Hp' & Hps & Hpn);
      trivial.
    { rewrite Hs0, Hsu. exact Hsb. }
    rewrite (Hdone _ _ Hj Hp'), Hps, Hpn, Hs0, Hsu, Hweb. reflexivity. }
  destruct target as [|c n].
  { rewrite urlparse_empty, Hcleaned in Hu. injection Hu as <-.
    cbn [Url.netloc Url.scheme Url.nonempty]. rewrite pystr_eqb_refl.
    rewrite (Hdone host_url b); [now rewrite Hweb, Hsame | | exact Hb].
    unfold Url.urljoin. now rewrite Hhost. }
  pose proof (eq_refl (Url.urljoin (url_runtime E) host_url (c :: n))) as Hjoin.
  unfold Url.urljoin at 2 in Hjoin. rewrite Hhost in Hjoin.
  cbn [negb Url.nonempty] in Hjoin. rewrite Hb in Hjoin. cbn [bind] in Hjoin.
  rewrite Hu in Hjoin. cbn [bind] in Hjoin. cbv zeta in Hjoin.
  destruct (PyStr.eqb (Url.scheme u) (Url.scheme b)) eqn:Hscheme.
  - apply pystr_eqb_eq in Hscheme.
    rewrite Hscheme, Hrel, Hnet in Hjoin. cbn [negb orb andb] in Hjoin.
    destruct (Url.nonempty (Url.netloc u)) eqn:Hnu.
    + rewrite (Hwritten u); trivial. now rewrite Hscheme, Hweb.
    + destruct (negb (Url.nonempty (Url.path u)) && negb (Url.nonempty (Url.params u))).
      * rewrite (Hwritten _ Hjoin);
          cbn [Url.scheme Url.netloc Url.path Url.params Url.query Url.fragment];
          trivial; try congruence;
          first [now rewrite Hsame | destruct (Url.nonempty (Url.query u)); trivial].
      * rewrite (Hwritten _ Hjoin);
          cbn [Url.scheme Url.netloc Url.path Url.params Url.query Url.fragment];
          trivial; try congruence;
          first [now rewrite Hsame | clean_path].
  - cbn [negb orb] in Hjoin.
    destruct Hdef as [Hdef|Hdef].
    { rewrite Hdef, pystr_eqb_refl in Hscheme. discriminate. }
    rewrite (Hdone _ _ Hjoin (Hdef [])).
    destruct (Url.nonempty (Url.netloc u)) eqn:Hnu; [reflexivity|].
    destruct (Url.netloc u); [|discriminate].
    destruct (Url.netloc b); [contradiction|]. cbn. now rewrite andb_false_r.
Qed.
End GuardDecides.

(** X17.  What the redirect guard of either variant decides.  Take a host
    URL that parses with the scheme [http] or [https] and a netloc, and a
    target that parses when the scheme of the host is the default.  The
    guard then raises nothing.  A target that names a netloc is accepted
    exactly when its scheme is [http] or [https] and its netloc is that of
    the host; a target that names none is accepted exactly when its scheme,
    its own or the default, is that of the host. *)
Theorem is_safe_url_decides (E : externals) (host_url target : pystr)
        (b u : Url.ParseResult) :
  Url.urlparse (url_runtime E) host_url [] = Return b ->
  Url.scheme b = py "http" \/ Url.scheme b = py "https" ->
  Url.netloc b <> [] ->
  Url.urlparse (url_runtime E) target (Url.scheme b) = Return u ->
  Anuncio.Run.is_safe_url E host_url target
  = Return (if Url.nonempty (Url.netloc u)
            then Url.strs_mem (Url.scheme u) [py "http"; py "https"]
                 && PyStr.eqb (Url.netloc b) (Url.netloc u)
            else PyStr.eqb (Url.scheme u) (Url.scheme b))
  /\ AssetManager.Run.is_safe_url E host_url target
     = Return (if Url.nonempty (Url.netloc u)
               then Url.strs_mem (Url.scheme u) [py "http"; py "https"]
                    && PyStr.eqb (Url.netloc b) (Url.netloc u)
               else PyStr.eqb (Url.scheme u) (Url.scheme b)).
Proof.
  intros Hb Hsb Hnb Hu. split.
  - now apply guard_decides.
  - apply (@guard_decides E host_url target b u Hb Hsb Hnb Hu).
Qed.

Lemma is_safe_url_decides_witness :
  Anuncio.Run.is_safe_url Sample.libraries Sample.example_com
    (py "https://example.com/next;here?x=1#top") = Return true
  /\ AssetManager.Run.is_safe_url Sample.libraries Sample.example_com
       (py "https://example.com/next;here?x=1#top") = Return true.
Proof.
  apply (@is_safe_url_decides Sample.libraries Sample.example_com
           (py "https://example.com/next;here?x=1#top")
           {| Url.scheme := py "http"; Url.netloc := py "example.com";
              Url.path := py "/"; Url.params := []; Url.query := [];
              Url.fragment := [] |}
           {| Url.scheme := py "https"; Url.netloc := py "example.com";
              Url.path := py "/next"; Url.params := py "here";
              Url.query := py "x=1"; Url.fragment := py "top" |}).
  - vm_compute. reflexivity.
  - left. reflexivity.
  - discriminate.
  - vm_compute. reflexivity.
Defined.

(** X18.  On a target made of ASCII characters without square brackets the
    redirect guard of either variant raises nothing: given a host URL that
    parses with the scheme [http] or [https] and a netloc, it answers true
    or false, the same in both variants. *)
Theorem is_safe_url_answers_on_plain (E : externals) (host_url target : pystr)
        (b : Url.ParseResult) :
  Url.urlparse (url_runtime E) host_url [] = Return b ->
  Url.scheme b = py "http" \/ Url.scheme b = py "https" ->
  Url.netloc b <> [] ->
  forallb is_ascii target = true ->
  Url.mem Url.lbracket target = false ->
  Url.mem Url.rbracket target = false ->
  exists answer : bool,
    Anuncio.Run.is_safe_url E host_url target = Return answer
    /\ AssetManager.Run.is_safe_url E host_url target = Return answer.
Proof.
  intros Hb Hsb Hnb Hascii Hl Hr.
  assert (Hplain : Forall (fun c => is_ascii c = true /\ N.eqb c Url.lbracket = false
                                    /\ N.eqb c Url.rbracket = false) target).
  { apply Forall_forall. intros c Hc. rewrite forallb_forall in Hascii.
    split; [now apply Hascii|].
    split; apply not_true_is_false; intros Heq; apply N.eqb_eq in Heq; subst c.
    - assert (Url.mem Url.lbracket target = true); [|congruence].
      apply existsb_exists. exists Url.lbracket. split; [exact Hc | apply N.eqb_refl].
    - assert (Url.mem Url.rbracket target = true); [|congruence].
      apply existsb_exists. exists Url.rbracket. split; [exact Hc | apply N.eqb_refl]. }
  destruct (@urlparse_plain (url_runtime E) target (Url.scheme b) Hplain) as [u Hu].
  eexists. split.
  - apply (@guard_decides E host_url target b u Hb Hsb Hnb Hu).
  - apply (@guard_decides E host_url target b u Hb Hsb Hnb Hu).
Qed.

Lemma is_safe_url_answers_on_plain_witness :
  exists answer : bool,
    Anuncio.Run.is_safe_url Sample.libraries Sample.example_com
      (py "javascript:alert(1)") = Return answer
    /\ AssetManager.Run.is_safe_url Sample.libraries Sample.example_com
         (py "javascript:alert(1)") = Return answer.
Proof.
  apply (@is_safe_url_answers_on_plain Sample.libraries Sample.example_com
           (py "javascript:alert(1)")
           {| Url.scheme := py "http"; Url.netloc := py "example.com";
              Url.path := py "/"; Url.params := []; Url.query := [];
              Url.fragment := [] |}).
  - vm_compute. reflexivity.
  - left. reflexivity.
  - discriminate.
  - reflexivity.
  - reflexivity.
  - reflexivity.
Defined.

(* ================================================================== *)
(** * What the forms accept *)

Section FormFacts.
Variable E : externals.

Lemma app_nil_both {A : Type} (l l' : list A) : l ++ l' = [] <-> l = [] /\ l' = [].
Proof.
  split; [apply app_eq_nil | intros [-> ->]; reflexivity].
Qed.

Lemma run_chain_passes (v : validator) (rest : list validator) (data : pystr) :
  run_chain (v :: rest) data = [] <-> v data = Pass /\ run_chain rest data = [].
Proof.
  simpl. destruct (v data); split; try easy; intros [Hv _]; discriminate.
Qed.

Lemma validate_field_passes (name : string) (vs : list validator)
      (fields : list (string * pystr)) :
  validate_field name vs fields = [] <-> run_chain vs (field name fields) = [].
Proof.
  unfold validate_field. destruct (run_chain vs (field name fields)); simpl;
    split; easy.
Qed.

Lemma DataRequired_passes (message data : pystr) :
  DataRequired E message data = Pass <-> strip (is_space (unicode E)) data <> [].
Proof.
  unfold DataRequired. destruct (strip (is_space (unicode E)) data); split; easy.
Qed.

Lemma Length_passes (min : nat) (max : option nat) (message data : pystr) :
  Length min max message data = Pass
  <-> min <= List.length data
      /\ match max with Some m => List.length data <= m | None => True end.
Proof.
  unfold Length. cbv zeta.
  destruct (Nat.leb_spec min (List.length data)) as [Hmin|Hmin]; cbn [andb].
  - destruct max as [m|].
    + destruct (Nat.leb_spec (List.length data) m) as [Hmax|Hmax]; split; try easy.
      intros [_ H]. lia.
    + split; easy.
  - split; [discriminate | intros [H _]; lia].
Qed.

Lemma email_check_passes (data : pystr) :
  (Email E data = Pass <-> email_error E data = None)
  /\ (AssetManager.Forms.validate_email_format E data = Pass
      <-> email_error E data = None).
Proof.
  unfold Email, AssetManager.Forms.validate_email_format.
  destruct (email_error E data); split; split; easy.
Qed.

Lemma csrf_passes (req : request) : csrf_errors req = [] <-> csrf_error req = None.
Proof. unfold csrf_errors. destruct (csrf_error req); split; easy. Qed.

Lemma submitted_post (req : request) : is_submitted req = true <-> method req = POST.
Proof. unfold is_submitted. destruct (method req); split; easy. Qed.

Lemma validates_iff (req : request) (errors : list (string * pystr)) :
  (Anuncio.Forms.validate_on_submit req errors = true
   <-> method req = POST /\ errors = [])
  /\ (AssetManager.Forms.validate_on_submit req errors = true
      <-> method req = POST /\ errors = []).
Proof.
  unfold Anuncio.Forms.validate_on_submit, AssetManager.Forms.validate_on_submit.
  rewrite andb_true_iff, submitted_post.
  destruct errors; split; split; intros [H1 H2]; split; easy.
Qed.

(** X19.  The asset form of the second variant validates exactly when it
    was posted with a good CSRF token and holds a name of 5 to 100
    characters, a serial number of at most 50 and a description of at least
    10, none of them blank. *)
Theorem asset_form_accepts (req : request) :
  AssetManagerViews.valid E req = true
  <-> method req = POST
      /\ csrf_error req = None
      /\ (strip (is_space (unicode E)) (field "name" (posted req)) <> []
          /\ 5 <= List.length (field "name" (posted req))
          /\ List.length (field "name" (posted req)) <= 100)
      /\ (strip (is_space (unicode E)) (field "serial_number" (posted req)) <> []
          /\ List.length (field "serial_number" (posted req)) <= 50)
      /\ (strip (is_space (unicode E)) (field "description" (posted req)) <> []
          /\ 10 <= List.length (field "description" (posted req))).
Proof.
  unfold AssetManagerViews.valid, AssetManagerViews.asset_form_errors.
  rewrite (proj2 (validates_iff req _)).
  rewrite !app_nil_both, csrf_passes, !validate_field_passes, !run_chain_passes,
    !DataRequired_passes, !Length_passes.
  cbn [run_chain]. intuition lia.
Qed.

(** X20.  The signup form of the first variant validates exactly when it
    was posted with a good CSRF token, its name, email and passwords are not
    blank, the email library accepts the email, no stored user has it, and
    the two passwords are equal.  That of the second variant validates
    exactly when it was posted with a good CSRF token and holds a username
    of 3 to 80 characters, an email that the email library accepts and a
    password of at least 6 characters, none of them blank; it does not look
    at the stored users. *)
Theorem signup_forms_accept (req : request) :
  (forall users : world Anuncio.User.t,
      Anuncio.Forms.validate_on_submit req (Anuncio.Forms.signup_errors E users req)
      = true
      <-> method req = POST
          /\ csrf_error req = None
          /\ strip (is_space (unicode E)) (field "name" (posted req)) <> []
          /\ (strip (is_space (unicode E)) (field "email" (posted req)) <> []
              /\ email_error E (field "email" (posted req)) = None
              /\ Anuncio.User.get_by_email users (field "email" (posted req)) = None)
          /\ strip (is_space (unicode E)) (field "password" (posted req)) <> []
          /\ (strip (is_space (unicode E)) (field "password2" (posted req)) <> []
              /\ field "password2" (posted req) = field "password" (posted req)))
  /\ (AssetManager.Forms.validate_on_submit req (AssetManager.Forms.signup_errors E req)
      = true
      <-> method req = POST
          /\ csrf_error req = None
          /\ (strip (is_space (unicode E)) (field "username" (posted req)) <> []
              /\ 3 <= List.length (field "username" (posted req))
              /\ List.length (field "username" (posted req)) <= 80)
          /\ (strip (is_space (unicode E)) (field "email" (posted req)) <> []
              /\ email_error E (field "email" (posted req)) = None)
          /\ (strip (is_space (unicode E)) (field "password" (posted req)) <> []
              /\ 6 <= List.length (field "password" (posted req)))).
Proof.
  split.
  - intros users. unfold Anuncio.Forms.signup_errors.
    rewrite (proj1 (validates_iff req _)).
    rewrite !app_nil_both, csrf_passes, !validate_field_passes, !run_chain_passes,
      !DataRequired_passes, (proj1 (email_check_passes _)).
    cbn [run_chain].
    assert (Hstored : Anuncio.Forms.validate_email users (field "email" (posted req))
                      = Pass
                      <-> Anuncio.User.get_by_email users (field "email" (posted req))
                          = None).
    { unfold Anuncio.Forms.validate_email.
      destruct (Anuncio.User.get_by_email users _); split; easy. }
    assert (Hequal : EqualTo "password" (posted req) (field "password2" (posted req))
                     = Pass
                     <-> field "password2" (posted req) = field "password" (posted req)).
    { unfold EqualTo.
      destruct (PyStr.eqb (field "password2" (posted req))
                          (field "password" (posted req))) eqn:Heq.
      - apply pystr_eqb_eq in Heq. split; easy.
      - apply pystr_eqb_neq in Heq. split; easy. }
    rewrite Hstored, Hequal. intuition.
  - unfold AssetManager.Forms.signup_errors.
    rewrite (proj2 (validates_iff req _)).
    rewrite !app_nil_both, csrf_passes, !validate_field_passes, !run_chain_passes,
      !DataRequired_passes, !Length_passes, (proj2 (email_check_passes _)).
    cbn [run_chain]. intuition.
Qed.
End FormFacts.

(* ================================================================== *)
(** * The view that creates an asset *)

(** What a valid asset form says about the lengths the columns bound. *)
Lemma valid_asset_form_lengths (E : externals) (req : request) :
  AssetManagerViews.valid E req = true ->
  List.length (field "name" (posted req)) <= 100
  /\ List.length (field "serial_number" (posted req)) <= 50.
Proof.
  unfold AssetManagerViews.valid, AssetManagerViews.asset_form_errors.
  rewrite (proj2 (validates_iff req _)).
  rewrite !app_nil_both, csrf_passes, !validate_field_passes, !run_chain_passes,
    !DataRequired_passes, !Length_passes.
  cbn [run_chain]. intuition lia.
Qed.

(** The asset that the view builds from a valid form fits its columns when
    the posted texts are texts the engine stores. *)
Lemma posted_asset_fits (E : externals) (req : request) (a : AssetManager.Asset.t) :
  AssetManagerViews.valid E req = true ->
  Columns.Text (field "name" (posted req)) = true ->
  Columns.Text (field "serial_number" (posted req)) = true ->
  Columns.Text (field "description" (posted req)) = true ->
  AssetManager.Asset.name a = field "name" (posted req) ->
  AssetManager.Asset.serial_number a = field "serial_number" (posted req) ->
  AssetManager.Asset.description a = field "description" (posted req) ->
  Columns.asset_fits a = true.
Proof.
  intros Hv Hn Hs Hd Ha Hb Hc.
  destruct (valid_asset_form_lengths E req Hv) as [Hln Hls].
  unfold Columns.asset_fits, Columns.varchar. rewrite Ha, Hb, Hc, Hn, Hs, Hd.
  rewrite !andb_true_r. apply andb_true_intro. split; apply Nat.leb_le; lia.
Qed.

Section CreateAsset.
Variable E : externals.
Variable build_error : pystr.
Variable users : world AssetManager.User.t.

(** X11.  The view that creates an asset always answers, whatever rows
    the other writers add meanwhile, in one of three ways, for a request
    whose posted texts are texts the engine stores and whose candidate
    slugs fit the slug column, made by a logged-in user who is stored.  A
    form that does not validate is shown again and nothing is stored.
    Otherwise either one asset is stored with the posted name, serial number
    and description for the logged-in user, in a row that fits its columns,
    the success message is flashed and the client is sent to the URL of the
    slug the asset got; or the form is shown again with the message that the
    serial number exists, and a stored asset holds the posted serial number.
    No stored row is lost and the session is not touched. *)
Theorem create_asset_outcome (assets : world AssetManager.Asset.t) (req : request)
        (current_user_id : nat) :
  Columns.Text (field "name" (posted req)) = true ->
  Columns.Text (field "serial_number" (posted req)) = true ->
  Columns.Text (field "description" (posted req)) = true ->
  Columns.slugs_fit (slugify E (field "name" (posted req))) (capacity assets) = true ->
  Columns.owner_stored users current_user_id = true ->
  exists w' r,
    AssetManagerViews.create_asset E build_error assets req current_user_id
    = Some (w', r)
    /\ incl (rows assets) (rows w')
    /\ login_user r = None
    /\ ((AssetManagerViews.valid E req = false
         /\ w' = assets /\ flashes r = [] /\ sent r = AssetManagerViews.form_page E req)
        \/ (AssetManagerViews.valid E req = true
            /\ exists stored k,
                 In stored (rows w')
                 /\ AssetManager.Asset.name stored = field "name" (posted req)
                 /\ AssetManager.Asset.serial_number stored
                    = field "serial_number" (posted req)
                 /\ AssetManager.Asset.description stored
                    = field "description" (posted req)
                 /\ AssetManager.Asset.user_id stored = current_user_id
                 /\ AssetManager.Asset.slug stored
                    = Some (candidate (slugify E (field "name" (posted req))) k)
                 /\ Columns.asset_fits stored = true
                 /\ Columns.varchar 150
                      (candidate (slugify E (field "name" (posted req))) k) = true
                 /\ Columns.owner_stored users (AssetManager.Asset.user_id stored) = true
                 /\ flashes r
                    = [(AssetManagerViews.asset_created, AssetManager.Run.success)]
                 /\ sent r
                    = Redirect (to_asset_view
                                  (candidate (slugify E (field "name" (posted req))) k)))
        \/ (AssetManagerViews.valid E req = true
            /\ (exists x, In x (rows w')
                          /\ AssetManager.Asset.serial_number x
                             = field "serial_number" (posted req))
            /\ capacity w' <= capacity assets
            /\ flashes r
               = [(py "Error: " ++ AssetManager.Asset.serial_exists,
                   AssetManager.Run.error)]
            /\ sent r = AssetManagerViews.form_page E req)).
Proof.
  intros Hn Hs Hd Hslugs Howner.
  destruct (AssetManagerViews.valid E req) eqn:Hvalid.
  - pose proof Hvalid as Hv. unfold AssetManagerViews.valid in Hv.
    unfold AssetManagerViews.create_asset, AssetManagerViews.form_page. rewrite Hv.
    set (new_asset := AssetManager.Asset.new _ _ _ _).
    destruct (am_save_total E assets new_asset) as (w' & self' & r & Hsave).
    rewrite Hsave. unfold AssetManager.Asset.save in Hsave.
    apply am_create_loop_outcome in Hsave as [Hincl [Hok|Herr]]; [| |reflexivity].
    + destruct Hok as (-> & Hin & Hname & Hserial & Hdesc & Huser & k & Hslug & _ & Hk).
      rewrite Hslug. eexists _, _. split; [reflexivity|].
      split; [exact Hincl|]. split; [reflexivity|].
      right. left. split; [reflexivity|]. exists self', k.
      repeat split; trivial.
      * now apply (posted_asset_fits E req).
      * apply (slugs_fit_at _ Hslugs). lia.
      * now rewrite Huser.
    + destruct Herr as (-> & Hc & x & Hx & Hxs).
      eexists _, _. split; [reflexivity|].
      split; [exact Hincl|]. split; [reflexivity|].
      right. right. split; [reflexivity|]. split; [now exists x|].
      now repeat split.
  - pose proof Hvalid as Hv. unfold AssetManagerViews.valid in Hv.
    unfold AssetManagerViews.create_asset, AssetManagerViews.form_page. rewrite Hv.
    eexists _, _. split; [reflexivity|]. split; [apply incl_refl|].
    split; [reflexivity|]. left. now repeat split.
Qed.

(** X12.  With no other writer, a valid asset form whose posted texts are
    texts the engine stores and whose candidate slugs fit the slug column
    has one of two effects.  When the logged-in user is stored and no
    stored asset holds the posted serial number, exactly one row is appended
    to the table, a row that fits its columns, under the first candidate
    slug of the posted name that is free, and the client is sent to the URL
    of that slug.  When a stored asset holds the serial number, the table
    stays as it was and the form is shown again with the message about the
    serial number. *)
Theorem create_asset_in_sequence (assets : world AssetManager.Asset.t) (req : request)
        (current_user_id : nat) :
  quiet assets ->
  AssetManagerViews.valid E req = true ->
  Columns.Text (field "name" (posted req)) = true ->
  Columns.Text (field "serial_number" (posted req)) = true ->
  Columns.Text (field "description" (posted req)) = true ->
  Columns.slugs_fit (slugify E (field "name" (posted req))) (capacity assets) = true ->
  (Columns.owner_stored users current_user_id = true ->
   (forall x, In x (rows assets) ->
              AssetManager.Asset.serial_number x <> field "serial_number" (posted req)) ->
   exists w' stored k,
     AssetManagerViews.create_asset E build_error assets req current_user_id
     = Some (w', {| flashes := [(AssetManagerViews.asset_created,
                                 AssetManager.Run.success)];
                    login_user := None;
                    sent := Redirect
                              (to_asset_view
                                 (candidate (slugify E (field "name" (posted req))) k)) |})
     /\ rows w' = rows assets ++ [stored]
     /\ AssetManager.Asset.slug stored
        = Some (candidate (slugify E (field "name" (posted req))) k)
     /\ Columns.asset_fits stored = true
     /\ Columns.varchar 150 (candidate (slugify E (field "name" (posted req))) k) = true
     /\ (forall j, j < k ->
           taken AssetManager.Asset.slug assets
                 (candidate (slugify E (field "name" (posted req))) j))
     /\ ~ taken AssetManager.Asset.slug assets
            (candidate (slugify E (field "name" (posted req))) k))
  /\ ((exists x, In x (rows assets)
                 /\ AssetManager.Asset.serial_number x
                    = field "serial_number" (posted req)) ->
      AssetManagerViews.create_asset E build_error assets req current_user_id
      = Some (assets, {| flashes := [(py "Error: " ++ AssetManager.Asset.serial_exists,
                                      AssetManager.Run.error)];
                         login_user := None;
                         sent := AssetManagerViews.form_page E req |})).
Proof.
  intros Hq Hvalid Hn Hs Hd Hslugs.
  pose proof Hvalid as Hv. unfold AssetManagerViews.valid in Hv.
  unfold AssetManagerViews.create_asset, AssetManagerViews.form_page. rewrite Hv.
  set (new_asset := AssetManager.Asset.new _ _ _ _).
  unfold AssetManager.Asset.save.
  change (AssetManager.Asset.name new_asset) with (field "name" (posted req)).
  set (base := slugify E (field "name" (posted req))) in *.
  split.
  - intros _ Hfree.
    destruct (@am_save_loop_quiet (S (capacity assets)) assets new_asset base 0)
      as (w' & stored & Hsave); trivial; try lia.
    { intros x Hx. apply pystr_eqb_neq. now apply Hfree. }
    rewrite Hsave.
    pose proof Hsave as Hinv.
    apply am_save_loop_quiet_inv in Hinv
      as (k & _ & Hslug & Hb & Hf & Hrows & _ & Hserial & Hname); trivial;
      [|intros j Hj; lia].
    apply am_create_loop_outcome in Hsave as [_ [Hok|(Hr & _)]];
      [|discriminate|reflexivity].
    destruct Hok as (_ & _ & _ & _ & Hdesc & _ & k' & Hslug' & _ & Hk').
    assert (k' = k) as ->.
    { rewrite Hslug in Hslug'. injection Hslug' as Heq.
      symmetry. now apply candidate_inj in Heq. }
    rewrite Hslug. exists w', stored, k. repeat split; trivial.
    + now apply (posted_asset_fits E req).
    + apply (slugs_fit_at _ Hslugs). lia.
  - intros (x & Hx & Hxs).
    destruct (@am_save_loop_serial_held (S (capacity assets)) assets new_asset x base 0)
      as (self' & ->); trivial; [intros j Hj; lia | lia].
Qed.
End CreateAsset.

Lemma create_asset_outcome_witness :
  exists w' r,
    AssetManagerViews.create_asset Sample.libraries (py "could not build")
      Races.crowded
      (Requests.asset_form "office desk" "SN-3" "Second floor, by the window") 1
    = Some (w', r)
    /\ incl (rows Races.crowded) (rows w')
    /\ login_user r = None
    /\ sent r = Redirect (to_asset_view (py "office-desk-3")).
Proof.
  destruct (@create_asset_outcome Sample.libraries (py "could not build")
              (Sample.only Sample.alice') Races.crowded
              (Requests.asset_form "office desk" "SN-3" "Second floor, by the window") 1
              eq_refl eq_refl eq_refl eq_refl eq_refl)
    as (w' & r & Hrun & Hincl & Hlogin & _).
  exists w', r. repeat split; trivial.
  vm_compute in Hrun. injection Hrun as _ <-. reflexivity.
Defined.

Lemma create_asset_in_sequence_witness :
  exists w' stored k,
    AssetManagerViews.create_asset Sample.libraries (py "could not build")
      Sample.two_desks
      (Requests.asset_form "office desk" "SN-7" "Second floor, by the window") 1
    = Some (w', {| flashes := [(AssetManagerViews.asset_created,
                                AssetManager.Run.success)];
                   login_user := None;
                   sent := Redirect
                             (to_asset_view
                                (candidate
                                   (slugify Sample.libraries (py "office desk")) k)) |})
    /\ rows w' = rows Sample.two_desks ++ [stored]
    /\ AssetManager.Asset.slug stored
       = Some (candidate (slugify Sample.libraries (py "office desk")) k)
    /\ Columns.asset_fits stored = true
    /\ Columns.varchar 150 (candidate (slugify Sample.libraries (py "office desk")) k)
       = true
    /\ (forall j, j < k ->
          taken AssetManager.Asset.slug Sample.two_desks
                (candidate (slugify Sample.libraries (py "office desk")) j))
    /\ ~ taken AssetManager.Asset.slug Sample.two_desks
           (candidate (slugify Sample.libraries (py "office desk")) k).
Proof.
  apply (proj1 (@create_asset_in_sequence Sample.libraries (py "could not build")
                  (Sample.only Sample.alice') Sample.two_desks
                  (Requests.asset_form "office desk" "SN-7" "Second floor, by the window")
                  1 eq_refl eq_refl eq_refl eq_refl eq_refl eq_refl)).
  - reflexivity.
  - intros x [<-|[<-|[]]]; vm_compute; discriminate.
Defined.

(* ================================================================== *)
(** * Signing up, then logging in *)

(** What a valid signup form of the second variant says about the length
    the column of the username bounds. *)
Lemma valid_signup_form_length (E : externals) (req : request) :
  AssetManager.Forms.validate_on_submit req (AssetManager.Forms.signup_errors E req)
  = true ->
  List.length (field "username" (posted req)) <= 80.
Proof.
  unfold AssetManager.Forms.signup_errors.
  rewrite (proj2 (validates_iff req _)).
  rewrite !app_nil_both, csrf_passes, !validate_field_passes, !run_chain_passes,
    !DataRequired_passes, !Length_passes.
  cbn [run_chain]. intuition lia.
Qed.

(** X14.  A signup form that validates, posted by a visitor who is not
    logged in while nobody else writes to the user table, registers one user
    (in the second variant: when no stored user has the posted email, the
    posted username and email are texts the engine stores, the email has
    at most 120 characters and the hash of the password at most 256; in the
    first the form checks the email itself and the engine checks no length).
    The stored user has the posted name and email and the hash of the posted
    password, in a row that, in the second variant, fits its columns; the
    session is bound to the new user without the remember flag, and the
    client is sent to the index.  Afterwards the lookup by the posted email
    finds the new user, and so does, on a table with primary keys, the
    lookup by the key the session holds. *)
Theorem signup_registers (E : externals) :
  (forall (users : world Anuncio.User.t) (req : request),
      quiet users ->
      is_authenticated req = false ->
      Anuncio.Forms.validate_on_submit req (Anuncio.Forms.signup_errors E users req)
      = true ->
      exists users' u,
        Anuncio.Run.signup E users req
        = Return (users', {| flashes := [(Anuncio.Run.registro_exitoso,
                                          Anuncio.Run.success)];
                             login_user := Some (Some (next_id users), false);
                             sent := Redirect to_index |})
        /\ rows users' = rows users ++ [u]
        /\ u = {| Anuncio.User.id := Some (next_id users);
                  Anuncio.User.name := field "name" (posted req);
                  Anuncio.User.email := field "email" (posted req);
                  Anuncio.User.password_hash
                  := generate_password_hash E (field "password" (posted req)) |}
        /\ Anuncio.User.get_by_email users' (field "email" (posted req)) = Some u
        /\ (keyed users -> Anuncio.User.get_by_id users' (next_id users) = Some u))
  /\ (forall (users : world AssetManager.User.t) (req : request),
      quiet users ->
      is_authenticated req = false ->
      AssetManager.Forms.validate_on_submit req (AssetManager.Forms.signup_errors E req)
      = true ->
      AssetManager.User.get_by_email users (field "email" (posted req)) = None ->
      Columns.Text (field "username" (posted req)) = true ->
      Columns.varchar 120 (field "email" (posted req)) = true ->
      Columns.varchar 256 (generate_password_hash E (field "password" (posted req)))
      = true ->
      exists users' u,
        AssetManager.Run.signup E users req
        = Return (users', {| flashes := [(AssetManager.Run.account_created,
                                          AssetManager.Run.success)];
                             login_user := Some (Some (next_id users), false);
                             sent := Redirect to_index |})
        /\ rows users' = rows users ++ [u]
        /\ u = {| AssetManager.User.id := Some (next_id users);
                  AssetManager.User.username := field "username" (posted req);
                  AssetManager.User.email := field "email" (posted req);
                  AssetManager.User.password_hash
                  := generate_password_hash E (field "password" (posted req)) |}
        /\ Columns.user_fits u = true
        /\ AssetManager.User.get_by_email users' (field "email" (posted req)) = Some u
        /\ (keyed users -> AssetManager.User.get_by_id users' (next_id users) = Some u)).
Proof.
  split; [apply anuncio_signup_stores|].
  intros users req Hq Hauth Hv Hnone Hname Hemail Hhash.
  destruct (@am_signup_stores E users req Hq Hauth Hv Hnone)
    as (users' & u & Hs & Hrows & Hu & Hget & Hid).
  exists users', u. repeat split; trivial.
  rewrite Hu. unfold Columns.user_fits. cbn [AssetManager.User.username
    AssetManager.User.email AssetManager.User.password_hash].
  rewrite Hemail, Hhash. unfold Columns.varchar. rewrite Hname, !andb_true_r.
  apply Nat.leb_le. now apply (valid_signup_form_length E).
Qed.

Lemma signup_registers_witness :
  exists users' u,
    AssetManager.Run.signup Sample.libraries (Sample.only Sample.alice')
      Requests.signup_as_bob
    = Return (users', {| flashes := [(AssetManager.Run.account_created,
                                      AssetManager.Run.success)];
                         login_user := Some (Some 2, false);
                         sent := Redirect to_index |})
    /\ rows users' = [Sample.alice'] ++ [u]
    /\ u = {| AssetManager.User.id := Some 2;
              AssetManager.User.username := py "bob";
              AssetManager.User.email := py "bob@example.com";
              AssetManager.User.password_hash := py "plain$hunter22" |}
    /\ Columns.user_fits u = true
    /\ AssetManager.User.get_by_email users' (py "bob@example.com") = Some u
    /\ (keyed (Sample.only Sample.alice') ->
        AssetManager.User.get_by_id users' 2 = Some u).
Proof.
  apply (proj2 (signup_registers Sample.libraries) (Sample.only Sample.alice')
           Requests.signup_as_bob eq_refl eq_refl eq_refl eq_refl eq_refl eq_refl
           eq_refl).
Defined.

(** X16.  Signing up and logging in compose, given a hash function whose
    check accepts the password that was hashed: after a signup that
    validated (in the second variant: of a user that fits the columns, as in
    X14), a login form that validates and holds the same email and password,
    posted without a [next] argument by a visitor who is not logged in,
    binds the session to the user the signup stored, with the remember flag
    of the form, and sends the client to the index. *)
Theorem signup_then_login (E : externals) :
  (forall (users : world Anuncio.User.t) (req req2 : request),
      quiet users ->
      is_authenticated req = false ->
      Anuncio.Forms.validate_on_submit req (Anuncio.Forms.signup_errors E users req)
      = true ->
      check_password_hash E (generate_password_hash E (field "password" (posted req)))
        (field "password" (posted req)) = true ->
      is_authenticated req2 = false ->
      Anuncio.Forms.validate_on_submit req2 (Anuncio.Forms.login_errors E req2) = true ->
      field "email" (posted req2) = field "email" (posted req) ->
      field "password" (posted req2) = field "password" (posted req) ->
      next req2 = None ->
      exists users' r,
        Anuncio.Run.signup E users req = Return (users', r)
        /\ Anuncio.Run.login E users' req2
           = Return {| flashes := [];
                       login_user := Some (Some (next_id users), remember_me req2);
                       sent := Redirect to_index |})
  /\ (forall (users : world AssetManager.User.t) (req req2 : request),
      quiet users ->
      is_authenticated req = false ->
      AssetManager.Forms.validate_on_submit req (AssetManager.Forms.signup_errors E req)
      = true ->
      AssetManager.User.get_by_email users (field "email" (posted req)) = None ->
      Columns.Text (field "username" (posted req)) = true ->
      Columns.varchar 120 (field "email" (posted req)) = true ->
      Columns.varchar 256 (generate_password_hash E (field "password" (posted req)))
      = true ->
      check_password_hash E (generate_password_hash E (field "password" (posted req)))
        (field "password" (posted req)) = true ->
      is_authenticated req2 = false ->
      AssetManager.Forms.validate_on_submit req2 (AssetManager.Forms.login_errors E req2)
      = true ->
      field "email" (posted req2) = field "email" (posted req) ->
      field "password" (posted req2) = field "password" (posted req) ->
      next req2 = None ->
      exists users' r,
        AssetManager.Run.signup E users req = Return (users', r)
        /\ AssetManager.Run.login E users' req2
           = Return {| flashes := [(py "Welcome back, "
                                    ++ field "username" (posted req) ++ py "!",
                                    AssetManager.Run.success)];
                       login_user := Some (Some (next_id users), remember_me req2);
                       sent := Redirect to_index |}).
Proof.
  split.
  - intros users req req2 Hq Hauth Hv Hcheck Hauth2 Hv2 Hemail Hpw Hnext.
    destruct (@anuncio_signup_stores E users req Hq Hauth Hv)
      as (users' & u & Hs & _ & -> & Hget & _).
    eexists _, _. split; [exact Hs|].
    unfold Anuncio.Run.login. rewrite Hauth2, Hv2, Hemail, Hget.
    unfold Anuncio.User.check_password. cbn [Anuncio.User.password_hash].
    now rewrite Hpw, Hcheck, Hnext.
  - intros users req req2 Hq Hauth Hv Hnone _ _ _ Hcheck Hauth2 Hv2 Hemail Hpw Hnext.
    destruct (@am_signup_stores E users req Hq Hauth Hv Hnone)
      as (users' & u & Hs & _ & -> & Hget & _).
    eexists _, _. split; [exact Hs|].
    unfold AssetManager.Run.login. rewrite Hauth2, Hv2, Hemail, Hget.
    unfold AssetManager.User.check_password. cbn [AssetManager.User.password_hash].
    now rewrite Hpw, Hcheck, Hnext.
Qed.

Lemma signup_then_login_witness :
  exists users' r,
    AssetManager.Run.signup Sample.libraries (Sample.only Sample.alice')
      Requests.signup_as_bob = Return (users', r)
    /\ AssetManager.Run.login Sample.libraries users' Requests.login_as_bob
       = Return {| flashes := [(py "Welcome back, "
                                ++ field "username" (posted Requests.signup_as_bob)
                                ++ py "!",
                                AssetManager.Run.success)];
                   login_user := Some (Some (next_id (Sample.only Sample.alice')),
                                       remember_me Requests.login_as_bob);
                   sent := Redirect to_index |}.
Proof.
  apply (proj2 (signup_then_login Sample.libraries) (Sample.only Sample.alice')
           Requests.signup_as_bob Requests.login_as_bob
           eq_refl eq_refl eq_refl eq_refl eq_refl eq_refl eq_refl eq_refl eq_refl
           eq_refl eq_refl eq_refl eq_refl).
Defined.
